(** * Analytic Pearson residual normalization (scanpy.experimental.pp)

    A shallow embedding of [_pearson_residuals],
    [normalize_pearson_residuals] and [normalize_pearson_residuals_pca]
    from [src/scanpy/experimental/pp/_normalization.py].

    - Scalars.  The arithmetic of the transform is written over a class
      [Scalar] of scalar operations, whose instance is [float] (IEEE 754
      binary64, numpy's [float64], the kernel's primitive floats).
    - Arrays.  A 2-D array is its backend tag, its number of columns and
      its list of rows; numpy's element-wise operators, broadcasting of a
      scalar, [@] and the reductions are list functions.  Entries are
      scalars of the carrier (an integer matrix is read as its [float64]
      values), and an array is a value: neither function writes into an
      array it was given.  The order of the additions of a reduction is
      numpy's: pairwise along contiguous memory ([np_sum]), one after the
      other elsewhere ([fsum]).
    - Effects.  [AnnData] objects live in a heap indexed by references, so
      that [adata.copy()] allocates and in-place writes are seen through
      every alias.  The calls of helpers, the warnings the module emits with
      [warn] and its log lines are recorded in a call trace; the
      [RuntimeWarning]s that numpy emits from inside an operation (a
      division of zero by zero, an overflow) are not part of it.
      Exceptions are a result constructor.
    - Helpers of [scanpy._utils] and [scanpy.get] are not among the
      sources; each is modelled from the specification and says so. *)

From Stdlib Require Import ZArith List String Bool Lia.
From Stdlib Require Import Uint63 Floats.
From stdpp Require Import base option list gmap strings.

Local Open Scope string_scope.
Local Open Scope list_scope.

(** ** Python values used by the two functions *)

Module Py.

(** [bool] is a subclass of [int]: [True == 1] and [False == 0]. *)
Definition of_bool (b : bool) : Z := Z.b2z b.

(** [~x] on an [int] (hence on a [bool]): bitwise complement, [-x-1]. *)
Definition invert (x : Z) : Z := Z.lnot x.

(** Truth value of an [int] in a condition: non-zero. *)
Definition truthy (x : Z) : bool := negb (x =? 0)%Z.

(** Truth value of a [str | None]: [None] and the empty string are
    false. *)
Definition truthy_str (s : option string) : bool :=
  match s with
  | None => false
  | Some s => negb (String.eqb s "")
  end.

End Py.

(** ** Scalars *)

Class Scalar (F : Type) : Type := {
  s_zero : F;
  s_add : F -> F -> F;
  s_sub : F -> F -> F;
  s_mul : F -> F -> F;
  s_div : F -> F -> F;
  s_neg : F -> F;
  s_sqrt : F -> F;
  s_leb : F -> F -> bool;
  s_ltb : F -> F -> bool;
  (** conversion of a Python [int] that is an array dimension *)
  s_of_nat : nat -> F;
  (** the value is one of 0, 1, 2, ... *)
  s_is_count : F -> bool
}.

(** *** binary64 *)

Module F64.

Definition of_nat (n : nat) : float :=
  PrimFloat.of_uint63 (Uint63.of_Z (Z.of_nat n)).

(** A non-negative integer: the sign bit is clear and the value is zero
    or finite with no fractional part.  A finite binary64 with mantissa
    [m] and exponent [e] is an integer when [e >= 0] or the low [-e] bits
    of [m] are zero. *)
Definition is_count (x : float) : bool :=
  match Prim2SF x with
  | S754_zero false => true
  | S754_finite false m e =>
      (0 <=? e)%Z || (Z.pos m mod 2 ^ (- e) =? 0)%Z
  | _ => false
  end.

Definition is_nan (x : float) : bool := negb (PrimFloat.eqb x x).

Definition is_negative_zero (x : float) : bool :=
  match Prim2SF x with
  | S754_zero true => true
  | _ => false
  end.

(** zero or finite: neither an infinity nor NaN *)
Definition is_finite (x : float) : bool :=
  match Prim2SF x with
  | S754_zero _ | S754_finite _ _ _ => true
  | _ => false
  end.

(** [mu] is finite and [mu**2] is not: the square has overflowed *)
Definition square_overflows (mu : float) : bool :=
  is_finite mu && negb (is_finite (mu * mu)).

(** Two readings of the sign of a decoded binary64: it is not below zero;
    it carries the sign [s] unless it is NaN. *)
Definition not_negative (x : spec_float) : Prop :=
  match x with
  | S754_finite true _ _ | S754_infinity true => False
  | _ => True
  end.

Definition signed (s : bool) (x : spec_float) : Prop :=
  match x with
  | S754_zero s' | S754_infinity s' | S754_finite s' _ _ => s' = s
  | S754_nan => True
  end.

(** the sign bit of a binary64 is clear, or the value is NaN *)
Definition plus (x : float) : Prop := signed false (Prim2SF x).

End F64.

#[export] Instance float64 : Scalar float := {|
  s_zero := PrimFloat.zero;
  s_add := PrimFloat.add;
  s_sub := PrimFloat.sub;
  s_mul := PrimFloat.mul;
  s_div := PrimFloat.div;
  s_neg := PrimFloat.opp;
  s_sqrt := PrimFloat.sqrt;
  s_leb := PrimFloat.leb;
  s_ltb := PrimFloat.ltb;
  s_of_nat := F64.of_nat;
  s_is_count := F64.is_count
|}.

(** ** Arrays *)

Inductive backend : Set := Dense | Sparse | Dask.

Record ndarray (F : Type) : Type := NDArray {
  kind : backend;
  ncols : nat;
  rows : list (list F)
}.
Arguments NDArray {F} _ _ _.
Arguments kind {F} _.
Arguments ncols {F} _.
Arguments rows {F} _.

Section Arrays.
Context {F : Type} `{Scalar F}.

(** Every row has [ncols] entries. *)
Definition well_shaped (A : ndarray F) : Prop :=
  Forall (fun r => length r = ncols A) (rows A).

Definition well_shapedb (A : ndarray F) : bool :=
  forallb (fun r => Nat.eqb (length r) (ncols A)) (rows A).

(** [A.shape[0]] *)
Definition shape0 (A : ndarray F) : nat := length (rows A).

(** [A[i, j]] *)
Definition entry (A : ndarray F) (i j : nat) : option F :=
  match rows A !! i with
  | Some r => r !! j
  | None => None
  end.

(** An add-reduction of elements that are not contiguous in memory (a
    column of a C-ordered array), and of the entries of one row of a
    sparse matrix: empty gives zero, otherwise the elements are added
    from the first one on.  (Where numpy starts from the zero of the
    result, that shows only in the sign of a sum that is zero.) *)
Definition fsum (l : list F) : F :=
  match l with
  | [] => s_zero
  | x :: l => fold_left s_add l x
  end.

(** numpy's pairwise summation ([pairwise_sum] of its [add] loops), with
    which it adds elements that are contiguous in memory.  Fewer than 8
    are added one after the other; up to 128 are added in eight
    interleaved lanes, the lanes are added in pairs, and what is left
    past the last multiple of eight is added one by one; more are split
    in two at a multiple of eight, and the two sums are added.
    [lanes8 fuel r l] adds the blocks of eight of [l] onto the lanes [r]
    and returns the lanes with the rest of [l].  The fuel bounds the
    depth of the recursion; the length of the list is enough
    ([pairwise_sum_fuel], [block_sum_lanes]). *)
Fixpoint lanes8 (fuel : nat) (r l : list F) : list F * list F :=
  match fuel with
  | O => (r, l)
  | S fuel =>
      if (8 <=? length l)%nat
      then lanes8 fuel (zip_with s_add r (take 8 l)) (drop 8 l)
      else (r, l)
  end.

Definition block_sum (l : list F) : F :=
  let '(r, rest) := lanes8 (length l) (take 8 l) (drop 8 l) in
  match r with
  | [r0; r1; r2; r3; r4; r5; r6; r7] =>
      fold_left s_add rest
        (s_add (s_add (s_add r0 r1) (s_add r2 r3))
               (s_add (s_add r4 r5) (s_add r6 r7)))
  | _ => s_zero
  end.

Fixpoint pairwise_sum (fuel : nat) (l : list F) : F :=
  if (length l <? 8)%nat then fold_left s_add l s_zero
  else if (length l <=? 128)%nat then block_sum l
  else
    match fuel with
    | O => s_zero
    | S fuel =>
        let n2 := (length l / 2)%nat in
        let n2 := (n2 - n2 mod 8)%nat in
        s_add (pairwise_sum fuel (take n2 l)) (pairwise_sum fuel (drop n2 l))
    end.

(** [np.add.reduce] over contiguous elements, which is [A.sum()] of a 1-D
    array and the sum of a row of a C-ordered array: the identity of the
    addition plus the pairwise sum.  (numpy releases differ in the sign
    of the zero they start from; that shows only in a sum whose addends
    are all the negative zero.) *)
Definition np_sum (l : list F) : F :=
  s_add s_zero (pairwise_sum (length l) l).

(** The sum of one row, by backend: the rows of a dense array are
    contiguous, the stored entries of a row of a sparse matrix are added
    in order.  A chunked array is taken as one chunk. *)
Definition row_reduce (k : backend) (l : list F) : F :=
  match k with
  | Sparse => fsum l
  | _ => np_sum l
  end.

(** The sum of one column: its entries are a row apart in memory and are
    added in order, unless the array is dense with that column alone,
    which is then contiguous. *)
Definition col_reduce (k : backend) (n_cols : nat) (l : list F) : F :=
  match k with
  | Sparse => fsum l
  | _ => if (n_cols =? 1)%nat then np_sum l else fsum l
  end.

Definition column (A : ndarray F) (j : nat) : list F :=
  map (fun r => nth j r s_zero) (rows A).

(** Modelled from the spec: [axis_sum] (scanpy._utils) is not among the
    sources.  "[sums_genes] = column sums, [sums_cells] = row sums ...
    (all float64)": [axis=0] sums each column, [axis=1] each row, and the
    result is 1-D.  The additions are in the order of [X.sum(axis)]. *)
Definition axis_sum (A : ndarray F) (axis : nat) : list F :=
  match axis with
  | 0 => map (fun j => col_reduce (kind A) (ncols A) (column A j))
             (seq 0 (ncols A))
  | _ => map (row_reduce (kind A)) (rows A)
  end.

(** [v.reshape(1, -1)] and [v.reshape(-1, 1)] of a 1-D array *)
Definition reshape_row (v : list F) : ndarray F :=
  NDArray Dense (length v) [v].
Definition reshape_col (v : list F) : ndarray F :=
  NDArray Dense 1 (map (fun x => [x]) v).

(** [A.sum()]: all entries, which are contiguous in row-major order *)
Definition total (A : ndarray F) : F := np_sum (concat (rows A)).

(** [A @ B] *)
Definition dot (u v : list F) : F :=
  fsum (map (fun p => s_mul (fst p) (snd p)) (combine u v)).
Definition matmul (A B : ndarray F) : ndarray F :=
  NDArray Dense (ncols B)
    (map (fun r => map (fun j => dot r (column B j)) (seq 0 (ncols B)))
         (rows A)).

(** element-wise operators; a scalar operand is broadcast *)
Definition map_array (f : F -> F) (A : ndarray F) : ndarray F :=
  NDArray (kind A) (ncols A) (map (map f) (rows A)).
Definition zip_array (f : F -> F -> F) (A B : ndarray F) : ndarray F :=
  NDArray (kind A) (ncols A)
    (map (fun p => map (fun q => f (fst q) (snd q))
                       (combine (fst p) (snd p)))
         (combine (rows A) (rows B))).

Definition div_scalar (A : ndarray F) (c : F) : ndarray F :=
  map_array (fun x => s_div x c) A.
Definition square (A : ndarray F) : ndarray F :=
  map_array (fun x => s_mul x x) A.
Definition sqrt_array (A : ndarray F) : ndarray F := map_array s_sqrt A.
Definition add_array := zip_array s_add.
Definition sub_array := zip_array s_sub.
Definition div_array := zip_array s_div.

(** [np.array(A)]: a dense array with the same entries *)
Definition np_array (A : ndarray F) : ndarray F :=
  NDArray Dense (ncols A) (rows A).

(** [A.map_blocks(np.array, dtype=np.float64)]: each block becomes dense,
    the array stays chunked *)
Definition map_blocks_np_array (A : ndarray F) : ndarray F :=
  NDArray Dask (ncols A) (rows A).

Definition isinstance_DaskArray (A : ndarray F) : bool :=
  match kind A with Dask => true | _ => false end.

Definition clip_scalar (lo hi x : F) : F :=
  if s_ltb x lo then lo else if s_ltb hi x then hi else x.

(** Modelled from the spec: [clip_array] (scanpy._utils) is not among
    the sources.  "Then clip element-wise to [[-clip, +clip]]": an entry
    below the lower bound becomes the bound, one above the upper bound
    becomes that bound, any other entry is kept. *)
Definition clip_array (A : ndarray F) (lo hi : F) : ndarray F :=
  map_array (clip_scalar lo hi) A.

(** Modelled from the spec: [check_nonnegative_integers] (scanpy._utils)
    is not among the sources.  "any entry of [X] is not a nonnegative
    integer": the check holds when every entry is one. *)
Definition check_nonnegative_integers (A : ndarray F) : bool :=
  forallb (forallb s_is_count) (rows A).

End Arrays.

(** ** The data store, the call trace and the effect monad *)

Definition loc := positive.

Inductive pyval (F : Type) : Type :=
| PyNone
| PyFloat (x : F)
| PyStr (s : string)
| PyArray (A : ndarray F).
Arguments PyNone {F}.
Arguments PyFloat {F} _.
Arguments PyStr {F} _.
Arguments PyArray {F} _.

(** A [dict] with string keys, in insertion order. *)
Definition pydict (F : Type) : Type := list (string * pyval F).

Definition dict_keys {F} (d : pydict F) : list string := map fst d.

Fixpoint dict_get {F} (d : pydict F) (k : string) : option (pyval F) :=
  match d with
  | [] => None
  | (k', v) :: d => if String.eqb k' k then Some v else dict_get d k
  end.

Record AnnData (F : Type) : Type := MkAnnData {
  adata_X : ndarray F;
  adata_layers : gmap string (ndarray F);
  adata_uns : gmap string (pydict F);
  adata_is_view : bool
}.
Arguments MkAnnData {F} _ _ _ _.
Arguments adata_X {F} _.
Arguments adata_layers {F} _.
Arguments adata_uns {F} _.
Arguments adata_is_view {F} _.

Inductive exn : Set :=
| ValueError (msg : string)
| KeyError (key : string)
| DanglingReference.

Inductive outcome (A : Type) : Type :=
| Ok (a : A)
| Raise (e : exn).
Arguments Ok {A} _.
Arguments Raise {A} _.

(** What a call leaves in the trace: the calls of helpers, the copies,
    the log lines and the warnings that the module emits with [warn]
    ([EvWarn]).  A [RuntimeWarning] that numpy emits from inside an
    arithmetic operation (line 81, on a division of zero by zero, a
    square root of a negative number or an overflow) is not an event. *)
Inductive event : Set :=
| EvArrayCopy
| EvAnnDataCopy (src dst : loc)
| EvViewToActual (l : loc)
| EvGetObsRep (l : loc) (layer : option string)
| EvSetObsRep (l : loc) (layer : option string)
| EvCheckNonnegativeIntegers
| EvWarn (category msg : string)
| EvLogInfo (msg : string)
| EvAxisSum (axis : nat)
| EvClipArray.

Record world (F : Type) : Type := World {
  heap : gmap loc (AnnData F);
  trace : list event
}.
Arguments World {F} _ _.
Arguments heap {F} _.
Arguments trace {F} _.

Definition M (F A : Type) : Type := world F -> outcome A * world F.

Section Effects.
Context {F : Type}.

Definition ret {A} (a : A) : M F A := fun w => (Ok a, w).

Definition bind {A B} (c : M F A) (k : A -> M F B) : M F B :=
  fun w =>
    match c w with
    | (Ok a, w') => k a w'
    | (Raise e, w') => (Raise e, w')
    end.

Definition raise {A} (e : exn) : M F A := fun w => (Raise e, w).

Definition emit (e : event) : M F unit :=
  fun w => (Ok tt, World (heap w) (trace w ++ [e])).

Definition load (l : loc) : M F (AnnData F) :=
  fun w =>
    match heap w !! l with
    | Some a => (Ok a, w)
    | None => (Raise DanglingReference, w)
    end.

Definition store (l : loc) (a : AnnData F) : M F unit :=
  fun w => (Ok tt, World (<[l := a]> (heap w)) (trace w)).

Definition alloc (a : AnnData F) : M F loc :=
  fun w =>
    let l := fresh (dom (heap w)) in
    (Ok l, World (<[l := a]> (heap w)) (trace w)).

End Effects.

#[export] Instance M_ret {F} : MRet (M F) := @ret F.
#[export] Instance M_bind {F} : MBind (M F) := fun A B k c => bind c k.

Section Helpers.
Context {F : Type} `{Scalar F}.

(** [X.copy()] *)
Definition array_copy (A : ndarray F) : M F (ndarray F) :=
  emit EvArrayCopy;; mret A.

(** [warn(msg, UserWarning)] *)
Definition warn (msg category : string) : M F unit :=
  emit (EvWarn category msg).

(** [logg.info(msg)] *)
Definition logg_info (msg : string) : M F unit := emit (EvLogInfo msg).

Definition call_check_nonnegative_integers (A : ndarray F) : M F bool :=
  emit EvCheckNonnegativeIntegers;; mret (check_nonnegative_integers A).

Definition call_axis_sum (A : ndarray F) (axis : nat) : M F (list F) :=
  emit (EvAxisSum axis);; mret (axis_sum A axis).

Definition call_clip_array (A : ndarray F) (lo hi : F) : M F (ndarray F) :=
  emit EvClipArray;; mret (clip_array A lo hi).

Definition set_X (a : AnnData F) (A : ndarray F) : AnnData F :=
  MkAnnData A (adata_layers a) (adata_uns a) (adata_is_view a).
Definition set_layer (a : AnnData F) (k : string) (A : ndarray F)
  : AnnData F :=
  MkAnnData (adata_X a) (<[k := A]> (adata_layers a)) (adata_uns a)
            (adata_is_view a).
Definition set_uns (a : AnnData F) (k : string) (d : pydict F)
  : AnnData F :=
  MkAnnData (adata_X a) (adata_layers a) (<[k := d]> (adata_uns a))
            (adata_is_view a).
Definition actual (a : AnnData F) : AnnData F :=
  MkAnnData (adata_X a) (adata_layers a) (adata_uns a) false.

(** [adata.copy()]: a new object with the same contents; the copy of a
    view is an actual object. *)
Definition adata_copy (l : loc) : M F loc :=
  a ← load l;
  l' ← alloc (actual a);
  emit (EvAnnDataCopy l l');;
  mret l'.

(** Modelled from the spec: [view_to_actual] (scanpy._utils) is not among
    the sources, and the spec keeps the container opaque.  What is kept
    is what its name and this call site say: a view becomes an object of
    its own, with the contents it had. *)
Definition view_to_actual (l : loc) : M F unit :=
  a ← load l;
  store l (actual a);;
  emit (EvViewToActual l).

(** Modelled from the spec: [_get_obs_rep] (scanpy.get) is not among the
    sources.  "reads a matrix from either the store's default slot or a
    named alternate layer": no layer gives [adata.X], a name gives
    [adata.layers[name]], which raises [KeyError] when absent. *)
Definition _get_obs_rep (l : loc) (layer : option string)
  : M F (ndarray F) :=
  a ← load l;
  emit (EvGetObsRep l layer);;
  match layer with
  | None => mret (adata_X a)
  | Some k =>
      match adata_layers a !! k with
      | Some A => mret A
      | None => raise (KeyError k)
      end
  end.

(** Modelled from the spec: [_set_obs_rep] (scanpy.get) is not among the
    sources.  The set-by-layer counterpart of [_get_obs_rep]. *)
Definition _set_obs_rep (l : loc) (val : ndarray F)
  (layer : option string) : M F unit :=
  a ← load l;
  emit (EvSetObsRep l layer);;
  match layer with
  | None => store l (set_X a val)
  | Some k => store l (set_layer a k val)
  end.

(** [adata.uns[key] = d] *)
Definition uns_setitem (l : loc) (key : string) (d : pydict F)
  : M F unit :=
  a ← load l;
  store l (set_uns a key d).

End Helpers.

(** ** The two functions *)

Inductive retval (F : Type) : Type :=
| RetNone
| RetAnnData (l : loc)
| RetDict (d : pydict F).
Arguments RetNone {F}.
Arguments RetAnnData {F} _.
Arguments RetDict {F} _.

Definition theta_msg : string := "Pearson residuals require theta > 0".
Definition clip_msg : string :=
  "Pearson residuals require `clip>=0` or `clip=None`.".
Definition count_msg : string :=
  "`normalize_pearson_residuals()` expects raw count data, but non-integers were found.".
Definition copy_msg : string :=
  "`copy=True` cannot be used with `inplace=False`.".
Definition uns_key : string := "pearson_residuals_normalization".

Section Transform.
Context {F : Type} `{Scalar F}.

(** The 1-D sums of a chunked array are chunked, those of a dense or
    sparse one are dense. *)
Definition sums_kind (A : ndarray F) : backend :=
  match kind A with Dask => Dask | _ => Dense end.

Definition with_kind (k : backend) (A : ndarray F) : ndarray F :=
  NDArray k (ncols A) (rows A).

(** [_pearson_residuals] (lines 40-86).  [copy] is annotated [bool] and
    is used as a condition only; the caller passes it the [int]
    [~inplace], so it is an integer here.  The warning it leaves in the
    trace is that of lines 62-65; the arithmetic of lines 67-84 leaves
    none. *)
Definition _pearson_residuals (X : ndarray F) (theta : F)
  (clip : option F) (check_values : bool) (copy : Z)
  : M F (ndarray F) :=
  X ← (if Py.truthy copy then array_copy X else mret X);
  (* check theta *)
  if s_leb theta s_zero then raise (ValueError theta_msg) else
  (* prepare clipping *)
  let clip :=
    match clip with
    | None => let n := shape0 X in s_sqrt (s_of_nat n)
    | Some c => c
    end in
  if s_ltb clip s_zero then raise (ValueError clip_msg) else
  (if check_values then
     ok ← call_check_nonnegative_integers X;
     if negb ok then warn count_msg "UserWarning" else mret tt
   else mret tt);;
  g ← call_axis_sum X 0;
  let sums_genes := with_kind (sums_kind X) (reshape_row g) in
  c ← call_axis_sum X 1;
  let sums_cells := with_kind (sums_kind X) (reshape_col c) in
  let sum_total := total sums_genes in
  let '(mu, diff) :=
    if negb (isinstance_DaskArray X) then
      let mu := np_array (div_scalar (matmul sums_cells sums_genes)
                                     sum_total) in
      (mu, np_array (sub_array X mu))
    else
      let mu := div_scalar (matmul sums_cells sums_genes) sum_total in
      (mu, map_blocks_np_array (sub_array X mu)) in
  let residuals :=
    div_array diff (sqrt_array (add_array mu (div_scalar (square mu) theta))) in
  residuals ← call_clip_array residuals (s_neg clip) clip;
  mret residuals.

(** [dict(theta=theta, clip=clip, computed_on=computed_on)] *)
Definition settings_dict (theta : F) (clip : option F)
  (computed_on : string) : pydict F :=
  [ ("theta", PyFloat theta);
    ("clip", match clip with Some c => PyFloat c | None => PyNone end);
    ("computed_on", PyStr computed_on) ].

(** [normalize_pearson_residuals] (lines 97-166).  [results] stands for
    the local [results_dict], bound only when [inplace] is false, which is
    also the only case in which it is read. *)
Definition normalize_pearson_residuals (adata : loc) (theta : F)
  (clip : option F) (check_values : bool) (layer : option string)
  (inplace : bool) (copy : bool) : M F (retval F) :=
  adata ← (if copy then
             if negb inplace then raise (ValueError copy_msg)
             else adata_copy adata
           else mret adata);
  view_to_actual adata;;
  X ← _get_obs_rep adata layer;
  let computed_on :=
    if Py.truthy_str layer then default "" layer else "adata.X" in
  let msg :=
    String.append "computing analytic Pearson residuals on " computed_on in
  logg_info msg;;
  residuals ← _pearson_residuals X theta clip check_values
                (Py.invert (Py.of_bool inplace));
  let settings := settings_dict theta clip computed_on in
  results ← (if inplace then
               _set_obs_rep adata residuals layer;;
               uns_setitem adata uns_key settings;;
               mret None
             else
               mret (Some (("X", PyArray residuals) :: settings)));
  logg_info "    finished ({time_passed})";;
  if copy then mret (RetAnnData adata)
  else if negb inplace then
    match results with
    | Some d => mret (RetDict d)
    | None => mret RetNone
    end
  else mret RetNone.

End Transform.

(** ** Vocabulary of the statements

    The quantities the specification names, written as it words them, and
    the summary of a run (its outcome and the events it adds) that the
    lemmas below relate to the two functions. *)

Section Vocabulary.
Context {F : Type} `{Scalar F}.

(** "row sum i", "column sum j" and the "grand sum", which the code
    takes as the sum of the column sums *)
Definition row_sum (X : ndarray F) (i : nat) : F :=
  row_reduce (kind X) (nth i (rows X) []).
Definition col_sum (X : ndarray F) (j : nat) : F :=
  col_reduce (kind X) (ncols X) (column X j).
Definition grand_sum (X : ndarray F) : F :=
  np_sum (map (col_sum X) (seq 0 (ncols X))).

(** "mu[i,j] = sums_cells[i] * sums_genes[j] / sum_total" *)
Definition mu_entry (X : ndarray F) (i j : nat) : F :=
  s_div (s_mul (row_sum X i) (col_sum X j)) (grand_sum X).

(** "(X - mu) / sqrt(mu + mu^2/theta)" at one entry *)
Definition residual (x mu theta : F) : F :=
  s_div (s_sub x mu) (s_sqrt (s_add mu (s_div (s_mul mu mu) theta))).

(** the Poisson formula, "(X - mu) / sqrt(mu)" *)
Definition poisson_residual (x mu : F) : F :=
  s_div (s_sub x mu) (s_sqrt mu).

(** the clipping bound in force: the caller's, or [sqrt(n)] *)
Definition clip_bound (X : ndarray F) (clip : option F) : F :=
  match clip with
  | Some c => c
  | None => s_sqrt (s_of_nat (shape0 X))
  end.

Definition clipped (X : ndarray F) (clip : option F) (y : F) : F :=
  clip_scalar (s_neg (clip_bound X clip)) (clip_bound X clip) y.

Definition clipped_residual (X : ndarray F) (theta : F) (clip : option F)
  (i j : nat) (x : F) : F :=
  clipped X clip (residual x (mu_entry X i j) theta).

(** the two parameter checks *)
Definition theta_rejected (theta : F) : bool := s_leb theta s_zero.
Definition clip_rejected (X : ndarray F) (clip : option F) : bool :=
  s_ltb (clip_bound X clip) s_zero.

(** the outcome of [_pearson_residuals], which depends neither on
    [check_values] and [copy] nor on the world it runs in *)
Definition pearson_outcome (X : ndarray F) (theta : F) (clip : option F)
  : outcome (ndarray F) :=
  fst (_pearson_residuals X theta clip false 0 (World ∅ [])).

(** the events one call of [_pearson_residuals] adds to the trace *)
Definition pearson_events (X : ndarray F) (theta : F) (clip : option F)
  (check_values : bool) (copy : Z) : list event :=
  (if Py.truthy copy then [EvArrayCopy] else []) ++
  if theta_rejected theta then []
  else if clip_rejected X clip then []
  else
    (if check_values then
       EvCheckNonnegativeIntegers ::
       (if check_nonnegative_integers X then []
        else [EvWarn "UserWarning" count_msg])
     else []) ++ [EvAxisSum 0; EvAxisSum 1; EvClipArray].

Definition log (w : world F) (evs : list event) : world F :=
  World (heap w) (trace w ++ evs).

(** the events that are a pass over the matrix or a write to the store *)
Definition is_computation (e : event) : bool :=
  match e with
  | EvCheckNonnegativeIntegers | EvWarn _ _ | EvAxisSum _ | EvClipArray
  | EvSetObsRep _ _ => true
  | _ => false
  end.

(** reading and writing the selected representation of one object *)
Definition get_rep (a : AnnData F) (layer : option string)
  : outcome (ndarray F) :=
  match layer with
  | None => Ok (adata_X a)
  | Some k =>
      match adata_layers a !! k with
      | Some A => Ok A
      | None => Raise (KeyError k)
      end
  end.
Definition set_rep (a : AnnData F) (layer : option string)
  (A : ndarray F) : AnnData F :=
  match layer with
  | None => set_X a A
  | Some k => set_layer a k A
  end.

(** the value [normalize_pearson_residuals] stores as [computed_on] *)
Definition computed_on_of (layer : option string) : string :=
  if Py.truthy_str layer then default "" layer else "adata.X".

Definition start_msg (layer : option string) : string :=
  String.append "computing analytic Pearson residuals on "
                (computed_on_of layer).
Definition finish_msg : string := "    finished ({time_passed})".

(** the object an in-place run leaves behind *)
Definition normalized (a : AnnData F) (theta : F) (clip : option F)
  (layer : option string) (R : ndarray F) : AnnData F :=
  set_uns (set_rep (actual a) layer R) uns_key
          (settings_dict theta clip (computed_on_of layer)).

(** the object a run works on: the caller's, or the copy it allocates *)
Definition target (w : world F) (l : loc) (copy : bool) : loc :=
  if copy then fresh (dom (heap w)) else l.

(** the events of a run up to the reading of the matrix *)
Definition prologue (l l1 : loc) (layer : option string) (copy : bool)
  : list event :=
  (if copy then [EvAnnDataCopy l l1] else []) ++
  [EvViewToActual l1; EvGetObsRep l1 layer].

(** the same contents, whatever the view flag *)
Definition same_contents (a b : AnnData F) : Prop :=
  adata_X a = adata_X b /\
  adata_layers a = adata_layers b /\
  adata_uns a = adata_uns b.

End Vocabulary.

(** A parameter that [_pearson_residuals] rejects: [theta <= 0], or an
    explicit [clip < 0]. *)
Definition invalid_parameters (theta : float) (clip : option float) : Prop :=
  PrimFloat.leb theta 0 = true \/
  exists c, clip = Some c /\ PrimFloat.ltb c 0 = true.

(** What the clipping leaves of [y] under the bound [c], as far as the
    sources fix it: the value [clip_scalar (-c) c y], or, under a bound
    that is zero, a zero of either sign (with a zero bound, the sign of a
    clipped entry is decided by [np.clip] and by the negation of a zero
    that may be an integer). *)
Definition clipped_to (c y r : float) : Prop :=
  r = clip_scalar (- c)%float c y \/
  (PrimFloat.eqb c 0 = true /\ PrimFloat.eqb r 0 = true /\
   PrimFloat.eqb (clip_scalar (- c)%float c y) 0 = true).

(** [R] has the shape of [X], and its entries are the clipped residuals
    of the entries of [X]. *)
Definition residual_matrix (X : ndarray float) (theta : float)
  (clip : option float) (R : ndarray float) : Prop :=
  ncols R = ncols X /\ length (rows R) = length (rows X) /\
  forall i j,
    match entry X i j with
    | Some x =>
        exists r,
          entry R i j = Some r /\
          clipped_to (clip_bound X clip)
            (residual x (mu_entry X i j) theta) r
    | None => entry R i j = None
    end.

(** the events of the residual computation, in their order *)
Definition computation_events : list event :=
  [EvAxisSum 0; EvAxisSum 1; EvClipArray].

(** ** Inputs used in the examples *)

Module Demo.

(** Two cells by two genes: row sums 3 and 3, column sums 4 and 2. *)
Definition X_counts : ndarray float :=
  NDArray Dense 2 [[1; 2]; [3; 0]]%float.

(** The same with one entry that is not an integer. *)
Definition X_fraction : ndarray float :=
  NDArray Dense 2 [[1; 0.5]; [3; 0]]%float.

(** A matrix with a negative entry whose grand sum [2^500] is small
    against its row and column sums: [mu[0,0] = 2^522] is finite and its
    square is not. *)
Definition X_wide : ndarray float :=
  NDArray Dense 2 [[0x1p511; 0]; [0; -0x7ffp500]]%float.

(** A matrix whose first column sums to zero and whose grand sum is
    negative: [mu[0,0] = 2 * 0 / (-6)] is the negative zero. *)
Definition X_signed : ndarray float :=
  NDArray Dense 2 [[3; -1]; [-3; -5]]%float.

Definition w_empty : world float := World ∅ [].

(** A store with one object, whose [X] is [X_counts]. *)
Definition adata : AnnData float :=
  MkAnnData X_counts (<["counts" := X_fraction]> ∅) ∅ true.
Definition w_adata : world float := World (<[1%positive := adata]> ∅) [].

(** An object with a layer whose name is the empty string. *)
Definition adata_unnamed : AnnData float :=
  MkAnnData (NDArray Dense 1 [[5]]%float) (<["" := X_counts]> ∅) ∅ false.
Definition w_unnamed : world float :=
  World (<[1%positive := adata_unnamed]> ∅) [].

End Demo.

(** ** Normalization followed by PCA

    [normalize_pearson_residuals_pca] works on a new object, hands it to
    [normalize_pearson_residuals] and to the PCA routine, and copies the
    results into the caller's object.  It reads and writes [obsm] and
    [varm], which the two functions above never touch: these are kept
    beside the heap, under the reference of their object.  It can fail
    with exceptions of numpy and of the routines it calls. *)

(** The annotations of an object that are aligned to an axis: the boolean
    columns of [var], and the arrays of [obsm] and [varm]. *)
Record annotations (F : Type) : Type := Annotations {
  ann_var : gmap string (list bool);
  ann_obsm : gmap string (ndarray F);
  ann_varm : gmap string (ndarray F)
}.
Arguments Annotations {F} _ _ _.
Arguments ann_var {F} _.
Arguments ann_obsm {F} _.
Arguments ann_varm {F} _.

(** [mask_var]: an array, a key of [var], [None], or the default
    [_empty]. *)
Inductive mask_arg : Set :=
| MaskEmpty
| MaskNone
| MaskKey (key : string)
| MaskArray (mask : list bool).

(** An exception of the two functions above, or one raised by numpy or by
    a routine outside this module, known by its class. *)
Inductive failure : Set :=
| Exn (e : exn)
| Foreign (class : string).

Inductive result (A : Type) : Type :=
| Done (a : A)
| Failed (e : failure).
Arguments Done {A} _.
Arguments Failed {A} _.

(** The calls of the two routines taken from [scanpy.preprocessing._pca]. *)
Inductive call : Set :=
| CallHandleMaskVar (l : loc)
| CallPca (l : loc) (n_comps : option nat) (random_state : Z).

Record pworld (F : Type) : Type := PWorld {
  base : world F;
  anns : gmap loc (annotations F);
  calls : list call
}.
Arguments PWorld {F} _ _ _.
Arguments base {F} _.
Arguments anns {F} _.
Arguments calls {F} _.

Definition P (F A : Type) : Type := pworld F -> result A * pworld F.

(** What the PCA routine computes: the scores [X_pca], the loadings [PCs]
    and the record it leaves under [uns["pca"]]. *)
Record pca_output (F : Type) : Type := PcaOutput {
  pca_scores : ndarray F;
  pca_loadings : ndarray F;
  pca_info : pydict F
}.
Arguments PcaOutput {F} _ _ _.
Arguments pca_scores {F} _.
Arguments pca_loadings {F} _.
Arguments pca_info {F} _.

Section PcaEffects.
Context {F : Type}.

Definition pret {A} (a : A) : P F A := fun w => (Done a, w).

Definition pbind {A B} (c : P F A) (k : A -> P F B) : P F B :=
  fun w =>
    match c w with
    | (Done a, w') => k a w'
    | (Failed e, w') => (Failed e, w')
    end.

Definition of_result {A} (r : result A) : P F A := fun w => (r, w).

(** A computation of the two functions above, run on the heap and the
    trace. *)
Definition lift {A} (c : M F A) : P F A :=
  fun w =>
    match c (base w) with
    | (Ok a, b) => (Done a, PWorld b (anns w) (calls w))
    | (Raise e, b) => (Failed (Exn e), PWorld b (anns w) (calls w))
    end.

Definition record_call (c : call) : P F unit :=
  fun w => (Done tt, PWorld (base w) (anns w) (calls w ++ [c])).

Definition no_annotations : annotations F := Annotations ∅ ∅ ∅.

Definition annotations_of (w : pworld F) (l : loc) : annotations F :=
  default no_annotations (anns w !! l).

Definition get_annotations (l : loc) : P F (annotations F) :=
  fun w => (Done (annotations_of w l), w).

Definition set_annotations (l : loc) (n : annotations F) : P F unit :=
  fun w => (Done tt, PWorld (base w) (<[l := n]> (anns w)) (calls w)).

End PcaEffects.

#[export] Instance P_ret {F} : MRet (P F) := @pret F.
#[export] Instance P_bind {F} : MBind (P F) := fun A B k c => pbind c k.

Section PcaHelpers.
Context {F : Type} `{Scalar F}.

(** The container is a store with get and set by key.  The view flag of
    an object is what [view_to_actual] reads and clears: what a write
    through [obsm], [varm] or [uns] does to a view is not modelled. *)

(** [adata.obsm[key]] and [adata.obsm[key] = A] *)
Definition obsm_getitem (l : loc) (key : string) : P F (ndarray F) :=
  n ← get_annotations l;
  match ann_obsm n !! key with
  | Some A => mret A
  | None => of_result (Failed (Exn (KeyError key)))
  end.
Definition obsm_setitem (l : loc) (key : string) (A : ndarray F)
  : P F unit :=
  n ← get_annotations l;
  set_annotations l
    (Annotations (ann_var n) (<[key := A]> (ann_obsm n)) (ann_varm n)).

(** [adata.varm[key]] and [adata.varm[key] = A] *)
Definition varm_getitem (l : loc) (key : string) : P F (ndarray F) :=
  n ← get_annotations l;
  match ann_varm n !! key with
  | Some A => mret A
  | None => of_result (Failed (Exn (KeyError key)))
  end.
Definition varm_setitem (l : loc) (key : string) (A : ndarray F)
  : P F unit :=
  n ← get_annotations l;
  set_annotations l
    (Annotations (ann_var n) (ann_obsm n) (<[key := A]> (ann_varm n))).

(** [adata.uns[key]] *)
Definition uns_getitem (l : loc) (key : string) : P F (pydict F) :=
  a ← lift (load l);
  match adata_uns a !! key with
  | Some d => mret d
  | None => of_result (Failed (Exn (KeyError key)))
  end.

(** [AnnData(X, obs=obs[[]], var=var[[]])]: a new object that holds [X]
    and nothing else, [obs] and [var] having no columns. *)
Definition new_AnnData (X : ndarray F) : P F loc :=
  l ← lift (alloc (MkAnnData X ∅ ∅ false));
  set_annotations l no_annotations;;
  mret l.

(** [adata.to_df()]: the values of [adata.X] as a table *)
Definition to_df (l : loc) : P F (ndarray F) :=
  a ← lift (load l);
  mret (adata_X a).

(** [dict] called with the entries of [d] and the keyword [key=v]: a
    keyword given twice is a [TypeError]. *)
Definition dict_kw (d : pydict F) (key : string) (v : pyval F)
  : result (pydict F) :=
  if bool_decide (key ∈ dict_keys d) then Failed (Foreign "TypeError")
  else Done (d ++ [(key, v)]).

(** The elements at which a boolean mask holds. *)
Fixpoint mask_select {A} (mask : list bool) (l : list A) : list A :=
  match mask, l with
  | b :: mask, x :: l =>
      if b then x :: mask_select mask l else mask_select mask l
  | _, _ => []
  end.

Definition count_true (mask : list bool) : nat :=
  length (List.filter (fun b => b) mask).

(** [adata[:, mask].X]: the columns at which the mask holds.  A boolean
    index whose length is not that of the axis is an [IndexError]. *)
Definition getitem_columns (A : ndarray F) (mask : list bool)
  : result (ndarray F) :=
  if (length mask =? ncols A)%nat then
    Done (NDArray (kind A) (count_true mask) (map (mask_select mask) (rows A)))
  else Failed (Foreign "IndexError").

(** [adata[:, mask].copy()]: a new object for the variables at which the
    mask holds.  It has the selected columns of [X] and of the layers,
    the selected entries of [var] and the selected rows of [varm]; its
    [uns] and [obsm] are those of [adata].  A boolean index whose length
    is not that of the axis is an [IndexError], raised before anything is
    copied. *)
Definition select_columns (mask : list bool) (A : ndarray F) : ndarray F :=
  NDArray (kind A) (count_true mask) (map (mask_select mask) (rows A)).
Definition select_rows (mask : list bool) (A : ndarray F) : ndarray F :=
  NDArray (kind A) (ncols A) (mask_select mask (rows A)).
Definition subset_object (a : AnnData F) (mask : list bool)
  (X : ndarray F) : AnnData F :=
  MkAnnData X (select_columns mask <$> adata_layers a) (adata_uns a) false.
Definition subset_annotations (n : annotations F) (mask : list bool)
  : annotations F :=
  Annotations (mask_select mask <$> ann_var n) (ann_obsm n)
              (select_rows mask <$> ann_varm n).
Definition getitem_columns_copy (adata : loc) (mask : list bool)
  : P F loc :=
  a ← lift (load adata);
  n ← get_annotations adata;
  X ← of_result (getitem_columns (adata_X a) mask);
  l ← lift (alloc (subset_object a mask X));
  lift (emit (EvAnnDataCopy adata l));;
  set_annotations l (subset_annotations n mask);;
  mret l.

(** [np.zeros(shape=(n, m))] *)
Definition zeros (n m : nat) : ndarray F :=
  NDArray Dense m (replicate n (replicate m s_zero)).

(** numpy's broadcasting of a 2-D array to the shape [(n, m)]: an axis of
    length one is repeated. *)
Definition broadcastable (A : ndarray F) (n m : nat) : bool :=
  (((shape0 A =? n) || (shape0 A =? 1)) &&
   ((ncols A =? m) || (ncols A =? 1)))%nat.
Definition broadcast_to (A : ndarray F) (n m : nat) : list (list F) :=
  let rs :=
    map (fun r => if (ncols A =? m)%nat then r
                  else replicate m (nth 0 r s_zero))
        (rows A) in
  if (shape0 A =? n)%nat then rs else replicate n (nth 0 rs []).

(** The rows of [Z] with those at which the mask holds replaced, in
    order, by the rows [P]. *)
Fixpoint put_rows {A} (mask : list bool) (Z P : list A) : list A :=
  match mask, Z with
  | true :: mask, z :: Z =>
      match P with
      | r :: P => r :: put_rows mask Z P
      | [] => z :: put_rows mask Z []
      end
  | false :: mask, z :: Z => z :: put_rows mask Z P
  | _, _ => Z
  end.

(** [Z[mask] = P] for a 2-D [Z], a boolean mask over its rows and a 2-D
    [P]: an [IndexError] when the mask has not the length of the axis, a
    [ValueError] when [P] cannot be broadcast to the selected rows. *)
Definition setitem_rows (Z : ndarray F) (mask : list bool) (P : ndarray F)
  : result (ndarray F) :=
  if negb (length mask =? shape0 Z)%nat then Failed (Foreign "IndexError")
  else if negb (broadcastable P (count_true mask) (ncols Z)) then
    Failed (Foreign "ValueError")
  else
    Done (NDArray (kind Z) (ncols Z)
            (put_rows mask (rows Z)
                      (broadcast_to P (count_true mask) (ncols Z)))).

End PcaHelpers.

Section Pipeline.
Context {F : Type} `{Scalar F}.

(** The keyword arguments passed on to the PCA routine. *)
Context {kwargs : Type}.

(** [_handle_mask_var] and [pca] (scanpy.preprocessing._pca) are not among
    the sources and the specification keeps them opaque: what they
    compute is taken as given, for every choice of it.
    [_handle_mask_var] reads the object and its arguments and gives the
    mask to use, or none; it may fail.  The PCA routine "accepts a matrix
    and [n_comps], returns component scores, loadings, and
    explained-variance-ratio"; it may fail.  Their own warnings and log
    lines are not traced; their calls are. *)
Variable handle_mask_var_result :
  AnnData F -> annotations F -> mask_arg -> option bool ->
  result (option (list bool)).
Variable pca_fit :
  ndarray F -> option nat -> Z -> kwargs -> result (pca_output F).

(** [_handle_mask_var(adata, mask_var, use_highly_variable)], of which
    the second component is used *)
Definition _handle_mask_var (adata : loc) (mask_var : mask_arg)
  (use_highly_variable : option bool) : P F (option (list bool)) :=
  record_call (CallHandleMaskVar adata);;
  a ← lift (load adata);
  n ← get_annotations adata;
  of_result (handle_mask_var_result a n mask_var use_highly_variable).

(** Modelled from the spec: [pca(adata, n_comps=..., random_state=...,
    **kwargs)].  The routine is run on [adata.X] and leaves its results in
    [obsm["X_pca"]], [varm["PCs"]] and [uns["pca"]]. *)
Definition pca (adata : loc) (n_comps : option nat) (random_state : Z)
  (kw : kwargs) : P F unit :=
  record_call (CallPca adata n_comps random_state);;
  a ← lift (load adata);
  out ← of_result (pca_fit (adata_X a) n_comps random_state kw);
  obsm_setitem adata "X_pca" (pca_scores out);;
  varm_setitem adata "PCs" (pca_loadings out);;
  lift (uns_setitem adata "pca" (pca_info out)).

(** [normalize_pearson_residuals_pca] (lines 177-265).  The result is the
    reference of the new object for [inplace=False], and [None]
    otherwise.  The array under [adata.varm["PCs"]] is written in place by
    the masked assignment: arrays being values here, it is read, updated
    and stored back. *)
Definition normalize_pearson_residuals_pca (adata : loc) (theta : F)
  (clip : option F) (n_comps : option nat) (random_state : Z)
  (kwargs_pca : kwargs) (mask_var : mask_arg)
  (use_highly_variable : option bool) (check_values : bool)
  (inplace : bool) : P F (option loc) :=
  (* Unify new mask argument and deprecated use_highly_varible argument *)
  mask_var ← _handle_mask_var adata mask_var use_highly_variable;
  adata_pca ←
    match mask_var with
    | Some mask =>
        adata_sub ← getitem_columns_copy adata mask;
        adata_sub ← lift (load adata_sub);
        X ← lift (array_copy (adata_X adata_sub));
        new_AnnData X
    | None =>
        a ← lift (load adata);
        X ← lift (array_copy (adata_X a));
        new_AnnData X
    end;
  lift (normalize_pearson_residuals adata_pca theta clip check_values None
          true false);;
  pca adata_pca n_comps random_state kwargs_pca;;
  X_pca ← obsm_getitem adata_pca "X_pca";
  let n_comps := ncols X_pca in
  if inplace then
    norm_settings ← uns_getitem adata_pca uns_key;
    df ← to_df adata_pca;
    norm_dict ←
      of_result (dict_kw norm_settings "pearson_residuals_df" (PyArray df));
    (match mask_var with
     | Some mask =>
         a ← lift (load adata);
         varm_setitem adata "PCs" (zeros (ncols (adata_X a)) n_comps);;
         PCs ← varm_getitem adata_pca "PCs";
         Z ← varm_getitem adata "PCs";
         Z ← of_result (setitem_rows Z mask PCs);
         varm_setitem adata "PCs" Z
     | None =>
         PCs ← varm_getitem adata_pca "PCs";
         varm_setitem adata "PCs" PCs
     end);;
    pca_uns ← uns_getitem adata_pca "pca";
    lift (uns_setitem adata "pca" pca_uns);;
    lift (uns_setitem adata uns_key norm_dict);;
    X_pca ← obsm_getitem adata_pca "X_pca";
    obsm_setitem adata "X_pca" X_pca;;
    mret None
  else
    mret (Some adata_pca).

End Pipeline.

Section PipelineVocabulary.
Context {F : Type} `{Scalar F}.

(** the matrix the pipeline works on: [adata.X], or its columns under the
    mask *)
Definition pca_input (a : AnnData F) (mask : option (list bool))
  : result (ndarray F) :=
  match mask with
  | None => Done (adata_X a)
  | Some m => getitem_columns (adata_X a) m
  end.

(** the world in which the new object is made: the caller's, to which
    the selection of the columns has added the object [adata_sub] when
    there is a mask *)
Definition input_world (w : pworld F) (l : loc) (a : AnnData F)
  (mask : option (list bool)) (X : ndarray F) : pworld F :=
  match mask with
  | None => w
  | Some m =>
      let ls := fresh (dom (heap (base w))) in
      PWorld (World (<[ls := subset_object a m X]> (heap (base w)))
                    (trace (base w) ++ [EvAnnDataCopy l ls]))
             (<[ls := subset_annotations (annotations_of w l) m]> (anns w))
             (calls w)
  end.

(** the events from the copy of the matrix for the new object [lp] to
    the end of [_pearson_residuals] *)
Definition pipeline_events (lp : loc) (X : ndarray F) (theta : F)
  (clip : option F) (check_values : bool) : list event :=
  [EvArrayCopy; EvViewToActual lp; EvGetObsRep lp None;
   EvLogInfo (start_msg None)] ++
  pearson_events X theta clip check_values (Py.invert (Py.of_bool true)).

(** the new object after the normalization and after the PCA *)
Definition residuals_object (X R : ndarray F) (theta : F) (clip : option F)
  : AnnData F :=
  normalized (MkAnnData X ∅ ∅ false) theta clip None R.
Definition fitted_object (X R : ndarray F) (theta : F) (clip : option F)
  (out : pca_output F) : AnnData F :=
  set_uns (residuals_object X R theta clip) "pca" (pca_info out).
Definition fitted_annotations (out : pca_output F) : annotations F :=
  Annotations ∅ (<["X_pca" := pca_scores out]> ∅)
              (<["PCs" := pca_loadings out]> ∅).

(** [norm_dict] *)
Definition norm_dict (R : ndarray F) (theta : F) (clip : option F)
  : pydict F :=
  settings_dict theta clip "adata.X" ++ [("pearson_residuals_df", PyArray R)].

(** the loadings written to the caller's [varm["PCs"]] *)
Definition caller_PCs (a : AnnData F) (mask : option (list bool))
  (out : pca_output F) : result (ndarray F) :=
  match mask with
  | None => Done (pca_loadings out)
  | Some m =>
      setitem_rows (zeros (ncols (adata_X a)) (ncols (pca_scores out))) m
                   (pca_loadings out)
  end.

Definition set_varm (n : annotations F) (key : string) (A : ndarray F)
  : annotations F :=
  Annotations (ann_var n) (ann_obsm n) (<[key := A]> (ann_varm n)).
Definition set_obsm (n : annotations F) (key : string) (A : ndarray F)
  : annotations F :=
  Annotations (ann_var n) (<[key := A]> (ann_obsm n)) (ann_varm n).

End PipelineVocabulary.


(** ** Edge values of binary64 *)

Module F64Edge.
(** a zero of either sign, or NaN *)
Definition zero_or_nan (x : float) : Prop :=
  match Prim2SF x with
  | S754_zero _ | S754_nan => True
  | _ => False
  end.
End F64Edge.


Module DemoPca.

(** A mask handler that takes an array that has one entry for each
    variable as it is, rejects any other array, and uses no mask
    otherwise. *)
Definition hmv (a : AnnData float) (n : annotations float) (m : mask_arg)
  (u : option bool) : result (option (list bool)) :=
  match m with
  | MaskArray mask =>
      if (length mask =? ncols (adata_X a))%nat then Done (Some mask)
      else Failed (Foreign "ValueError")
  | _ => Done None
  end.

(** A stand-in for the PCA routine, with as many components as
    variables: the scores are the matrix itself, the loadings are ones. *)
Definition fit (X : ndarray float) (n_comps : option nat) (rs : Z)
  (kw : unit) : result (pca_output float) :=
  Done (PcaOutput X
          (NDArray Dense (ncols X)
                   (replicate (ncols X) (replicate (ncols X) 1%float)))
          [("variance_ratio", PyNone)]).

(** A PCA routine that fails. *)
Definition fit_fails (X : ndarray float) (n_comps : option nat) (rs : Z)
  (kw : unit) : result (pca_output float) :=
  Failed (Foreign "LinAlgError").

Definition pw : pworld float := PWorld Demo.w_adata ∅ [].

(** A store whose object holds [Demo.X_fraction]: the entry that is not
    an integer is in the second column. *)
Definition pw_fraction : pworld float :=
  PWorld (World (<[1%positive := MkAnnData Demo.X_fraction ∅ ∅ false]> ∅) [])
         ∅ [].

End DemoPca.

(** ** Facts about arrays *)

Section ArrayFacts.
Context {F : Type} `{Scalar F}.

Lemma entry_map_array (f : F -> F) (A : ndarray F) i j :
  entry (map_array f A) i j = f <$> entry A i j.
Proof.
  unfold entry, map_array; simpl.
  rewrite list_lookup_fmap.
  destruct (rows A !! i) as [r|]; simpl; [|done].
  by rewrite list_lookup_fmap.
Qed.

Lemma lookup_combine {A B} (l : list A) (k : list B) i :
  combine l k !! i
  = match l !! i, k !! i with
    | Some a, Some b => Some (a, b)
    | _, _ => None
    end.
Proof.
  revert k i; induction l as [|a l IH]; intros [|b k] [|i]; simpl;
    try done; try apply IH.
  by destruct (l !! i).
Qed.

Lemma entry_zip_array (f : F -> F -> F) (A B : ndarray F) i j :
  entry (zip_array f A B) i j
  = match entry A i j, entry B i j with
    | Some a, Some b => Some (f a b)
    | _, _ => None
    end.
Proof.
  unfold entry, zip_array; simpl.
  rewrite list_lookup_fmap, lookup_combine.
  destruct (rows A !! i) as [ra|]; [|done].
  destruct (rows B !! i) as [rb|]; simpl; [|by destruct (ra !! j)].
  rewrite list_lookup_fmap, lookup_combine.
  destruct (ra !! j); [|done]. by destruct (rb !! j).
Qed.

Lemma column_reshape_row (k : backend) (g : list F) j :
  column (with_kind k (reshape_row g)) j = [nth j g s_zero].
Proof. reflexivity. Qed.

Lemma dot_singleton (a b : F) : dot [a] [b] = s_mul a b.
Proof. reflexivity. Qed.

(** The product of a column by a row is their outer product: with an
    inner dimension of one, every entry is a single product. *)
Lemma entry_outer (k k' : backend) (c g : list F) i j :
  entry (matmul (with_kind k (reshape_col c)) (with_kind k' (reshape_row g)))
        i j
  = match c !! i, g !! j with
    | Some a, Some b => Some (s_mul a b)
    | _, _ => None
    end.
Proof.
  unfold entry, matmul; simpl.
  rewrite !list_lookup_fmap.
  destruct (c !! i) as [a|]; simpl; [|done].
  rewrite list_lookup_fmap.
  destruct (g !! j) as [b|] eqn:Hg.
  - rewrite lookup_seq_lt by (eapply lookup_lt_Some; eauto); simpl.
    rewrite column_reshape_row, dot_singleton.
    by rewrite (nth_lookup_Some _ _ _ _ Hg).
  - apply lookup_ge_None in Hg.
    by rewrite lookup_seq_ge.
Qed.

Lemma entry_lt (A : ndarray F) i j x :
  well_shaped A -> entry A i j = Some x ->
  i < length (rows A) /\ j < ncols A.
Proof.
  unfold entry, well_shaped. intros Hw.
  destruct (rows A !! i) as [r|] eqn:Hr; [|done]. intros Hj.
  split; [by eapply lookup_lt_Some|].
  rewrite Forall_forall in Hw.
  rewrite <- (Hw r); [by eapply lookup_lt_Some|].
  by eapply list_elem_of_lookup_2.
Qed.

Lemma well_shapedb_correct (A : ndarray F) :
  well_shapedb A = true -> well_shaped A.
Proof.
  unfold well_shapedb, well_shaped. rewrite forallb_forall, Forall_forall.
  intros Hb r Hr. apply Nat.eqb_eq, Hb. by apply list_elem_of_In.
Qed.

Lemma axis_sum_rows (A : ndarray F) i r :
  rows A !! i = Some r ->
  axis_sum A 1 !! i = Some (row_reduce (kind A) r).
Proof. intros Hr. unfold axis_sum. by rewrite list_lookup_fmap, Hr. Qed.

Lemma axis_sum_cols (A : ndarray F) j :
  j < ncols A ->
  axis_sum A 0 !! j = Some (col_reduce (kind A) (ncols A) (column A j)).
Proof.
  intros Hj. unfold axis_sum.
  by rewrite list_lookup_fmap, lookup_seq_lt.
Qed.

(** *** the pairwise sum

    The recursion of [pairwise_sum] halves the list, so that its length
    is fuel enough: with that much, no call reaches the end of the fuel,
    and the eight lanes of [block_sum] are there. *)
Lemma pairwise_sum_unfold (fuel : nat) (l : list F) :
  pairwise_sum fuel l
  = if (length l <? 8)%nat then fold_left s_add l s_zero
    else if (length l <=? 128)%nat then block_sum l
    else
      match fuel with
      | O => s_zero
      | S fuel =>
          let n2 := (length l / 2)%nat in
          let n2 := (n2 - n2 mod 8)%nat in
          s_add (pairwise_sum fuel (take n2 l))
                (pairwise_sum fuel (drop n2 l))
      end.
Proof. by destruct fuel. Qed.

Lemma split_point (n : nat) :
  128 < n -> 0 < n / 2 - (n / 2) mod 8 < n.
Proof.
  intros Hn.
  pose proof (Nat.mod_upper_bound (n / 2) 8 ltac:(done)).
  pose proof (Nat.div_mod_eq n 2).
  pose proof (Nat.mod_upper_bound n 2 ltac:(done)).
  lia.
Qed.

Lemma pairwise_sum_fuel (fuel fuel' : nat) (l : list F) :
  length l <= fuel -> length l <= fuel' ->
  pairwise_sum fuel l = pairwise_sum fuel' l.
Proof.
  revert fuel' l. induction fuel as [|fuel IH]; intros fuel' l H1 H2;
    rewrite (pairwise_sum_unfold _ l), (pairwise_sum_unfold fuel' l).
  - assert (length l = 0) as -> by lia. done.
  - destruct (Nat.ltb_spec (length l) 8); [done|].
    destruct (Nat.leb_spec (length l) 128); [done|].
    destruct fuel' as [|fuel']; [lia|]. cbv zeta.
    pose proof (split_point (length l) ltac:(done)) as Hn.
    set (n2 := (length l / 2 - (length l / 2) mod 8)%nat) in *.
    f_equal; apply IH; rewrite ?length_take, ?length_drop.
    all: lia.
Qed.

Lemma lanes8_spec (fuel : nat) (r l : list F) :
  length r = 8 -> length l <= fuel ->
  length (lanes8 fuel r l).1 = 8 /\ length (lanes8 fuel r l).2 < 8.
Proof.
  revert r l. induction fuel as [|fuel IH]; intros r l Hr Hl; cbn [lanes8].
  - simpl. lia.
  - destruct (Nat.leb_spec 8 (length l)); [|simpl; lia].
    apply IH.
    + rewrite length_zip_with, length_take. lia.
    + rewrite length_drop. lia.
Qed.

(** With eight elements or more the lanes are eight. *)
Lemma block_sum_lanes (l : list F) :
  8 <= length l ->
  exists r0 r1 r2 r3 r4 r5 r6 r7 rest,
    lanes8 (length l) (take 8 l) (drop 8 l)
    = ([r0; r1; r2; r3; r4; r5; r6; r7], rest) /\
    length rest < 8 /\
    block_sum l
    = fold_left s_add rest
        (s_add (s_add (s_add r0 r1) (s_add r2 r3))
               (s_add (s_add r4 r5) (s_add r6 r7))).
Proof.
  intros Hl. unfold block_sum.
  destruct (lanes8_spec (length l) (take 8 l) (drop 8 l)) as [H1 H2].
  { rewrite length_take. lia. }
  { rewrite length_drop. lia. }
  destruct (lanes8 (length l) (take 8 l) (drop 8 l)) as [r rest].
  simpl in H1, H2.
  do 8 (destruct r as [|? r]; [done|]). destruct r; [|done].
  by do 9 eexists.
Qed.

(** *** sums of elements with a property that additions keep *)
Section Closed.
Variable P : F -> Prop.
Hypothesis P_zero : P s_zero.
Hypothesis P_add : forall x y, P x -> P y -> P (s_add x y).

Lemma fold_add_closed (l : list F) (x : F) :
  P x -> Forall P l -> P (fold_left s_add l x).
Proof.
  revert x. induction l as [|y l IH]; intros x Hx Hl; simpl; [done|].
  inversion_clear Hl. apply IH; [by apply P_add|done].
Qed.

Lemma fsum_closed (l : list F) : Forall P l -> P (fsum l).
Proof.
  destruct l as [|x l]; [by intros _|].
  intros Hl. inversion_clear Hl. by apply fold_add_closed.
Qed.

Lemma lanes8_closed (fuel : nat) (r l : list F) :
  Forall P r -> Forall P l ->
  Forall P (lanes8 fuel r l).1 /\ Forall P (lanes8 fuel r l).2.
Proof.
  revert r l. induction fuel as [|fuel IH]; intros r l Hr Hl; cbn [lanes8];
    [done|].
  destruct (8 <=? length l)%nat; [|done].
  apply IH; [|by apply Forall_drop].
  apply (Forall_zip_with_fst _ P P); [done|].
  apply Forall_take. eapply Forall_impl; [exact Hl|].
  intros y Hy x Hx. by apply P_add.
Qed.

Lemma block_sum_closed (l : list F) : Forall P l -> P (block_sum l).
Proof.
  intros Hl. unfold block_sum.
  destruct (lanes8_closed (length l) (take 8 l) (drop 8 l)) as [H1 H2];
    [by apply Forall_take|by apply Forall_drop|].
  destruct (lanes8 (length l) (take 8 l) (drop 8 l)) as [r rest].
  simpl in H1, H2.
  repeat (destruct r as [|? r]; [done|]).
  destruct r; [|done].
  repeat match goal with
         | H : Forall P (_ :: _) |- _ => inversion_clear H
         end.
  apply fold_add_closed; [|done].
  repeat apply P_add; done.
Qed.

Lemma pairwise_sum_closed (fuel : nat) (l : list F) :
  Forall P l -> P (pairwise_sum fuel l).
Proof.
  revert l. induction fuel as [|fuel IH]; intros l Hl;
    rewrite pairwise_sum_unfold.
  - destruct (length l <? 8)%nat; [by apply fold_add_closed|].
    destruct (length l <=? 128)%nat; [by apply block_sum_closed|done].
  - destruct (length l <? 8)%nat; [by apply fold_add_closed|].
    destruct (length l <=? 128)%nat; [by apply block_sum_closed|].
    cbv zeta.
    apply P_add; apply IH; [by apply Forall_take|by apply Forall_drop].
Qed.

Lemma np_sum_closed (l : list F) : Forall P l -> P (np_sum l).
Proof.
  intros Hl. apply P_add; [done|by apply pairwise_sum_closed].
Qed.

Lemma row_reduce_closed (k : backend) (l : list F) :
  Forall P l -> P (row_reduce k l).
Proof.
  intros Hl. destruct k; cbn [row_reduce];
    first [by apply fsum_closed|by apply np_sum_closed].
Qed.

Lemma col_reduce_closed (k : backend) (n : nat) (l : list F) :
  Forall P l -> P (col_reduce k n l).
Proof.
  intros Hl. destruct k; cbn [col_reduce]; try destruct (n =? 1)%nat;
    first [by apply fsum_closed|by apply np_sum_closed].
Qed.

End Closed.

Lemma total_reshape_row (k : backend) (g : list F) :
  total (with_kind k (reshape_row g)) = np_sum g.
Proof. unfold total; simpl. by rewrite app_nil_r. Qed.

Lemma lookup_row_sum (X : ndarray F) i r :
  rows X !! i = Some r -> row_sum X i = row_reduce (kind X) r.
Proof.
  intros Hr. unfold row_sum. by rewrite (nth_lookup_Some _ _ _ _ Hr).
Qed.

(** The entries of [mu] before any conversion. *)
Lemma entry_mu (X : ndarray F) k k' i j x :
  well_shaped X -> entry X i j = Some x ->
  entry (div_scalar
           (matmul (with_kind k (reshape_col (axis_sum X 1)))
                   (with_kind k' (reshape_row (axis_sum X 0))))
           (total (with_kind k' (reshape_row (axis_sum X 0))))) i j
  = Some (mu_entry X i j).
Proof.
  intros Hw Hx. destruct (entry_lt _ _ _ _ Hw Hx) as [_ Hj].
  unfold div_scalar. rewrite entry_map_array, entry_outer.
  unfold entry in Hx. destruct (rows X !! i) as [r|] eqn:Hr; [|done].
  rewrite (axis_sum_rows _ _ _ Hr), (axis_sum_cols _ _ Hj); simpl.
  rewrite total_reshape_row. unfold mu_entry.
  by rewrite (lookup_row_sum _ _ _ Hr).
Qed.

Lemma check_nonnegative_integers_false (X : ndarray F) :
  check_nonnegative_integers X = false <->
  exists i j x, entry X i j = Some x /\ s_is_count x = false.
Proof.
  unfold check_nonnegative_integers, entry. split.
  - intros Hc.
    induction (rows X) as [|r rs IH]; [done|]. simpl in Hc.
    apply andb_false_iff in Hc as [Hr|Hrs].
    + exists 0. simpl.
      induction r as [|x r IHr]; [done|]. simpl in Hr.
      apply andb_false_iff in Hr as [Hx|Hr].
      * by exists 0, x.
      * destruct (IHr Hr) as (j & y & Hj & Hy). by exists (S j), y.
    + destruct (IH Hrs) as (i & j & x & Hx & Hc). by exists (S i), j, x.
  - intros (i & j & x & Hx & Hc).
    destruct (rows X !! i) as [r|] eqn:Hr; [|done].
    apply not_true_is_false. rewrite forallb_forall. intros Hall.
    specialize (Hall r). rewrite forallb_forall in Hall.
    assert (s_is_count x = true); [|congruence].
    apply Hall; apply list_elem_of_In; by eapply list_elem_of_lookup_2.
Qed.

End ArrayFacts.

(** ** Running [_pearson_residuals] *)

Section PearsonRun.
Context {F : Type} `{Scalar F}.

Ltac run_monad :=
  cbv beta iota zeta delta
    [mbind M_bind bind mret M_ret ret raise array_copy warn logg_info
     call_check_nonnegative_integers call_axis_sum call_clip_array emit
     fst snd heap trace log].

(** One call: its outcome, and the events it appends. *)
Lemma pearson_run X theta clip cv copy (w : world F) :
  _pearson_residuals X theta clip cv copy w
  = (pearson_outcome X theta clip,
     log w (pearson_events X theta clip cv copy)).
Proof.
  unfold pearson_outcome, pearson_events, theta_rejected, clip_rejected,
    _pearson_residuals.
  change (Py.truthy 0) with false.
  destruct w as [h tr].
  destruct (Py.truthy copy); run_monad.
  all: change (match clip with
               | Some c => c
               | None => s_sqrt (s_of_nat (shape0 X))
               end) with (clip_bound X clip).
  all: destruct (s_leb theta s_zero),
    (s_ltb (clip_bound X clip) s_zero),
    (negb (isinstance_DaskArray X)), cv,
    (check_nonnegative_integers X);
    run_monad; cbn [negb app];
    rewrite <- ?app_assoc, ?app_nil_r; reflexivity.
Qed.

Lemma pearson_outcome_unfold X theta clip :
  pearson_outcome X theta clip
  = if theta_rejected theta then Raise (ValueError theta_msg)
    else if clip_rejected X clip then Raise (ValueError clip_msg)
    else
      let sums_genes :=
        with_kind (sums_kind X) (reshape_row (axis_sum X 0)) in
      let sums_cells :=
        with_kind (sums_kind X) (reshape_col (axis_sum X 1)) in
      let mu0 :=
        div_scalar (matmul sums_cells sums_genes) (total sums_genes) in
      let mu := if isinstance_DaskArray X then mu0 else np_array mu0 in
      let diff := if isinstance_DaskArray X
                  then map_blocks_np_array (sub_array X mu)
                  else np_array (sub_array X mu) in
      Ok (clip_array
            (div_array diff
               (sqrt_array (add_array mu (div_scalar (square mu) theta))))
            (s_neg (clip_bound X clip)) (clip_bound X clip)).
Proof.
  unfold pearson_outcome, theta_rejected, clip_rejected,
    _pearson_residuals.
  change (Py.truthy 0) with false.
  run_monad.
  change (match clip with
          | Some c => c
          | None => s_sqrt (s_of_nat (shape0 X))
          end) with (clip_bound X clip).
  destruct (s_leb theta s_zero), (s_ltb (clip_bound X clip) s_zero),
    (isinstance_DaskArray X); reflexivity.
Qed.

Lemma pearson_outcome_theta X theta clip :
  theta_rejected theta = true ->
  pearson_outcome X theta clip = Raise (ValueError theta_msg).
Proof. intros Ht. by rewrite pearson_outcome_unfold, Ht. Qed.

Lemma pearson_outcome_clip X theta clip :
  theta_rejected theta = false -> clip_rejected X clip = true ->
  pearson_outcome X theta clip = Raise (ValueError clip_msg).
Proof. intros Ht Hc. by rewrite pearson_outcome_unfold, Ht, Hc. Qed.

(** With both checks passed the call returns an array of the shape of
    [X] whose entries are the clipped residuals. *)
Lemma pearson_outcome_ok X theta clip :
  theta_rejected theta = false -> clip_rejected X clip = false ->
  exists R,
    pearson_outcome X theta clip = Ok R /\
    ncols R = ncols X /\
    length (rows R) = length (rows X) /\
    (well_shaped X ->
     forall i j,
       entry R i j = clipped_residual X theta clip i j <$> entry X i j).
Proof.
  intros Ht Hc. rewrite pearson_outcome_unfold, Ht, Hc. cbv zeta.
  eexists; split; [reflexivity|]. split.
  { by destruct (isinstance_DaskArray X). }
  split.
  { destruct (isinstance_DaskArray X); simpl;
      repeat (rewrite ?length_map, ?length_combine); unfold axis_sum; lia. }
  intros Hw i j.
  unfold clip_array, div_array, sqrt_array, add_array, div_scalar, square,
    sub_array.
  rewrite entry_map_array, entry_zip_array.
  assert (Hdiff : forall mu,
    entry (if isinstance_DaskArray X
           then map_blocks_np_array (zip_array s_sub X mu)
           else np_array (zip_array s_sub X mu)) i j
    = entry (zip_array s_sub X mu) i j).
  { intros mu. by destruct (isinstance_DaskArray X). }
  rewrite Hdiff, entry_zip_array, entry_map_array, entry_zip_array,
    entry_map_array, entry_map_array.
  destruct (entry X i j) as [x|] eqn:Hx; [|done].
  pose proof (entry_mu X (sums_kind X) (sums_kind X) i j x Hw Hx) as E.
  unfold div_scalar in E.
  destruct (isinstance_DaskArray X);
    (change (entry (np_array ?A) i j) with (entry A i j) || idtac);
    rewrite E; reflexivity.
Qed.

Lemma pearson_outcome_cases X theta clip :
  match pearson_outcome X theta clip with
  | Ok _ => theta_rejected theta = false /\ clip_rejected X clip = false
  | Raise e =>
      (theta_rejected theta = true /\ e = ValueError theta_msg) \/
      (theta_rejected theta = false /\ clip_rejected X clip = true /\
       e = ValueError clip_msg)
  end.
Proof.
  rewrite pearson_outcome_unfold.
  destruct (theta_rejected theta), (clip_rejected X clip); cbv zeta iota;
    auto 6.
Qed.

End PearsonRun.


(** ** Running [normalize_pearson_residuals] *)

Section NormalizeRun.
Context {F : Type} `{Scalar F}.

Lemma view_to_actual_run l a (w : world F) :
  heap w !! l = Some a ->
  view_to_actual l w
  = (Ok tt, World (<[l := actual a]> (heap w)) (trace w ++ [EvViewToActual l])).
Proof.
  intros Hl. unfold view_to_actual, mbind, M_bind, bind, load, store, emit.
  by rewrite Hl.
Qed.

Lemma get_obs_rep_run l a layer (w : world F) :
  heap w !! l = Some a ->
  _get_obs_rep l layer w
  = (get_rep a layer, World (heap w) (trace w ++ [EvGetObsRep l layer])).
Proof.
  intros Hl.
  unfold _get_obs_rep, get_rep, mbind, M_bind, bind, load, emit, mret,
    M_ret, ret, raise.
  rewrite Hl. destruct layer as [k|]; [|done].
  by destruct (adata_layers a !! k).
Qed.

Lemma set_obs_rep_run l a R layer (w : world F) :
  heap w !! l = Some a ->
  _set_obs_rep l R layer w
  = (Ok tt, World (<[l := set_rep a layer R]> (heap w))
                  (trace w ++ [EvSetObsRep l layer])).
Proof.
  intros Hl.
  unfold _set_obs_rep, set_rep, mbind, M_bind, bind, load, emit, store.
  rewrite Hl. by destruct layer.
Qed.

Lemma uns_setitem_run l a key d (w : world F) :
  heap w !! l = Some a ->
  uns_setitem l key d w
  = (Ok tt, World (<[l := set_uns a key d]> (heap w)) (trace w)).
Proof.
  intros Hl. unfold uns_setitem, mbind, M_bind, bind, load, store.
  by rewrite Hl.
Qed.

Lemma adata_copy_run l a (w : world F) :
  heap w !! l = Some a ->
  adata_copy l w
  = (Ok (fresh (dom (heap w))),
     World (<[fresh (dom (heap w)) := actual a]> (heap w))
           (trace w ++ [EvAnnDataCopy l (fresh (dom (heap w)))])).
Proof.
  intros Hl.
  unfold adata_copy, mbind, M_bind, bind, load, alloc, emit, mret, M_ret,
    ret.
  by rewrite Hl.
Qed.

(** The body of [normalize_pearson_residuals] after the [copy] block,
    run on the object [l1] it works on. *)
Lemma normalize_body l1 a theta clip cv layer inplace (copy : bool)
  (w : world F) :
  heap w !! l1 = Some a ->
  (view_to_actual l1;;
   X ← _get_obs_rep l1 layer;
   let computed_on :=
     if Py.truthy_str layer then default "" layer else "adata.X" in
   let msg :=
     String.append "computing analytic Pearson residuals on " computed_on in
   logg_info msg;;
   residuals ← _pearson_residuals X theta clip cv
                 (Py.invert (Py.of_bool inplace));
   let settings := settings_dict theta clip computed_on in
   results ← (if inplace then
                _set_obs_rep l1 residuals layer;;
                uns_setitem l1 uns_key settings;;
                mret None
              else
                mret (Some (("X", PyArray residuals) :: settings)));
   logg_info "    finished ({time_passed})";;
   if copy then mret (RetAnnData l1)
   else if negb inplace then
     match results with
     | Some d => mret (RetDict d)
     | None => mret RetNone
     end
   else mret RetNone) w
  = let pre := [EvViewToActual l1; EvGetObsRep l1 layer] in
    let pe X :=
      pearson_events X theta clip cv (Py.invert (Py.of_bool inplace)) in
    match get_rep a layer with
    | Raise e =>
        (Raise e, World (<[l1 := actual a]> (heap w)) (trace w ++ pre))
    | Ok X =>
        match pearson_outcome X theta clip with
        | Raise e =>
            (Raise e,
             World (<[l1 := actual a]> (heap w))
                   (trace w ++ pre ++ [EvLogInfo (start_msg layer)] ++ pe X))
        | Ok R =>
            if inplace then
              (Ok (if copy then RetAnnData l1 else RetNone),
               World (<[l1 := normalized a theta clip layer R]> (heap w))
                     (trace w ++ pre ++ [EvLogInfo (start_msg layer)] ++
                      pe X ++
                      [EvSetObsRep l1 layer; EvLogInfo finish_msg]))
            else
              (Ok (if copy then RetAnnData l1
                   else RetDict (("X", PyArray R) ::
                            settings_dict theta clip (computed_on_of layer))),
               World (<[l1 := actual a]> (heap w))
                     (trace w ++ pre ++ [EvLogInfo (start_msg layer)] ++
                      pe X ++ [EvLogInfo finish_msg]))
        end
    end.
Proof.
  intros Hl. cbv zeta.
  unfold mbind at 1, M_bind at 1, bind at 1.
  rewrite (view_to_actual_run _ _ _ Hl).
  unfold mbind at 1, M_bind at 1, bind at 1.
  rewrite (get_obs_rep_run l1 (actual a)) by apply lookup_insert_eq.
  change (get_rep (actual a) layer) with (get_rep a layer).
  destruct (get_rep a layer) as [X|e]; cbn [heap trace].
  2: { by rewrite <- app_assoc. }
  unfold mbind at 1, M_bind at 1, bind at 1.
  unfold logg_info at 1, emit at 1. cbn [heap trace].
  unfold mbind at 1, M_bind at 1, bind at 1.
  rewrite pearson_run. unfold log; cbn [heap trace].
  fold (computed_on_of layer). fold (start_msg layer).
  destruct (pearson_outcome X theta clip) as [R|e].
  2: { by rewrite <- !app_assoc. }
  destruct inplace.
  - unfold mbind, M_bind, bind.
    rewrite (set_obs_rep_run l1 (actual a)) by apply lookup_insert_eq.
    cbn [heap trace].
    rewrite (uns_setitem_run l1 (set_rep (actual a) layer R))
      by apply lookup_insert_eq.
    cbn [heap trace]. rewrite !insert_insert_eq.
    unfold mret, M_ret, ret, logg_info, emit; cbn [heap trace].
    destruct copy; cbn [negb]; unfold normalized, finish_msg;
      rewrite <- !app_assoc; reflexivity.
  - unfold mbind, M_bind, bind, mret, M_ret, ret, logg_info, emit;
      cbn [heap trace negb].
    destruct copy; unfold finish_msg; rewrite <- !app_assoc; reflexivity.
Qed.

Lemma normalize_run_reject l theta clip cv layer (w : world F) :
  normalize_pearson_residuals l theta clip cv layer false true w
  = (Raise (ValueError copy_msg), w).
Proof. reflexivity. Qed.

Lemma normalize_run l a theta clip cv layer inplace copy (w : world F) :
  heap w !! l = Some a ->
  (copy = true -> inplace = true) ->
  let l1 := target w l copy in
  let pre := prologue l l1 layer copy in
  let pe X := pearson_events X theta clip cv (Py.invert (Py.of_bool inplace)) in
  normalize_pearson_residuals l theta clip cv layer inplace copy w
  = match get_rep a layer with
    | Raise e =>
        (Raise e, World (<[l1 := actual a]> (heap w)) (trace w ++ pre))
    | Ok X =>
        match pearson_outcome X theta clip with
        | Raise e =>
            (Raise e,
             World (<[l1 := actual a]> (heap w))
                   (trace w ++ pre ++ [EvLogInfo (start_msg layer)] ++ pe X))
        | Ok R =>
            if inplace then
              (Ok (if copy then RetAnnData l1 else RetNone),
               World (<[l1 := normalized a theta clip layer R]> (heap w))
                     (trace w ++ pre ++ [EvLogInfo (start_msg layer)] ++
                      pe X ++
                      [EvSetObsRep l1 layer; EvLogInfo finish_msg]))
            else
              (Ok (RetDict (("X", PyArray R) ::
                            settings_dict theta clip (computed_on_of layer))),
               World (<[l1 := actual a]> (heap w))
                     (trace w ++ pre ++ [EvLogInfo (start_msg layer)] ++
                      pe X ++ [EvLogInfo finish_msg]))
        end
    end.
Proof.
  intros Hl Hflags. cbv zeta.
  unfold normalize_pearson_residuals, target, prologue.
  unfold mbind at 1, M_bind at 1, bind at 1.
  destruct copy.
  - rewrite (Hflags eq_refl).
    change (if negb true then raise (ValueError copy_msg)
            else adata_copy l) with (adata_copy (F:=F) l).
    rewrite (adata_copy_run _ _ _ Hl).
    etrans;
      [exact (normalize_body _ (actual a) theta clip cv layer true true _
                (lookup_insert_eq _ _ _))|].
    cbv zeta. cbn [heap trace].
    change (get_rep (actual a) layer) with (get_rep a layer).
    change (normalized (actual a)) with (normalized a).
    change (actual (actual a)) with (actual a).
    destruct (get_rep a layer) as [X|e];
      [destruct (pearson_outcome X theta clip) as [R|e]|];
      rewrite !insert_insert_eq, <- !app_assoc; reflexivity.
  - etrans;
      [exact (normalize_body l a theta clip cv layer inplace false w Hl)|].
    cbv zeta. cbn [app].
    destruct (get_rep a layer) as [X|e]; [|done].
    destruct (pearson_outcome X theta clip) as [R|e]; [|done].
    by destruct inplace.
Qed.
End NormalizeRun.

(** ** Facts about binary64 *)

Module F64Facts.
Import F64.

Lemma binary_round_aux_signed s m e l :
  signed s (binary_round_aux prec emax s m e l).
Proof.
  unfold binary_round_aux.
  destruct (shr_fexp prec emax m e l) as [mrs' e'].
  destruct (shr_fexp prec emax _ e' loc_Exact) as [mrs'' e''].
  destruct (shr_m mrs''); simpl; [done| |done].
  by destruct (e'' <=? emax - prec)%Z.
Qed.

Lemma binary_round_signed s m e :
  signed s (binary_round prec emax s m e).
Proof.
  unfold binary_round.
  destruct (shl_align m e _) as [mz ez].
  apply binary_round_aux_signed.
Qed.

Lemma signed_not_negative x : signed false x -> not_negative x.
Proof. destruct x as [s|s| |s m e]; simpl; intros; subst; done. Qed.

Lemma Prim2SF_zero : Prim2SF PrimFloat.zero = S754_zero false.
Proof. reflexivity. Qed.

Lemma ltb_zero_false x :
  not_negative (Prim2SF x) -> PrimFloat.ltb x PrimFloat.zero = false.
Proof.
  rewrite ltb_spec, Prim2SF_zero.
  by destruct (Prim2SF x) as [[]|[]| |[] m e].
Qed.

Lemma ltb_zero_leb x :
  PrimFloat.ltb PrimFloat.zero x = true ->
  PrimFloat.leb x PrimFloat.zero = false.
Proof.
  rewrite ltb_spec, leb_spec, Prim2SF_zero.
  by destruct (Prim2SF x) as [[]|[]| |[] m e].
Qed.

Lemma leb_zero_ltb x :
  PrimFloat.leb PrimFloat.zero x = true ->
  PrimFloat.ltb x PrimFloat.zero = false.
Proof.
  rewrite ltb_spec, leb_spec, Prim2SF_zero.
  by destruct (Prim2SF x) as [[]|[]| |[] m e].
Qed.

Lemma sqrt_not_negative x :
  not_negative (SF64sqrt x).
Proof.
  destruct x as [s|[]| |[] m e]; simpl; try done.
  unfold SF64sqrt, SFsqrt.
  destruct (SFsqrt_core_binary prec emax (Z.pos m) e) as [[mz ez] lz].
  apply signed_not_negative, binary_round_aux_signed.
Qed.

Lemma sqrt_of_nat_not_negative n :
  PrimFloat.ltb (PrimFloat.sqrt (F64.of_nat n)) PrimFloat.zero = false.
Proof.
  apply ltb_zero_false. rewrite sqrt_spec. apply sqrt_not_negative.
Qed.


Lemma Prim2SF_infinity : Prim2SF PrimFloat.infinity = S754_infinity false.
Proof. reflexivity. Qed.

(** The square of a number is signed positive (or is NaN). *)
Lemma square_signed x : signed false (Prim2SF (PrimFloat.mul x x)).
Proof.
  rewrite mul_spec. destruct (Prim2SF x) as [s|s| |s m e]; simpl;
    try done; try (by destruct s).
  replace (xorb s s) with false by (by destruct s).
  apply binary_round_aux_signed.
Qed.

(** A finite square divided by [+inf] is [+0]. *)
Lemma square_div_infinity x :
  PrimFloat.ltb (PrimFloat.mul x x) PrimFloat.infinity = true ->
  PrimFloat.div (PrimFloat.mul x x) PrimFloat.infinity = PrimFloat.zero.
Proof.
  intros Hlt. apply Prim2SF_inj.
  rewrite div_spec, Prim2SF_infinity, Prim2SF_zero.
  pose proof (square_signed x) as Hs.
  rewrite ltb_spec, Prim2SF_infinity in Hlt.
  destruct (Prim2SF (PrimFloat.mul x x)) as [s|s| |s m e];
    simpl in *; subst; try done.
Qed.

End F64Facts.

(** ** Signs of sums, products and quotients in binary64 *)

Module F64Signs.
Import F64 F64Facts.

Lemma binary_normalize_signed m e :
  (0 <= m)%Z -> signed false (binary_normalize prec emax m e false).
Proof.
  destruct m as [|m|m]; simpl; [done| |lia]. intros _.
  apply binary_round_signed.
Qed.

Lemma plus_zero : plus PrimFloat.zero.
Proof. reflexivity. Qed.

Lemma plus_add x y : plus x -> plus y -> plus (PrimFloat.add x y).
Proof.
  unfold plus. rewrite add_spec.
  intros Hx Hy.
  destruct (Prim2SF x) as [sx|sx| |sx mx ex],
    (Prim2SF y) as [sy|sy| |sy my ey]; simpl in *; subst; try done.
  apply binary_normalize_signed. unfold cond_Zopp. lia.
Qed.

Lemma plus_mul x y : plus x -> plus y -> plus (PrimFloat.mul x y).
Proof.
  unfold plus. rewrite mul_spec.
  intros Hx Hy.
  destruct (Prim2SF x) as [sx|sx| |sx mx ex],
    (Prim2SF y) as [sy|sy| |sy my ey]; simpl in *; subst; try done.
  apply binary_round_aux_signed.
Qed.

Lemma plus_div x y : plus x -> plus y -> plus (PrimFloat.div x y).
Proof.
  unfold plus. rewrite div_spec.
  intros Hx Hy.
  destruct (Prim2SF x) as [sx|sx| |sx mx ex],
    (Prim2SF y) as [sy|sy| |sy my ey]; simpl in *; subst; try done.
  unfold SF64div, SFdiv.
  destruct (SFdiv_core_binary prec emax (Z.pos mx) ex (Z.pos my) ey)
    as [[mz ez] lz].
  apply binary_round_aux_signed.
Qed.

Lemma plus_fsum (l : list float) : Forall plus l -> plus (fsum l).
Proof. apply fsum_closed; [apply plus_zero|apply plus_add]. Qed.

Lemma plus_np_sum (l : list float) : Forall plus l -> plus (np_sum l).
Proof. apply np_sum_closed; [apply plus_zero|apply plus_add]. Qed.

Lemma plus_row_reduce (k : backend) (l : list float) :
  Forall plus l -> plus (row_reduce k l).
Proof. apply row_reduce_closed; [apply plus_zero|apply plus_add]. Qed.

Lemma plus_col_reduce (k : backend) (n : nat) (l : list float) :
  Forall plus l -> plus (col_reduce k n l).
Proof. apply col_reduce_closed; [apply plus_zero|apply plus_add]. Qed.

Lemma is_count_plus x : is_count x = true -> plus x.
Proof.
  unfold is_count, plus.
  by destruct (Prim2SF x) as [[]|[]| |[] m e].
Qed.

Lemma plus_not_negative_zero x : plus x -> is_negative_zero x = false.
Proof.
  unfold plus, is_negative_zero.
  by destruct (Prim2SF x) as [[]|[]| |[] m e].
Qed.

(** Every entry of a matrix of counts has its sign bit clear, and so
    have its sums and its expected values. *)
Lemma counts_plus (X : ndarray float) :
  check_nonnegative_integers X = true ->
  Forall (Forall plus) (rows X).
Proof.
  unfold check_nonnegative_integers. rewrite forallb_forall, Forall_forall.
  intros Hall r Hr. rewrite Forall_forall. intros x Hx.
  apply is_count_plus.
  specialize (Hall r (proj1 (list_elem_of_In _ _) Hr)).
  rewrite forallb_forall in Hall. apply Hall. by apply list_elem_of_In.
Qed.

Lemma plus_row_sum (X : ndarray float) i :
  Forall (Forall plus) (rows X) -> plus (row_sum X i).
Proof.
  intros Hall. unfold row_sum. apply plus_row_reduce.
  destruct (nth_in_or_default i (rows X) []) as [Hin| ->]; [|done].
  rewrite Forall_forall in Hall. apply Hall. by apply list_elem_of_In.
Qed.

Lemma plus_col_sum (X : ndarray float) j :
  Forall (Forall plus) (rows X) -> plus (col_sum X j).
Proof.
  intros Hall. unfold col_sum, column. apply plus_col_reduce.
  rewrite Forall_forall. intros x Hx.
  apply list_elem_of_In, in_map_iff in Hx as (r & <- & Hr).
  rewrite Forall_forall in Hall.
  specialize (Hall r (proj2 (list_elem_of_In _ _) Hr)).
  destruct (nth_in_or_default j r s_zero) as [Hin| ->];
    [|apply plus_zero].
  rewrite Forall_forall in Hall. apply Hall. by apply list_elem_of_In.
Qed.

Lemma plus_grand_sum (X : ndarray float) :
  Forall (Forall plus) (rows X) -> plus (grand_sum X).
Proof.
  intros Hall. unfold grand_sum. apply plus_np_sum.
  rewrite Forall_forall. intros x Hx.
  apply list_elem_of_In, in_map_iff in Hx as (j & <- & _).
  by apply plus_col_sum.
Qed.

Lemma plus_mu_entry (X : ndarray float) i j :
  Forall (Forall plus) (rows X) -> plus (mu_entry X i j).
Proof.
  intros Hall. unfold mu_entry.
  apply plus_div; [apply plus_mul|];
    auto using plus_row_sum, plus_col_sum, plus_grand_sum.
Qed.

End F64Signs.

(** ** Rounding in binary64

    What the rounding of the decoded operations does to the size of a
    result, as far as the term [mu**2 / theta] needs it: a rounded result
    lies in the binade of the exact one or the next, and a summand below
    half a unit in the last place of the other is absorbed. *)

Module F64Round.
Import F64 F64Facts.
Local Open Scope Z_scope.

Lemma digits2_pos_log2 (p : positive) :
  Zpos (digits2_pos p) = Z.log2 (Zpos p) + 1.
Proof.
  assert (E : forall q, digits2_pos q = Pos.size q)
    by (induction q; simpl; congruence).
  rewrite E. destruct p; simpl; lia.
Qed.

Lemma Zdigits2_log2 (m : Z) : 0 < m -> Zdigits2 m = Z.log2 m + 1.
Proof. destruct m; try lia. intros _. apply digits2_pos_log2. Qed.

Lemma Zdigits2_bounds (m : Z) :
  0 < m -> 2 ^ (Zdigits2 m - 1) <= m < 2 ^ Zdigits2 m.
Proof.
  intros Hm. rewrite Zdigits2_log2 by done.
  replace (Z.log2 m + 1 - 1) with (Z.log2 m) by lia.
  apply (Z.log2_spec m Hm).
Qed.

Lemma Zdigits2_unique (m d : Z) :
  2 ^ (d - 1) <= m < 2 ^ d -> 0 < m -> Zdigits2 m = d.
Proof.
  intros H Hm. rewrite Zdigits2_log2 by done.
  assert (0 < d).
  { destruct (Z.leb_spec d 0); [|done].
    assert (2 ^ d <= 2 ^ 0) by (apply Z.pow_le_mono_r; lia). simpl in *. lia. }
  enough (Z.log2 m = d - 1) by lia.
  apply Z.log2_unique; [lia|].
  replace (Z.succ (d - 1)) with d by lia. done.
Qed.

Lemma Zdigits2_nonneg (m : Z) : 0 <= Zdigits2 m.
Proof. destruct m; simpl; lia. Qed.

Lemma Zdigits2_pos (m : Z) : 0 < m -> 0 < Zdigits2 m.
Proof. destruct m; simpl; lia. Qed.

Lemma Zdigits2_mono (a b : Z) : 0 <= a <= b -> Zdigits2 a <= Zdigits2 b.
Proof.
  intros [Ha Hab]. destruct (Z.eq_dec a 0) as [->|].
  - apply Zdigits2_nonneg.
  - rewrite !Zdigits2_log2 by lia.
    pose proof (Z.log2_le_mono a b Hab). lia.
Qed.

Lemma Zdigits2_lt_pow2 (a d : Z) : 0 <= a -> 0 <= d -> a < 2 ^ d -> Zdigits2 a <= d.
Proof.
  intros Ha Hd H. destruct (Z.eq_dec a 0) as [->|]; [done|].
  rewrite Zdigits2_log2 by lia.
  enough (Z.log2 a < d) by lia. apply Z.log2_lt_pow2; lia.
Qed.

Lemma Zdigits2_ge_pow2 (a d : Z) : 0 <= d -> 2 ^ d <= a -> d + 1 <= Zdigits2 a.
Proof.
  intros Hd H. assert (0 < 2 ^ d) by (apply Z.pow_pos_nonneg; lia).
  rewrite Zdigits2_log2 by lia.
  enough (d <= Z.log2 a) by lia. apply Z.log2_le_pow2; lia.
Qed.

Lemma Zdigits2_succ (a : Z) : 0 <= a -> Zdigits2 (a + 1) <= Zdigits2 a + 1.
Proof.
  intros Ha. destruct (Z.eq_dec a 0) as [->|]; [done|].
  pose proof (Zdigits2_bounds a ltac:(lia)) as [_ Hb].
  pose proof (Zdigits2_pos a ltac:(lia)).
  apply Zdigits2_lt_pow2; [lia|lia|].
  rewrite Z.pow_add_r by lia. simpl. lia.
Qed.

Lemma Zdigits2_shift (a k : Z) :
  0 < a -> 0 <= k < Zdigits2 a -> Zdigits2 (a / 2 ^ k) = Zdigits2 a - k.
Proof.
  intros Ha Hk. pose proof (Zdigits2_bounds a Ha) as [Hl Hu].
  assert (Hp : 0 < 2 ^ k) by (apply Z.pow_pos_nonneg; lia).
  assert (E1 : 2 ^ (Zdigits2 a - 1) = 2 ^ (Zdigits2 a - k - 1) * 2 ^ k).
  { rewrite <- Z.pow_add_r by lia. f_equal. lia. }
  assert (E2 : 2 ^ Zdigits2 a = 2 ^ (Zdigits2 a - k) * 2 ^ k).
  { rewrite <- Z.pow_add_r by lia. f_equal. lia. }
  assert (Hq1 : 2 ^ (Zdigits2 a - k - 1) <= a / 2 ^ k).
  { apply Z.div_le_lower_bound; lia. }
  assert (Hq2 : a / 2 ^ k < 2 ^ (Zdigits2 a - k)).
  { apply Z.div_lt_upper_bound; lia. }
  assert (0 < 2 ^ (Zdigits2 a - k - 1)) by (apply Z.pow_pos_nonneg; lia).
  apply Zdigits2_unique; lia.
Qed.

Lemma Zdigits2_shift_out (a k : Z) :
  0 <= a -> Zdigits2 a <= k -> a / 2 ^ k = 0.
Proof.
  intros Ha Hk. destruct (Z.eq_dec a 0) as [->|]; [apply Z.div_0_l|].
  { pose proof (Zdigits2_nonneg 0). assert (0 < 2 ^ k) by (apply Z.pow_pos_nonneg; simpl in *; lia). lia. }
  pose proof (Zdigits2_bounds a ltac:(lia)) as [_ Hu].
  pose proof (Zdigits2_pos a ltac:(lia)).
  apply Z.div_small. split; [lia|].
  assert (2 ^ Zdigits2 a <= 2 ^ k) by (apply Z.pow_le_mono_r; lia). lia.
Qed.

(** One step of the shift. *)
Lemma shr_1_spec (r : shr_record) :
  0 <= shr_m r ->
  shr_m (shr_1 r) = shr_m r / 2 /\ shr_r (shr_1 r) = Z.testbit (shr_m r) 0.
Proof.
  destruct r as [m r s]; simpl. intros Hm.
  destruct m as [|p|p]; [done| |lia].
  destruct p as [p|p|]; simpl shr_m; simpl shr_r.
  - split; [|done]. rewrite Pos2Z.inj_xI.
    apply (Z.div_unique _ _ _ 1); lia.
  - split; [|done]. rewrite Pos2Z.inj_xO.
    apply (Z.div_unique _ _ _ 0); lia.
  - done.
Qed.

Lemma iter_shr_1_spec (p : positive) (r : shr_record) :
  0 <= shr_m r ->
  shr_m (SpecFloat.iter_pos shr_1 p r) = shr_m r / 2 ^ Zpos p /\
  shr_r (SpecFloat.iter_pos shr_1 p r) = Z.testbit (shr_m r) (Zpos p - 1).
Proof.
  revert r. induction p as [p IH|p IH|]; intros r Hm.
  - cbn [SpecFloat.iter_pos].
    destruct (shr_1_spec r Hm) as [E1 B1].
    assert (H1 : 0 <= shr_m (shr_1 r)) by (rewrite E1; apply Z.div_pos; lia).
    destruct (IH _ H1) as [E2 B2].
    assert (Hp : 0 < 2 ^ Zpos p) by (apply Z.pow_pos_nonneg; lia).
    assert (H2 : 0 <= shr_m (SpecFloat.iter_pos shr_1 p (shr_1 r))) by (rewrite E2; apply Z.div_pos; lia).
    destruct (IH _ H2) as [E3 B3].
    rewrite E3, B3, E2, E1. split.
    + rewrite !Z.div_div by lia. f_equal.
      replace (Zpos p~1) with (1 + (Zpos p + Zpos p)) by lia.
      rewrite !Z.pow_add_r by lia. lia.
    + rewrite Z.div_pow2_bits by lia.
      change 2 with (2 ^ 1) at 1. rewrite Z.div_pow2_bits by lia.
      f_equal. lia.
  - cbn [SpecFloat.iter_pos].
    destruct (IH _ Hm) as [E2 B2].
    assert (Hp : 0 < 2 ^ Zpos p) by (apply Z.pow_pos_nonneg; lia).
    assert (H2 : 0 <= shr_m (SpecFloat.iter_pos shr_1 p r)) by (rewrite E2; apply Z.div_pos; lia).
    destruct (IH _ H2) as [E3 B3].
    rewrite E3, B3, E2. split.
    + rewrite !Z.div_div by lia. f_equal.
      replace (Zpos p~0) with (Zpos p + Zpos p) by lia.
      rewrite Z.pow_add_r by lia. lia.
    + rewrite Z.div_pow2_bits by lia. f_equal. lia.
  - cbn [SpecFloat.iter_pos]. destruct (shr_1_spec r Hm) as [E1 B1].
    rewrite E1, B1. done.
Qed.


Lemma fexp_eq (x : Z) : fexp prec emax x = Z.max (x - 53) (-1074).
Proof. reflexivity. Qed.

Lemma shr_m_of_loc (m : Z) (l : location) : shr_m (shr_record_of_loc m l) = m.
Proof. by destruct l as [|[]]. Qed.

Lemma loc_of_record_of_loc (m : Z) (l : location) :
  loc_of_shr_record (shr_record_of_loc m l) = l.
Proof. by destruct l as [|[]]. Qed.

(** The first step of a rounding: the mantissa loses [k] bits, [k] being
    what the exponent is below the one of the format. *)
Lemma shr_fexp_spec (m e : Z) (l : location) :
  0 <= m ->
  let k := Z.max 0 (fexp prec emax (Zdigits2 m + e) - e) in
  exists r,
    shr_fexp prec emax m e l = (r, e + k) /\
    shr_m r = m / 2 ^ k /\
    (0 < k -> shr_r r = Z.testbit m (k - 1)) /\
    (k = 0 -> r = shr_record_of_loc m l).
Proof.
  intros Hm k. unfold shr_fexp, shr. subst k.
  destruct (fexp prec emax (Zdigits2 m + e) - e) as [|p|p] eqn:E.
  - exists (shr_record_of_loc m l). rewrite shr_m_of_loc.
    change (Z.max 0 0) with 0. rewrite Z.add_0_r, Z.div_1_r.
    split_and!; try done; lia.
  - exists (SpecFloat.iter_pos shr_1 p (shr_record_of_loc m l)).
    replace (Z.max 0 (Z.pos p)) with (Z.pos p) by lia.
    destruct (iter_shr_1_spec p (shr_record_of_loc m l)) as [E1 E2].
    { by rewrite shr_m_of_loc. }
    rewrite shr_m_of_loc in E1, E2. split_and!; try done; lia.
  - exists (shr_record_of_loc m l). rewrite shr_m_of_loc.
    replace (Z.max 0 (Z.neg p)) with 0 by lia. rewrite Z.add_0_r, Z.div_1_r.
    split_and!; try done; lia.
Qed.

Lemma round_nearest_even_bounds (m : Z) (l : location) :
  m <= round_nearest_even m l <= m + 1.
Proof. destruct l as [|[]]; simpl; try lia. destruct (Z.even m); lia. Qed.

Lemma round_nearest_even_down (r : shr_record) :
  shr_r r = false ->
  round_nearest_even (shr_m r) (loc_of_shr_record r) = shr_m r.
Proof. destruct r as [m [] []]; simpl; done. Qed.

Lemma testbit_above (m k : Z) :
  0 <= m -> Zdigits2 m < k -> Z.testbit m (k - 1) = false.
Proof.
  intros Hm Hk. pose proof (Zdigits2_nonneg m).
  destruct (Z.eq_dec m 0) as [->|]; [apply Z.bits_0|].
  apply Z.bits_above_log2; [done|].
  rewrite Zdigits2_log2 in Hk by lia. lia.
Qed.

(** A rounding, step by step: [m1] is the mantissa after the first shift
    and the rounding to nearest, the second shift renormalizes it. *)
Lemma binary_round_aux_spec (s : bool) (m e : Z) (l : location) :
  0 <= m ->
  let k1 := Z.max 0 (fexp prec emax (Zdigits2 m + e) - e) in
  exists m1,
    m / 2 ^ k1 <= m1 <= m / 2 ^ k1 + 1 /\
    (0 < k1 -> Z.testbit m (k1 - 1) = false -> m1 = m / 2 ^ k1) /\
    (k1 = 0 -> m1 = round_nearest_even m l) /\
    let k2 := Z.max 0 (fexp prec emax (Zdigits2 m1 + (e + k1)) - (e + k1)) in
    binary_round_aux prec emax s m e l =
      match m1 / 2 ^ k2 with
      | Z0 => S754_zero s
      | Zpos p =>
          if e + k1 + k2 <=? emax - prec then S754_finite s p (e + k1 + k2)
          else S754_infinity s
      | Zneg _ => S754_nan
      end.
Proof.
  intros Hm k1. unfold binary_round_aux.
  destruct (shr_fexp_spec m e l Hm) as (r & -> & Em & Er & E0). fold k1 in Em, Er, E0 |- *.
  set (m1 := round_nearest_even (shr_m r) (loc_of_shr_record r)).
  assert (Hk1 : 0 < 2 ^ k1) by (apply Z.pow_pos_nonneg; lia).
  assert (Hm' : 0 <= m / 2 ^ k1) by (apply Z.div_pos; lia).
  assert (B : m / 2 ^ k1 <= m1 <= m / 2 ^ k1 + 1).
  { rewrite <- Em. apply round_nearest_even_bounds. }
  exists m1. split; [done|]. split; [|split].
  - intros Hk Hb. subst m1. rewrite <- Em. apply round_nearest_even_down.
    rewrite Er by done. done.
  - intros Hk. subst m1. rewrite (E0 Hk), shr_m_of_loc, loc_of_record_of_loc. done.
  - cbv zeta.
    set (k2 := Z.max 0 (fexp prec emax (Zdigits2 m1 + (e + k1)) - (e + k1))).
    destruct (shr_fexp_spec m1 (e + k1) loc_Exact ltac:(lia)) as (r2 & -> & Em2 & _).
    fold k2 in Em2 |- *. rewrite Em2. done.
Qed.

(** What a rounding gives: zero, or a mantissa and an exponent, in the
    binade of what was rounded or the next one, which are the result
    unless the exponent is beyond the format. *)
Lemma binary_round_aux_cases (s : bool) (m e : Z) (l : location) :
  0 <= m ->
  binary_round_aux prec emax s m e l = S754_zero s \/
  exists p e',
    Zpos (digits2_pos p) + e' <= Zdigits2 m + e + 1 /\
    (0 < m -> Zdigits2 m + e <= Zpos (digits2_pos p) + e') /\
    binary_round_aux prec emax s m e l
    = if e' <=? emax - prec then S754_finite s p e' else S754_infinity s.
Proof.
  intros Hm.
  destruct (binary_round_aux_spec s m e l Hm) as (m1 & B & Hdown & _ & ->).
  cbv zeta.
  set (k1 := Z.max 0 (fexp prec emax (Zdigits2 m + e) - e)) in *.
  set (k2 := Z.max 0 (fexp prec emax (Zdigits2 m1 + (e + k1)) - (e + k1))).
  assert (Hk1 : 0 <= k1) by lia. assert (Hk2 : 0 <= k2) by lia.
  assert (Hp1 : 0 < 2 ^ k1) by (apply Z.pow_pos_nonneg; lia).
  assert (Hp2 : 0 < 2 ^ k2) by (apply Z.pow_pos_nonneg; lia).
  assert (Hm' : 0 <= m / 2 ^ k1) by (apply Z.div_pos; lia).
  destruct (m1 / 2 ^ k2) as [|q|q] eqn:Eq; [by left| |].
  2: { pose proof (Z.div_pos m1 (2 ^ k2) ltac:(lia) Hp2). lia. }
  right. exists q, (e + k1 + k2). split_and!; [| |done].
  all: assert (Hm1 : 0 < m1)
    by (destruct (Z.eq_dec m1 0) as [E|]; [|lia];
        rewrite E, Z.div_0_l in Eq; [done|lia]).
  all: assert (Hk2' : k2 < Zdigits2 m1)
    by (destruct (Z.ltb_spec k2 (Zdigits2 m1)); [done|];
        rewrite Zdigits2_shift_out in Eq by lia; done).
  all: assert (Hd : Zpos (digits2_pos q) = Zdigits2 m1 - k2)
    by (change (Zpos (digits2_pos q)) with (Zdigits2 (Zpos q)); rewrite <- Eq;
        apply Zdigits2_shift; lia).
  all: rewrite Hd.
  all: destruct (Z.ltb_spec k1 (Zdigits2 m)) as [Hlt|Hge].
  - assert (0 < m) by (destruct (Z.eq_dec m 0) as [->|]; [simpl in Hlt|]; lia).
    pose proof (Zdigits2_shift m k1 ltac:(done) ltac:(lia)) as Hs.
    pose proof (Zdigits2_mono m1 (m / 2 ^ k1 + 1) ltac:(lia)).
    pose proof (Zdigits2_succ (m / 2 ^ k1) Hm'). lia.
  - rewrite (Zdigits2_shift_out m k1 Hm Hge) in *.
    assert (m1 = 1) by lia. subst m1. change (Zdigits2 1) with 1 in *.
    destruct (Z.eq_dec k1 (Zdigits2 m)) as [|Hne]; [lia|].
    exfalso. assert (1 = 0); [|done].
    apply Hdown; [pose proof (Zdigits2_nonneg m); lia|].
    apply testbit_above; [done|lia].
  - intros Hpos.
    pose proof (Zdigits2_shift m k1 ltac:(done) ltac:(lia)) as Hs.
    pose proof (Zdigits2_mono (m / 2 ^ k1) m1 ltac:(lia)). lia.
  - intros Hpos. rewrite (Zdigits2_shift_out m k1 Hm Hge) in *.
    assert (m1 = 1) by lia. subst m1. change (Zdigits2 1) with 1 in *. lia.
Qed.

(** Rounding a positive number whose exponent the format has does not
    give zero. *)
Lemma binary_round_aux_nonzero (s s' : bool) (m e : Z) (l : location) :
  0 < m -> -1074 <= e ->
  binary_round_aux prec emax s m e l <> S754_zero s'.
Proof.
  intros Hm He.
  destruct (binary_round_aux_spec s m e l ltac:(lia)) as (m1 & B & _ & _ & ->).
  cbv zeta.
  set (k1 := Z.max 0 (fexp prec emax (Zdigits2 m + e) - e)) in *.
  set (k2 := Z.max 0 (fexp prec emax (Zdigits2 m1 + (e + k1)) - (e + k1))).
  pose proof (Zdigits2_pos m Hm) as Hd.
  assert (Hk1 : 0 <= k1 < Zdigits2 m) by (subst k1; rewrite fexp_eq; lia).
  pose proof (Zdigits2_shift m k1 Hm Hk1) as Hs.
  assert (Hm' : 0 < m / 2 ^ k1).
  { destruct (Z.eq_dec (m / 2 ^ k1) 0) as [E|].
    - rewrite E in Hs. simpl in Hs. lia.
    - assert (0 < 2 ^ k1) by (apply Z.pow_pos_nonneg; lia).
      pose proof (Z.div_pos m (2 ^ k1) ltac:(lia) ltac:(lia)). lia. }
  assert (Hm1 : 0 < m1) by lia.
  pose proof (Zdigits2_pos m1 Hm1) as Hd1.
  assert (Hk2 : 0 <= k2 < Zdigits2 m1) by (subst k2; rewrite fexp_eq; lia).
  pose proof (Zdigits2_shift m1 k2 Hm1 Hk2) as Hs2.
  destruct (m1 / 2 ^ k2) as [|q|q] eqn:Eq.
  - simpl in Hs2. lia.
  - destruct (e + k1 + k2 <=? emax - prec); done.
  - done.
Qed.


(** *** the operations *)

Lemma canonical_spec (m : positive) (e : Z) :
  bounded prec emax m e = true ->
  Z.max (Zpos (digits2_pos m) + e - 53) (-1074) = e /\ e <= 971.
Proof.
  unfold bounded, canonical_mantissa. rewrite fexp_eq.
  intros [H1 H2]%andb_true_iff.
  apply Z.eqb_eq in H1. apply Z.leb_le in H2. done.
Qed.

Lemma iter_xO (m k : positive) :
  Zpos (Pos.iter xO m k) = Zpos m * 2 ^ Zpos k.
Proof.
  revert m. induction k as [k IH|k IH|]; intros m; cbn [Pos.iter].
  - rewrite Pos2Z.inj_xO, !IH.
    replace (Zpos k~1) with (1 + (Zpos k + Zpos k)) by lia.
    rewrite !Z.pow_add_r by lia. lia.
  - rewrite !IH. replace (Zpos k~0) with (Zpos k + Zpos k) by lia.
    rewrite !Z.pow_add_r by lia. lia.
  - lia.
Qed.

Lemma shl_align_spec (m : positive) (e e' : Z) :
  e' <= e ->
  exists m', shl_align m e e' = (m', e') /\ Zpos m' = Zpos m * 2 ^ (e - e').
Proof.
  intros He. unfold shl_align.
  destruct (e' - e) as [|k|k] eqn:E; try lia.
  - exists m. replace e' with e by lia. rewrite Z.sub_diag. split; [done|lia].
  - exists (Pos.iter xO m k). split; [done|].
    rewrite iter_xO. f_equal. f_equal. lia.
Qed.

Lemma shl_align_keep (m : positive) (e e' : Z) :
  e <= e' -> shl_align m e e' = (m, e).
Proof.
  intros He. unfold shl_align. destruct (e' - e) as [|k|k] eqn:E; try done. lia.
Qed.

Lemma Zdigits2_mul_pow2 (m k : Z) :
  0 < m -> 0 <= k -> Zdigits2 (m * 2 ^ k) = Zdigits2 m + k.
Proof.
  intros Hm Hk. pose proof (Zdigits2_bounds m Hm) as [Hl Hu].
  pose proof (Zdigits2_pos m Hm).
  assert (0 < 2 ^ k) by (apply Z.pow_pos_nonneg; lia).
  apply Zdigits2_unique; [|nia].
  replace (Zdigits2 m + k - 1) with (Zdigits2 m - 1 + k) by lia.
  rewrite !Z.pow_add_r by lia. nia.
Qed.

(** A sum of two positive numbers, the second below half a unit in the
    last place of the first, is the first. *)
Lemma add_absorbs (ma md : positive) (ea ed : Z) :
  Z.max (Zpos (digits2_pos ma) + ea - 53) (-1074) = ea -> ea <= 971 ->
  Zpos (digits2_pos md) + ed <= ea - 1 ->
  SFadd prec emax (S754_finite false ma ea) (S754_finite false md ed)
  = S754_finite false ma ea.
Proof.
  intros Hc He Hd. cbn [SFadd cond_Zopp].
  assert (Hdd : 0 < Zpos (digits2_pos md)) by lia.
  replace (Z.min ea ed) with ed by lia.
  destruct (shl_align_spec ma ea ed ltac:(lia)) as (ma' & -> & Ema).
  rewrite (shl_align_keep md ed ed) by lia. cbn [fst].
  set (k := ea - ed) in *. assert (Hk : 0 < k) by lia.
  change (Zpos ma' + Zpos md) with (Zpos (ma' + md)).
  cbn [binary_normalize]. unfold binary_round.
  assert (Hmd : Zpos md < 2 ^ (k - 1)).
  { pose proof (Zdigits2_bounds (Zpos md) ltac:(lia)) as [_ Hu].
    change (Zdigits2 (Zpos md)) with (Zpos (digits2_pos md)) in Hu.
    assert (2 ^ Zpos (digits2_pos md) <= 2 ^ (k - 1))
      by (apply Z.pow_le_mono_r; lia). lia. }
  assert (Hpk : 2 ^ k = 2 * 2 ^ (k - 1)).
  { replace k with (1 + (k - 1)) at 1 by lia. rewrite Z.pow_add_r by lia. done. }
  assert (Hpk1 : 0 < 2 ^ (k - 1)) by (apply Z.pow_pos_nonneg; lia).
  assert (Hdig : Zpos (digits2_pos (ma' + md)) = Zpos (digits2_pos ma) + k).
  { change (Zdigits2 (Zpos (ma' + md)) = Zdigits2 (Zpos ma) + k).
    pose proof (Zdigits2_bounds (Zpos ma) ltac:(lia)) as [Hl Hu].
    pose proof (Zdigits2_pos (Zpos ma) ltac:(lia)).
    apply Zdigits2_unique; [|lia].
    rewrite Pos2Z.inj_add, Ema.
    replace (Zdigits2 (Zpos ma) + k - 1) with (Zdigits2 (Zpos ma) - 1 + k) by lia.
    rewrite !Z.pow_add_r by lia. nia. }
  assert (EF : fexp prec emax (Zpos (digits2_pos (ma' + md)) + ed) = ea)
    by (rewrite Hdig, fexp_eq; lia).
  rewrite EF, (shl_align_keep _ ed ea) by lia.
  destruct (binary_round_aux_spec false (Zpos (ma' + md)) ed loc_Exact ltac:(lia))
    as (m1 & _ & Hdown & _ & ->).
  cbv zeta in *.
  assert (EK : Z.max 0 (fexp prec emax (Zdigits2 (Zpos (ma' + md)) + ed) - ed) = k).
  { change (Zdigits2 (Zpos (ma' + md))) with (Zpos (digits2_pos (ma' + md))).
    rewrite Hdig, fexp_eq. lia. }
  rewrite EK in *.
  assert (Hq : Zpos (ma' + md) / 2 ^ k = Zpos ma).
  { rewrite Pos2Z.inj_add, Ema. rewrite Z.div_add_l by lia.
    rewrite Z.div_small by lia. lia. }
  assert (Hbit : Z.testbit (Zpos (ma' + md)) (k - 1) = false).
  { rewrite Pos2Z.inj_add, Ema.
    replace (Zpos ma * 2 ^ k + Zpos md)
      with (Zpos md + (2 * Zpos ma) * 2 ^ (k - 1)) by lia.
    transitivity (Z.testbit ((Zpos md + 2 * Zpos ma * 2 ^ (k - 1)) / 2 ^ (k - 1)) 0).
    { rewrite Z.div_pow2_bits by lia. done. }
    rewrite Z.div_add by lia. rewrite Z.div_small by lia.
    rewrite Z.add_0_l. apply Z.testbit_even_0. }
  rewrite (Hdown Hk Hbit), Hq.
  assert (EK2 : Z.max 0 (fexp prec emax (Zdigits2 (Zpos ma) + (ed + k)) - (ed + k)) = 0).
  { change (Zdigits2 (Zpos ma)) with (Zpos (digits2_pos ma)). rewrite fexp_eq. lia. }
  rewrite EK2, Z.div_1_r, Z.add_0_r.
  replace (ed + k) with ea by lia.
  change (emax - prec) with 971.
  destruct (Z.leb_spec ea 971); [done|lia].
Qed.

(** A sum of a negative number and a smaller positive one is negative. *)
Lemma add_stays_negative (ma md : positive) (ea ed : Z) :
  -1074 <= ed ->
  Zpos (digits2_pos md) + ed <= ea - 1 ->
  let r := SFadd prec emax (S754_finite true ma ea) (S754_finite false md ed) in
  r = S754_infinity true \/ exists m e, r = S754_finite true m e.
Proof.
  intros Hed Hd. cbn [SFadd cond_Zopp].
  assert (Hdd : 0 < Zpos (digits2_pos md)) by lia.
  replace (Z.min ea ed) with ed by lia.
  destruct (shl_align_spec ma ea ed ltac:(lia)) as (ma' & -> & Ema).
  rewrite (shl_align_keep md ed ed) by lia. cbn [fst].
  set (k := ea - ed) in *. assert (Hk : 0 < k) by lia.
  assert (Hmd : Zpos md < 2 ^ (k - 1)).
  { pose proof (Zdigits2_bounds (Zpos md) ltac:(lia)) as [_ Hu].
    change (Zdigits2 (Zpos md)) with (Zpos (digits2_pos md)) in Hu.
    assert (2 ^ Zpos (digits2_pos md) <= 2 ^ (k - 1))
      by (apply Z.pow_le_mono_r; lia). lia. }
  assert (Hpk : 2 ^ k = 2 * 2 ^ (k - 1)).
  { replace k with (1 + (k - 1)) at 1 by lia. rewrite Z.pow_add_r by lia. done. }
  assert (Hneg : - Zpos ma' + Zpos md < 0) by nia.
  destruct (- Zpos ma' + Zpos md) as [|q|q] eqn:Eq; try lia.
  cbn [binary_normalize]. unfold binary_round.
  set (e' := fexp prec emax (Zpos (digits2_pos q) + ed)).
  assert (He' : -1074 <= e') by (subst e'; rewrite fexp_eq; lia).
  assert (exists mz ez, shl_align q ed e' = (mz, ez) /\ -1074 <= ez)
    as (mz & ez & -> & Hez).
  { destruct (Z.le_gt_cases e' ed).
    - destruct (shl_align_spec q ed e' ltac:(lia)) as (mz & -> & _). eauto.
    - rewrite shl_align_keep by lia. eauto. }
  destruct (binary_round_aux_cases true (Zpos mz) ez loc_Exact ltac:(lia))
    as [E|(p & e2 & _ & _ & E)].
  - by apply binary_round_aux_nonzero in E.
  - rewrite E. destruct (e2 <=? emax - prec); eauto.
Qed.

(** The square of a finite number. *)
Lemma mul_square_cases (s : bool) (ma : positive) (ea : Z) :
  let r := SFmul prec emax (S754_finite s ma ea) (S754_finite s ma ea) in
  r = S754_zero false \/
  exists p e,
    2 * (Zpos (digits2_pos ma) + ea) - 1 <= Zpos (digits2_pos p) + e
      <= 2 * (Zpos (digits2_pos ma) + ea) + 1 /\
    r = if e <=? 971 then S754_finite false p e else S754_infinity false.
Proof.
  cbn [SFmul]. rewrite xorb_nilpotent.
  assert (Hd : 2 * Zpos (digits2_pos ma) - 1 <= Zdigits2 (Zpos (ma * ma))
               <= 2 * Zpos (digits2_pos ma)).
  { pose proof (Zdigits2_bounds (Zpos ma) ltac:(lia)) as [Hl Hu].
    change (Zdigits2 (Zpos ma)) with (Zpos (digits2_pos ma)) in *.
    set (d := Zpos (digits2_pos ma)) in *. assert (0 < d) by (subst d; lia).
    assert (0 < 2 ^ (d - 1)) by (apply Z.pow_pos_nonneg; lia).
    rewrite Pos2Z.inj_mul. split.
    - replace (2 * d - 1) with (2 * (d - 1) + 1) by lia.
      apply Zdigits2_ge_pow2; [lia|].
      replace (2 * (d - 1)) with ((d - 1) + (d - 1)) by lia.
      rewrite Z.pow_add_r by lia. nia.
    - apply Zdigits2_lt_pow2; [lia|lia|].
      replace (2 * d) with (d + d) by lia.
      rewrite Z.pow_add_r by lia. nia. }
  destruct (binary_round_aux_cases false (Zpos (ma * ma)) (ea + ea) loc_Exact
              ltac:(lia)) as [E|(p & e & Hu & Hl & E)]; [by left|right].
  exists p, e. split; [|done]. specialize (Hl ltac:(lia)). lia.
Qed.

(** A quotient by a positive finite number. *)
Lemma div_cases (s : bool) (mn mt : positive) (en et : Z) :
  let r := SFdiv prec emax (S754_finite s mn en) (S754_finite false mt et) in
  r = S754_zero s \/
  exists p e,
    Zpos (digits2_pos p) + e <= Zpos (digits2_pos mn) + en - et + 1 /\
    r = if e <=? 971 then S754_finite s p e else S754_infinity s.
Proof.
  cbn [SFdiv]. rewrite xorb_false_r. unfold SFdiv_core_binary.
  set (e' := Z.min _ (en - et)).
  set (m' := match en - et - e' with
             | 0 => Zpos mn
             | Zpos _ => Z.shiftl (Zpos mn) (en - et - e')
             | Zneg _ => 0
             end).
  assert (Hs : 0 <= en - et - e') by (subst e'; lia).
  assert (Hm' : 0 < m' /\ Zdigits2 m' = Zpos (digits2_pos mn) + (en - et - e')).
  { subst m'. destruct (en - et - e') as [|k|k] eqn:E; try lia.
    - split; [lia|]. simpl. lia.
    - rewrite Z.shiftl_mul_pow2 by lia.
      assert (0 < 2 ^ Zpos k) by (apply Z.pow_pos_nonneg; lia).
      split; [nia|]. by rewrite Zdigits2_mul_pow2 by lia. }
  destruct Hm' as [Hm' Hdm].
  pose proof (Z_div_mod m' (Zpos mt) ltac:(lia)) as Hdiv.
  destruct (Z.div_eucl m' (Zpos mt)) as [q r].
  destruct Hdiv as [Eq Hr].
  assert (Hq : 0 <= q <= m') by nia.
  destruct (binary_round_aux_cases s q e' (new_location (Zpos mt) r) ltac:(lia))
    as [E|(p & e & Hu & _ & E)]; [by left|right].
  exists p, e. split; [|done].
  pose proof (Zdigits2_mono q m' Hq). lia.
Qed.


(** The sum [mu + mu*mu/theta] for a finite [mu] whose square is finite
    and a [theta] from [2^620] on: it is [mu] when [mu] is positive, and
    it is negative when [mu] is. *)
Lemma sum_converged (s : bool) (ma : positive) (ea : Z) (th : spec_float) :
  bounded prec emax ma ea = true ->
  (th = S754_infinity false \/
   exists mt et, th = S754_finite false mt et /\ 568 <= et) ->
  let mu := S754_finite s ma ea in
  let n := SFmul prec emax mu mu in
  let d := SFdiv prec emax n th in
  valid_binary n = true ->
  valid_binary d = true ->
  n <> S754_infinity false ->
  if s then
    SFadd prec emax mu d = S754_infinity true \/
    exists m e, SFadd prec emax mu d = S754_finite true m e
  else SFadd prec emax mu d = mu.
Proof.
  intros Hmu Hth mu n d Vn Vd Hn.
  destruct (canonical_spec ma ea Hmu) as [Hc He].
  assert (Hzero : forall sz, d = S754_zero sz ->
            if s then
              SFadd prec emax mu d = S754_infinity true \/
              exists m e, SFadd prec emax mu d = S754_finite true m e
            else SFadd prec emax mu d = mu).
  { intros sz ->. subst mu. destruct s; cbn [SFadd]; eauto. }
  destruct (mul_square_cases s ma ea) as [En|(p & e & Hb & En)];
    fold mu in En; fold n in En.
  { apply (Hzero false). subst d. rewrite En.
    by destruct Hth as [->|(mt & et & -> & _)]. }
  destruct (Z.leb_spec e 971) as [Hle|]; [|done].
  rewrite En in Vn. destruct (canonical_spec p e Vn) as [Hcp _].
  destruct Hth as [Eth|(mt & et & Eth & Het)].
  { apply (Hzero false). subst d. by rewrite En, Eth. }
  destruct (div_cases false p mt e et) as [Ed|(q & e2 & Hq & Ed)];
    rewrite <- En, <- Eth in Ed; fold d in Ed.
  { by apply (Hzero false). }
  destruct (Z.leb_spec e2 971) as [Hle2|]; [|lia].
  rewrite Ed in Vd. destruct (canonical_spec q e2 Vd) as [Hcq _].
  rewrite Ed. subst mu. destruct s.
  - apply add_stays_negative; lia.
  - apply add_absorbs; lia.
Qed.


(** *** the residual *)

Lemma leb_threshold (theta : float) :
  PrimFloat.leb 0x1p620 theta = true ->
  Prim2SF theta = S754_infinity false \/
  exists mt et, Prim2SF theta = S754_finite false mt et /\ 568 <= et.
Proof.
  rewrite FloatAxioms.leb_spec.
  change (Prim2SF 0x1p620) with (S754_finite false 4503599627370496 568).
  destruct (Prim2SF theta) as [s|s| |s m e]; try done.
  - destruct s; [done|by left].
  - destruct s; [done|]. intros Hle. right. exists m, e. split; [done|].
    unfold SFleb, SFcompare in Hle.
    destruct (Z.compare_spec 568 e); first [lia|done].
Qed.

(** From [theta = 2^620] on, [+inf] included, the residual is the
    Poisson one, unless [mu] is the negative zero or is finite with a
    square that is not. *)
Lemma residual_converged (x mu theta : float) :
  PrimFloat.leb 0x1p620 theta = true ->
  square_overflows mu = false ->
  is_negative_zero mu = false ->
  residual x mu theta = poisson_residual x mu.
Proof.
  intros Ht Ho Hnz. unfold residual, poisson_residual.
  cbn [s_div s_sub s_sqrt s_add s_mul float64].
  pose proof (Prim2SF_valid mu) as Vm.
  pose proof (Prim2SF_valid (mu * mu)) as Vn.
  pose proof (Prim2SF_valid (mu * mu / theta)) as Vd.
  rewrite div_spec in Vd. rewrite mul_spec in Vn, Vd.
  unfold square_overflows, is_finite, is_negative_zero in *.
  rewrite mul_spec in Ho.
  apply Prim2SF_inj.
  rewrite !div_spec, !sqrt_spec, add_spec, div_spec, mul_spec, sub_spec.
  unfold SF64div, SF64sqrt, SF64add, SF64mul, SF64sub in *.
  destruct (Prim2SF mu) as [s|s| |s ma ea] eqn:Emu.
  - destruct s; [done|].
    by destruct (leb_threshold theta Ht) as [->|(mt & et & -> & _)].
  - destruct (leb_threshold theta Ht) as [->|(mt & et & -> & _)];
      by destruct (Prim2SF x) as [sx|[]| |sx mx ex], s.
  - by destruct (Prim2SF x).
  - pose proof (sum_converged s ma ea (Prim2SF theta) Vm
                  (leb_threshold theta Ht) Vn Vd) as Hsum.
    cbv zeta in Hsum.
    assert (Hn : SFmul prec emax (S754_finite s ma ea) (S754_finite s ma ea)
                 <> S754_infinity false).
    { intros E. rewrite E in Ho. done. }
    specialize (Hsum Hn). destruct s.
    + destruct Hsum as [->|(m & e & ->)]; by destruct (SFsub _ _ _ _).
    + by rewrite Hsum.
Qed.

(** The term [mu*mu/theta] of a finite [mu] whose square overflows: it
    is [+inf] at every finite [theta > 0], and NaN at [theta = +inf]. *)
Lemma overflowing_square (mu theta : float) :
  square_overflows mu = true ->
  PrimFloat.ltb 0 theta = true ->
  (mu * mu / theta)%float
  = if PrimFloat.ltb theta infinity then infinity else nan.
Proof.
  unfold square_overflows, is_finite. intros Ho Ht.
  apply Prim2SF_inj. rewrite div_spec.
  rewrite ltb_spec in Ht |- *. rewrite Prim2SF_infinity.
  change (Prim2SF 0) with (S754_zero false) in Ht.
  pose proof (square_signed mu) as Hs.
  destruct (Prim2SF (mu * mu)) as [s|s| |s m e] eqn:En;
    try (by rewrite andb_false_r in Ho).
  2: { rewrite mul_spec in En. unfold SF64mul in En.
       destruct (Prim2SF mu) as [s|s| |s m e]; try done.
       destruct (mul_square_cases s m e) as [E|(p & e' & _ & E)];
         rewrite E in En; [done|]. by destruct (e' <=? 971). }
  simpl in Hs. subst s.
  destruct (Prim2SF theta) as [s|[]| |[] m e]; try done.
Qed.

End F64Round.

(** ** Which parameters pass the checks *)

Lemma f64_clip_default_accepted (X : ndarray float) :
  clip_rejected X None = false.
Proof. apply F64Facts.sqrt_of_nat_not_negative. Qed.

Lemma f64_theta_accepted (theta : float) :
  PrimFloat.ltb 0 theta = true -> theta_rejected theta = false.
Proof. apply F64Facts.ltb_zero_leb. Qed.

Lemma f64_clip_accepted (X : ndarray float) (clip : option float) :
  (forall c, clip = Some c -> PrimFloat.leb 0 c = true) ->
  clip_rejected X clip = false.
Proof.
  destruct clip as [c|]; [|intros _; apply f64_clip_default_accepted].
  intros Hc. apply F64Facts.leb_zero_ltb, Hc. reflexivity.
Qed.


(** With valid parameters the call returns the matrix of the clipped
    residuals. *)
Lemma pearson_outcome_residual_matrix (X : ndarray float) theta clip :
  PrimFloat.ltb 0 theta = true ->
  (forall c, clip = Some c -> PrimFloat.leb 0 c = true) ->
  exists R,
    pearson_outcome X theta clip = Ok R /\
    (well_shaped X -> residual_matrix X theta clip R).
Proof.
  intros Ht Hc.
  destruct (pearson_outcome_ok X theta clip (f64_theta_accepted _ Ht)
              (f64_clip_accepted X _ Hc)) as (R & HR & Hn & Hl & He).
  exists R. split; [done|]. intros Hw. split_and!; try done.
  intros i j. rewrite (He Hw i j).
  destruct (entry X i j) as [x|]; [|done].
  eexists. split; [reflexivity|]. by left.
Qed.

(** ** Facts about the store *)

Section StoreFacts.
Context {F : Type} `{Scalar F}.

Lemma get_rep_set_rep (a : AnnData F) layer R :
  get_rep (set_rep a layer R) layer = Ok R.
Proof.
  destruct layer as [k|]; simpl; [|done]. by rewrite lookup_insert_eq.
Qed.

Lemma get_rep_normalized (a : AnnData F) theta clip layer R :
  get_rep (normalized a theta clip layer R) layer = Ok R.
Proof.
  unfold normalized.
  change (get_rep (set_uns ?b _ _) layer) with (get_rep b layer).
  apply get_rep_set_rep.
Qed.

Lemma uns_normalized (a : AnnData F) theta clip layer R :
  adata_uns (normalized a theta clip layer R) !! uns_key
  = Some (settings_dict theta clip (computed_on_of layer)).
Proof. unfold normalized; simpl. apply lookup_insert_eq. Qed.

Lemma target_fresh (w : world F) l a :
  heap w !! l = Some a -> target w l true <> l /\ heap w !! target w l true = None.
Proof.
  intros Hl. unfold target.
  assert (Hf : fresh (dom (heap w)) ∉ dom (heap w)) by apply is_fresh.
  split.
  - intros E. apply Hf. rewrite E. apply elem_of_dom. eauto.
  - by apply not_elem_of_dom.
Qed.

End StoreFacts.


Section Dangling.
Context {F : Type} `{Scalar F}.

(** A reference to no object: nothing is returned. *)
Lemma normalize_dangling l theta clip cv layer inplace copy (w : world F) :
  heap w !! l = None ->
  exists e w',
    normalize_pearson_residuals l theta clip cv layer inplace copy w
    = (Raise e, w').
Proof.
  intros Hl. unfold normalize_pearson_residuals.
  unfold mbind at 1, M_bind at 1, bind at 1.
  destruct copy, inplace; cbn [negb].
  - unfold adata_copy, mbind, M_bind, bind, load. rewrite Hl. eauto.
  - unfold raise. eauto.
  - unfold mret at 1, M_ret at 1, ret at 1.
    unfold mbind at 1, M_bind at 1, bind at 1.
    unfold view_to_actual, mbind, M_bind, bind, load. rewrite Hl. eauto.
  - unfold mret at 1, M_ret at 1, ret at 1.
    unfold mbind at 1, M_bind at 1, bind at 1.
    unfold view_to_actual, mbind, M_bind, bind, load. rewrite Hl. eauto.
Qed.

End Dangling.


(** ** Rejected parameters and warnings *)

Section Rejected.
Context {F : Type} `{Scalar F}.

(** With a rejected parameter the only event of [_pearson_residuals] is
    the copy of the matrix, which comes first. *)
Lemma pearson_events_rejected X theta clip cv copy :
  theta_rejected theta = true \/ clip_rejected X clip = true ->
  pearson_events X theta clip cv copy
  = if Py.truthy copy then [EvArrayCopy] else [].
Proof.
  intros Hrej. unfold pearson_events.
  destruct (theta_rejected theta), (clip_rejected X clip), Hrej;
    try done; by rewrite app_nil_r.
Qed.

Lemma pearson_outcome_rejected X theta clip :
  theta_rejected theta = true \/ clip_rejected X clip = true ->
  pearson_outcome X theta clip = Raise (ValueError theta_msg) \/
  pearson_outcome X theta clip = Raise (ValueError clip_msg).
Proof.
  intros Hrej. rewrite pearson_outcome_unfold.
  destruct (theta_rejected theta), (clip_rejected X clip), Hrej;
    try done; auto.
Qed.

(** [~inplace] is [-1] or [-2]: as a condition it always holds. *)
Lemma truthy_invert_bool (b : bool) :
  Py.truthy (Py.invert (Py.of_bool b)) = true.
Proof. by destruct b. Qed.

Lemma prologue_quiet l l1 layer copy :
  Forall (fun ev => is_computation ev = false) (prologue l l1 layer copy).
Proof. unfold prologue. destruct copy; repeat constructor. Qed.

(** The caller's object after the prologue of a run: itself when the run
    works on a copy, and otherwise itself made actual. *)
Lemma lookup_after_prologue (w : world F) l a copy :
  heap w !! l = Some a ->
  exists a',
    <[target w l copy := actual a]> (heap w) !! l = Some a' /\
    same_contents a a'.
Proof.
  intros Hl. destruct copy.
  - exists a. destruct (target_fresh w l a Hl) as [Hne _].
    by rewrite lookup_insert_ne.
  - exists (actual a). unfold target. by rewrite lookup_insert_eq.
Qed.

(** A run whose matrix exists and whose parameters are rejected. *)
Lemma normalize_rejected l a theta clip cv layer inplace copy (w : world F) X :
  heap w !! l = Some a ->
  (copy = true -> inplace = true) ->
  get_rep a layer = Ok X ->
  theta_rejected theta = true \/ clip_rejected X clip = true ->
  exists e,
    (e = ValueError theta_msg \/ e = ValueError clip_msg) /\
    normalize_pearson_residuals l theta clip cv layer inplace copy w
    = (Raise e,
       World (<[target w l copy := actual a]> (heap w))
             (trace w ++ prologue l (target w l copy) layer copy ++
              [EvLogInfo (start_msg layer); EvArrayCopy])).
Proof.
  intros Hl Hflags HX Hrej.
  rewrite (normalize_run l a theta clip cv layer inplace copy w Hl Hflags).
  cbv zeta. rewrite HX.
  rewrite (pearson_events_rejected _ _ _ _ _ Hrej), truthy_invert_bool.
  destruct (pearson_outcome_rejected X theta clip Hrej) as [-> | ->]; eauto.
Qed.

(** A run whose layer does not exist. *)
Lemma normalize_missing_layer l a theta clip cv layer inplace copy
  (w : world F) e :
  heap w !! l = Some a ->
  (copy = true -> inplace = true) ->
  get_rep a layer = Raise e ->
  normalize_pearson_residuals l theta clip cv layer inplace copy w
  = (Raise e,
     World (<[target w l copy := actual a]> (heap w))
           (trace w ++ prologue l (target w l copy) layer copy)).
Proof.
  intros Hl Hflags HX.
  rewrite (normalize_run l a theta clip cv layer inplace copy w Hl Hflags).
  cbv zeta. by rewrite HX.
Qed.

End Rejected.


Lemma invalid_parameters_rejected X theta clip :
  invalid_parameters theta clip ->
  theta_rejected theta = true \/ clip_rejected X clip = true.
Proof. intros [Ht|(c & -> & Hc)]; [by left|by right]. Qed.


Section Warnings.
Context {F : Type} `{Scalar F}.

(** When the data-quality warning is among the events of a call. *)
Lemma warn_in_pearson_events (X : ndarray F) theta clip cv copy category msg :
  In (EvWarn category msg) (pearson_events X theta clip cv copy) <->
  theta_rejected theta = false /\ clip_rejected X clip = false /\
  cv = true /\ check_nonnegative_integers X = false /\
  category = "UserWarning" /\ msg = count_msg.
Proof.
  unfold pearson_events.
  destruct (Py.truthy copy), (theta_rejected theta), (clip_rejected X clip),
    cv, (check_nonnegative_integers X); cbn [app In];
    intuition (try discriminate; try congruence).
Qed.

End Warnings.


(** * The claims *)

Section SettingsRecord.
Context {F : Type} `{Scalar F}.

(** Where [computed_on] is the name that was passed. *)
Lemma computed_on_of_named (layer : option string) :
  layer <> Some "" ->
  computed_on_of layer
  = match layer with Some k => k | None => "adata.X" end.
Proof.
  unfold computed_on_of. destruct layer as [k|]; [|done]. simpl.
  destruct (String.eqb_spec k ""); [by intros []; subst|done].
Qed.

(** The settings record of a call that returns: its three fields, and
    where it goes. *)
Lemma normalize_settings_record l a theta clip cv layer inplace copy
  (w w' : world F) r :
  heap w !! l = Some a ->
  normalize_pearson_residuals l theta clip cv layer inplace copy w
  = (Ok r, w') ->
  let s := settings_dict theta clip (computed_on_of layer) in
  dict_keys s = ["theta"; "clip"; "computed_on"] /\
  dict_get s "theta" = Some (PyFloat theta) /\
  dict_get s "clip"
  = Some (match clip with Some c => PyFloat c | None => PyNone end) /\
  dict_get s "computed_on" = Some (PyStr (computed_on_of layer)) /\
  (inplace = true ->
   exists a', heap w' !! target w l copy = Some a' /\
              adata_uns a' !! uns_key = Some s) /\
  (inplace = false -> exists R, r = RetDict (("X", PyArray R) :: s)).
Proof.
  intros Hl Hrun. cbv zeta. split_and!; try done.
  - intros ->.
    rewrite (normalize_run l a theta clip cv layer true copy w Hl) in Hrun
      by done.
    cbv zeta in Hrun.
    destruct (get_rep a layer) as [X|e]; [|discriminate].
    destruct (pearson_outcome X theta clip) as [R|e]; [|discriminate].
    injection Hrun as _ <-. cbn [heap]. rewrite lookup_insert_eq.
    eexists. split; [reflexivity|apply uns_normalized].
  - intros ->. destruct copy.
    { rewrite normalize_run_reject in Hrun. discriminate. }
    rewrite (normalize_run l a theta clip cv layer false false w Hl) in Hrun
      by done.
    cbv zeta in Hrun.
    destruct (get_rep a layer) as [X|e]; [|discriminate].
    destruct (pearson_outcome X theta clip) as [R|e]; [|discriminate].
    injection Hrun as <- _. eauto.
Qed.

End SettingsRecord.

(** C1: for every well-shaped matrix [X] with [n] rows, every
    [theta > 0] and every valid [clip] ([None], or a value [>= 0],
    [+inf] included), [_pearson_residuals] returns an array of the shape
    of [X] whose entry [(i,j)] is
    [(X[i,j] - mu[i,j]) / sqrt(mu[i,j] + mu[i,j]^2 / theta)] clipped to
    [[-clip, +clip]], where [mu[i,j]] is the row sum [i] times the column
    sum [j] divided by the grand sum, all in binary64 and added in
    numpy's order, and where [clip] is [sqrt(n)] when the caller passes
    [None].  Under [clip = 0] the entry is that value up to the sign of a
    zero. *)
Theorem C1_pearson_residuals_entries
  (X : ndarray float) (theta : float) (clip : option float)
  (check_values : bool) (copy : Z) (w : world float) :
  well_shaped X ->
  PrimFloat.ltb 0 theta = true ->
  (forall c, clip = Some c -> PrimFloat.leb 0 c = true) ->
  exists R w',
    _pearson_residuals X theta clip check_values copy w = (Ok R, w') /\
    ncols R = ncols X /\ length (rows R) = length (rows X) /\
    forall i j,
      match entry X i j with
      | Some x =>
          let mu := ((row_sum X i * col_sum X j) / grand_sum X)%float in
          let c := match clip with
                   | Some c => c
                   | None => PrimFloat.sqrt (F64.of_nat (length (rows X)))
                   end in
          exists r,
            entry R i j = Some r /\
            clipped_to c
              ((x - mu) / PrimFloat.sqrt (mu + mu * mu / theta))%float r
      | None => entry R i j = None
      end.
Proof.
  intros Hw Ht Hc.
  destruct (pearson_outcome_residual_matrix X theta clip Ht Hc)
    as (R & HR & Hres).
  destruct (Hres Hw) as (Hn & Hl & He).
  exists R, (log w (pearson_events X theta clip check_values copy)).
  rewrite pearson_run, HR. split_and!; [done..|].
  intros i j. specialize (He i j).
  destruct (entry X i j) as [x|]; [|done]. by destruct clip.
Qed.

(** The entry [(0,0)] of the two-by-two example: [mu = 3 * 4 / 6 = 2],
    and the bound is [sqrt 2]. *)
Lemma C1_witness :
  well_shaped Demo.X_counts /\
  PrimFloat.ltb 0 100 = true /\
  exists R w',
    _pearson_residuals Demo.X_counts 100%float None true 0 Demo.w_empty
    = (Ok R, w') /\
    exists r,
      entry R 0 0 = Some r /\
      clipped_to (PrimFloat.sqrt 2)
        ((1 - 2) / PrimFloat.sqrt (2 + 2 * 2 / 100))%float r.
Proof.
  assert (Hw : well_shaped Demo.X_counts) by (repeat constructor).
  split; [exact Hw|]. split; [reflexivity|].
  destruct (C1_pearson_residuals_entries Demo.X_counts 100%float None true 0
              Demo.w_empty Hw eq_refl) as (R & w' & Hrun & _ & _ & He).
  - discriminate.
  - exists R, w'. split; [exact Hrun|]. exact (He 0 0).
Defined.

(** C2: [_pearson_residuals] fails with the theta error exactly when
    [theta <= 0] (so for [theta = 0] and [theta = -1]); it fails with the
    clip error exactly when [theta] passed and an explicit [clip < 0] was
    given (so for [clip = -1]); it raises no error for [theta > 0] with
    [clip = None], [clip >= 0] or [clip = +inf]; no other error exists;
    and with both parameters invalid the theta error is the one raised. *)
Theorem C2_parameter_errors
  (X : ndarray float) (theta : float) (clip : option float)
  (check_values : bool) (copy : Z) (w : world float) :
  let run t c := fst (_pearson_residuals X t c check_values copy w) in
  (run theta clip = Raise (ValueError theta_msg) <->
   PrimFloat.leb theta 0 = true) /\
  (run theta clip = Raise (ValueError clip_msg) <->
   PrimFloat.leb theta 0 = false /\
   exists c, clip = Some c /\ PrimFloat.ltb c 0 = true) /\
  (PrimFloat.ltb 0 theta = true ->
   clip = None \/ (exists c, clip = Some c /\ PrimFloat.leb 0 c = true) ->
   exists R, run theta clip = Ok R) /\
  ((exists R, run theta clip = Ok R) \/
   run theta clip = Raise (ValueError theta_msg) \/
   run theta clip = Raise (ValueError clip_msg)) /\
  run 0%float clip = Raise (ValueError theta_msg) /\
  run (-1)%float clip = Raise (ValueError theta_msg) /\
  run (-1)%float (Some (-1)%float) = Raise (ValueError theta_msg) /\
  run 100%float (Some (-1)%float) = Raise (ValueError clip_msg) /\
  (exists R, run 100%float None = Ok R) /\
  (exists R, run 100%float (Some 0%float) = Ok R) /\
  (exists R, run 100%float (Some infinity) = Ok R).
Proof.
  cbv beta zeta. rewrite !pearson_run. cbn [fst].
  assert (Hok : forall t c, theta_rejected t = false ->
                  clip_rejected X c = false ->
                  exists R, pearson_outcome X t c = Ok R).
  { intros t c Ht Hc.
    destruct (pearson_outcome_ok X t c Ht Hc) as (R & HR & _). eauto. }
  assert (Hclip : clip_rejected X clip = true <->
                  exists c, clip = Some c /\ PrimFloat.ltb c 0 = true).
  { split.
    - destruct clip as [c|]; [by exists c|].
      by rewrite f64_clip_default_accepted.
    - by intros (c & -> & Hc). }
  pose proof (pearson_outcome_cases X theta clip) as Hcases.
  change (PrimFloat.leb theta 0) with (theta_rejected theta).
  split; [split|].
  { intros Ho. rewrite Ho in Hcases.
    by destruct Hcases as [[? _]|(_ & _ & ?)]. }
  { apply pearson_outcome_theta. }
  split; [split|].
  { intros Ho. rewrite Ho in Hcases. rewrite <- Hclip.
    by destruct Hcases as [[_ ?]|(? & ? & _)]. }
  { intros (Ht & Hc). apply pearson_outcome_clip; [done|by apply Hclip]. }
  split.
  { intros Ht Hc. apply Hok; [by apply f64_theta_accepted|].
    apply f64_clip_accepted. destruct Hc as [->|(c & -> & Hc)]; [done|].
    by intros ? [= <-]. }
  split.
  { destruct (pearson_outcome X theta clip) as [R|e]; [left; eauto|right].
    destruct Hcases as [[_ ->]|(_ & _ & ->)]; auto. }
  repeat split;
    first [ by apply pearson_outcome_theta
          | by apply pearson_outcome_clip
          | by apply Hok
          | apply Hok; [done|apply f64_clip_default_accepted] ].
Qed.

(** C3: for every valid parameterization ([theta > 0], [clip] valid) and
    every object whose selected matrix exists, the run with
    [inplace=True] and the run with [inplace=False] from the same store
    both return, the matrix left in [adata.X] (or the selected layer) by
    the first is the ["X"] entry of the dictionary returned by the second,
    and the record stored under [uns] by the first is the rest of that
    dictionary, with the keys [theta], [clip] and [computed_on]. *)
Theorem C3_inplace_parity
  (l : loc) (a : AnnData float) (X : ndarray float) (theta : float)
  (clip : option float) (check_values : bool) (layer : option string)
  (w : world float) :
  heap w !! l = Some a ->
  get_rep a layer = Ok X ->
  PrimFloat.ltb 0 theta = true ->
  (forall c, clip = Some c -> PrimFloat.leb 0 c = true) ->
  exists (R : ndarray float) (settings : pydict float) w_in w_out a_in,
    normalize_pearson_residuals l theta clip check_values layer true false w
    = (Ok RetNone, w_in) /\
    normalize_pearson_residuals l theta clip check_values layer false false w
    = (Ok (RetDict (("X", PyArray R) :: settings)), w_out) /\
    heap w_in !! l = Some a_in /\
    get_rep a_in layer = Ok R /\
    adata_uns a_in !! uns_key = Some settings /\
    dict_keys settings = ["theta"; "clip"; "computed_on"].
Proof.
  intros Hl HX Ht Hc.
  destruct (pearson_outcome_ok X theta clip (f64_theta_accepted _ Ht)
              (f64_clip_accepted X _ Hc)) as (R & HR & _).
  exists R, (settings_dict theta clip (computed_on_of layer)).
  rewrite (normalize_run l a theta clip check_values layer true false w Hl)
    by done.
  rewrite (normalize_run l a theta clip check_values layer false false w Hl)
    by done.
  cbv zeta. rewrite HX, HR. unfold target.
  do 3 eexists. split; [reflexivity|]. split; [reflexivity|].
  cbn [heap]. rewrite lookup_insert_eq. split; [reflexivity|].
  split; [apply get_rep_normalized|]. split; [apply uns_normalized|done].
Qed.

Lemma C3_witness :
  exists R settings w_in w_out a_in,
    normalize_pearson_residuals 1%positive 100%float None true None true false
      Demo.w_adata = (Ok RetNone, w_in) /\
    normalize_pearson_residuals 1%positive 100%float None true None false
      false Demo.w_adata
    = (Ok (RetDict (("X", PyArray R) :: settings)), w_out) /\
    heap w_in !! 1%positive = Some a_in /\
    get_rep a_in None = Ok R /\
    adata_uns a_in !! uns_key = Some settings /\
    dict_keys settings = ["theta"; "clip"; "computed_on"].
Proof.
  apply (C3_inplace_parity 1%positive Demo.adata Demo.X_counts 100%float None
           true None Demo.w_adata).
  - apply lookup_insert_eq.
  - reflexivity.
  - reflexivity.
  - discriminate.
Defined.

(** C4, as amended: for every call with [theta <= 0] or an explicit
    [clip < 0], [_pearson_residuals] raises before it checks the values,
    sums or clips anything, and the only thing it has done is the copy of
    the matrix when its [copy] flag is set; [normalize_pearson_residuals]
    raises too, the trace of the call holds no pass over the matrix and no
    write to the store, and [adata.X], the layers and [uns] of the
    caller's object are as before; with [inplace=False] and [copy=False]
    the copy of the input matrix has been taken by then. *)
Theorem C4_invalid_parameters_fail_before_computation
  (theta : float) (clip : option float) :
  invalid_parameters theta clip ->
  (forall X check_values copy (w : world float),
     exists msg,
       (msg = theta_msg \/ msg = clip_msg) /\
       _pearson_residuals X theta clip check_values copy w
       = (Raise (ValueError msg),
          World (heap w)
                (trace w ++ if Py.truthy copy then [EvArrayCopy] else []))) /\
  (forall l a check_values layer inplace copy (w : world float),
     heap w !! l = Some a ->
     exists e w' a' evs,
       normalize_pearson_residuals l theta clip check_values layer inplace
         copy w = (Raise e, w') /\
       heap w' !! l = Some a' /\
       adata_X a' = adata_X a /\
       adata_layers a' = adata_layers a /\
       adata_uns a' = adata_uns a /\
       trace w' = trace w ++ evs /\
       Forall (fun ev => is_computation ev = false) evs /\
       (forall X, get_rep a layer = Ok X ->
                  (copy = true -> inplace = true) ->
                  e = ValueError theta_msg \/ e = ValueError clip_msg) /\
       (forall X, get_rep a layer = Ok X ->
                  inplace = false -> copy = false -> In EvArrayCopy evs)).
Proof.
  intros Hinv. split.
  - intros X cv copy w. rewrite pearson_run.
    pose proof (invalid_parameters_rejected X _ _ Hinv) as Hrej.
    rewrite (pearson_events_rejected _ _ _ _ _ Hrej).
    destruct (pearson_outcome_rejected X theta clip Hrej) as [-> | ->];
      eexists; (split; [|reflexivity]); auto.
  - intros l a cv layer inplace copy w Hl.
    destruct (bool_decide (copy = true -> inplace = true)) eqn:Hdec.
    2: { apply bool_decide_eq_false in Hdec.
         assert (copy = true /\ inplace = false) as [-> ->]
           by (destruct copy, inplace; try done; exfalso; by apply Hdec).
         rewrite normalize_run_reject.
         exists (ValueError copy_msg), w, a, []. rewrite app_nil_r.
         by split_and!. }
    apply bool_decide_eq_true in Hdec.
    destruct (lookup_after_prologue w l a copy Hl) as (a' & Ha' & HX & HL & HU).
    destruct (get_rep a layer) as [X|e] eqn:Hget.
    + destruct (normalize_rejected l a theta clip cv layer inplace copy w X
                  Hl Hdec Hget (invalid_parameters_rejected X _ _ Hinv))
        as (e & He & Hrun).
      rewrite Hrun. do 2 eexists. exists a'. eexists.
      split; [reflexivity|]. cbn [heap trace]. split_and!; try done.
      * apply Forall_app. split; [apply prologue_quiet|repeat constructor].
      * intros _ _ _ _. apply in_app_iff. right. cbn. auto.
    + rewrite (normalize_missing_layer l a theta clip cv layer inplace copy w
                 e Hl Hdec Hget).
      do 2 eexists. exists a'. eexists.
      split; [reflexivity|]. cbn [heap trace]. split_and!; try done.
      apply prologue_quiet.
Qed.

Lemma C4_witness :
  invalid_parameters 0 None /\
  exists msg,
    (msg = theta_msg \/ msg = clip_msg) /\
    _pearson_residuals Demo.X_counts 0%float None true 1 Demo.w_empty
    = (Raise (ValueError msg), World ∅ [EvArrayCopy]).
Proof.
  assert (Hinv : invalid_parameters 0 None) by (by left).
  split; [exact Hinv|].
  destruct (C4_invalid_parameters_fail_before_computation 0%float None Hinv)
    as [Hp _].
  exact (Hp Demo.X_counts true 1%Z Demo.w_empty).
Defined.

(** C4, as stated, fails: with [theta = 0] and [inplace=False] the call
    raises the theta error, and by then [X.copy()] has run. *)
Lemma C4_counterexample :
  normalize_pearson_residuals 1%positive 0%float None true None false false
    Demo.w_adata
  = (Raise (ValueError theta_msg),
     World (<[1%positive := actual Demo.adata]> ∅)
       [EvViewToActual 1%positive; EvGetObsRep 1%positive None;
        EvLogInfo "computing analytic Pearson residuals on adata.X";
        EvArrayCopy]) /\
  _pearson_residuals Demo.X_counts 0%float None true 1 Demo.w_empty
  = (Raise (ValueError theta_msg), World ∅ [EvArrayCopy]).
Proof.
  split; [|reflexivity].
  rewrite (normalize_run 1%positive Demo.adata 0%float None true None false
             false Demo.w_adata (lookup_insert_eq _ _ _)) by done.
  cbv zeta. change (get_rep Demo.adata None) with (Ok Demo.X_counts).
  cbv iota beta.
  rewrite (pearson_outcome_theta Demo.X_counts 0%float None) by reflexivity.
  unfold Demo.w_adata, target. cbn [heap trace]. rewrite insert_insert_eq.
  reflexivity.
Qed.

(** C5: for every object and every parameterization,
    [normalize_pearson_residuals] with [inplace=False] and [copy=False]
    leaves [adata.X], the layers and [uns] of the object, every other
    object and the set of objects as they were; with valid parameters and
    an existing matrix the result is a dictionary holding the residuals
    and the three settings. *)
Theorem C5_not_inplace_leaves_store
  (l : loc) (a : AnnData float) (theta : float) (clip : option float)
  (check_values : bool) (layer : option string) (w : world float) :
  heap w !! l = Some a ->
  exists o w' a',
    normalize_pearson_residuals l theta clip check_values layer false false w
    = (o, w') /\
    heap w' !! l = Some a' /\
    adata_X a' = adata_X a /\
    adata_layers a' = adata_layers a /\
    adata_uns a' = adata_uns a /\
    get_rep a' layer = get_rep a layer /\
    (forall k, k <> l -> heap w' !! k = heap w !! k) /\
    dom (heap w') = dom (heap w) /\
    (forall X,
       get_rep a layer = Ok X ->
       PrimFloat.ltb 0 theta = true ->
       (forall c, clip = Some c -> PrimFloat.leb 0 c = true) ->
       exists R,
         pearson_outcome X theta clip = Ok R /\
         o = Ok (RetDict [("X", PyArray R); ("theta", PyFloat theta);
                          ("clip", match clip with
                                   | Some c => PyFloat c
                                   | None => PyNone
                                   end);
                          ("computed_on", PyStr (computed_on_of layer))])).
Proof.
  intros Hl.
  rewrite (normalize_run l a theta clip check_values layer false false w Hl)
    by done.
  cbv zeta. unfold target.
  assert (Hdom : dom (<[l := actual a]> (heap w)) = dom (heap w)).
  { rewrite dom_insert_L. apply subseteq_union_1_L, singleton_subseteq_l.
    apply elem_of_dom. eauto. }
  destruct (get_rep a layer) as [X|e] eqn:HX.
  - destruct (pearson_outcome X theta clip) as [R|e] eqn:HR.
    + do 2 eexists. exists (actual a). split; [reflexivity|]. cbn [heap].
      rewrite lookup_insert_eq. repeat split; try done.
      * intros k Hk. by rewrite lookup_insert_ne.
      * intros X' [= <-] _ _. exists R. by rewrite HR.
    + do 2 eexists. exists (actual a). split; [reflexivity|]. cbn [heap].
      rewrite lookup_insert_eq. repeat split; try done.
      * intros k Hk. by rewrite lookup_insert_ne.
      * intros X' [= <-] Ht Hc.
        destruct (pearson_outcome_ok X theta clip (f64_theta_accepted _ Ht)
                    (f64_clip_accepted X _ Hc)) as (R & HR' & _).
        congruence.
  - do 2 eexists. exists (actual a). split; [reflexivity|]. cbn [heap].
    rewrite lookup_insert_eq. repeat split; try done.
    intros k Hk. by rewrite lookup_insert_ne.
Qed.

Lemma C5_witness :
  exists o w' a',
    normalize_pearson_residuals 1%positive 100%float None true
      (Some "counts") false false Demo.w_adata = (o, w') /\
    heap w' !! 1%positive = Some a' /\
    adata_X a' = Demo.X_counts /\
    adata_layers a' !! "counts" = Some Demo.X_fraction /\
    adata_uns a' = ∅.
Proof.
  destruct (C5_not_inplace_leaves_store 1%positive Demo.adata 100%float None
              true (Some "counts") Demo.w_adata (lookup_insert_eq _ _ _))
    as (o & w' & a' & Hrun & Hl & HX & Hlayers & Huns & _).
  exists o, w', a'. rewrite HX, Hlayers, Huns.
  by split_and!.
Defined.

(** C6, as amended.  For every [theta] from [2^620] on, [+inf]
    included, and every entry whose expected value [mu] is not the
    negative zero and is not finite with a square that overflows,
    [_pearson_residuals] returns, in binary64, exactly the clipped
    [(X - mu) / sqrt(mu)]: the result has converged.  At [theta = +inf] a
    finite [mu^2] divided by [theta] is [+0]; on a matrix of non-negative
    integers no [mu] is the negative zero.  The term is not guarded:
    [mu**2] is computed before the division, and where it overflows
    [mu**2 / theta] is [+inf] at every finite [theta > 0] and NaN at
    [theta = +inf]. *)
Theorem C6_theta_infinity_and_limit :
  (forall (X : ndarray float) (clip : option float) check_values copy w
          (theta : float) i j x,
     well_shaped X ->
     (forall c, clip = Some c -> PrimFloat.leb 0 c = true) ->
     PrimFloat.leb 0x1p620 theta = true ->
     entry X i j = Some x ->
     let mu := mu_entry X i j in
     F64.square_overflows mu = false ->
     F64.is_negative_zero mu = false ->
     exists R r,
       fst (_pearson_residuals X theta clip check_values copy w) = Ok R /\
       entry R i j = Some r /\
       clipped_to (clip_bound X clip) (poisson_residual x mu) r) /\
  (forall mu : float,
     F64.is_finite (mu * mu) = true ->
     (mu * mu / infinity)%float = 0%float) /\
  (forall (X : ndarray float) i j,
     check_nonnegative_integers X = true ->
     F64.is_negative_zero (mu_entry X i j) = false) /\
  (forall mu theta : float,
     F64.square_overflows mu = true ->
     PrimFloat.ltb 0 theta = true ->
     (mu * mu / theta)%float
     = if PrimFloat.ltb theta infinity then infinity else nan).
Proof.
  split_and!.
  - intros X clip cv copy w theta i j x Hw Hc Hth Hx mu Ho Hnz.
    assert (Ht : PrimFloat.ltb 0 theta = true).
    { destruct (F64Round.leb_threshold theta Hth) as [E|(mt & et & E & _)];
        rewrite ltb_spec, E; reflexivity. }
    destruct (pearson_outcome_residual_matrix X theta clip Ht Hc)
      as (R & HR & Hres).
    destruct (Hres Hw) as (_ & _ & He). specialize (He i j).
    rewrite Hx in He. destruct He as (r & Hr & Hclip).
    exists R, r. rewrite pearson_run. split_and!; try done.
    by rewrite <- (F64Round.residual_converged x mu theta Hth Ho Hnz).
  - intros mu Hfin. apply F64Facts.square_div_infinity.
    unfold F64.is_finite in Hfin.
    rewrite ltb_spec, F64Facts.Prim2SF_infinity.
    pose proof (F64Facts.square_signed mu) as Hs.
    destruct (Prim2SF (mu * mu)) as [s|s| |s m e]; simpl in Hs; subst;
      done.
  - intros X i j Hcount.
    apply F64Signs.plus_not_negative_zero, F64Signs.plus_mu_entry.
    by apply F64Signs.counts_plus.
  - apply F64Round.overflowing_square.
Qed.

(** On the two-by-two example at [theta = 2^1000]: [mu = 2], and the
    entry is the Poisson residual [(1 - 2) / sqrt 2], clipped. *)
Lemma C6_witness :
  exists R r,
    fst (_pearson_residuals Demo.X_counts 0x1p1000%float None true 0
           Demo.w_empty)
    = Ok R /\
    entry R 0 0 = Some r /\
    clipped_to (PrimFloat.sqrt 2) (poisson_residual 1 2)%float r.
Proof.
  destruct C6_theta_infinity_and_limit as (Hconv & _).
  apply (Hconv Demo.X_counts None true 0%Z Demo.w_empty 0x1p1000%float 0 0
           1%float).
  - repeat constructor.
  - discriminate.
  - reflexivity.
  - reflexivity.
  - reflexivity.
  - reflexivity.
Defined.

(** C6, as stated, fails.  On [Demo.X_wide] the expected value
    [mu[0,0] = 2^522] is finite; squared first, it overflows, so that
    [mu^2/theta] is [+inf] at the finite [theta = 2^1000] (where
    [mu * (mu/theta)] is [2^44]); at [theta = +inf] and at the largest
    finite [theta] the entry returned is not the clipped
    [(X - mu) / sqrt(mu)].  On [Demo.X_signed] the expected value
    [mu[0,0]] is the negative zero, and at [theta = +inf], as at
    [theta = 2^1000], the entry returned is the upper bound where the
    clipped [(X - mu) / sqrt(mu)] is the lower one. *)
Lemma C6_counterexample :
  let mu := mu_entry Demo.X_wide 0 0 in
  let x := 0x1p511%float in
  entry Demo.X_wide 0 0 = Some x /\
  PrimFloat.ltb mu infinity = true /\
  (mu * mu / 0x1p1000)%float = infinity /\
  (mu * (mu / 0x1p1000))%float = 0x1p44%float /\
  (exists R r,
     fst (_pearson_residuals Demo.X_wide infinity None false 0 (World ∅ [])) = Ok R /\
     entry R 0 0 = Some r /\
     ~ clipped_to (clip_bound Demo.X_wide None) (poisson_residual x mu) r) /\
  (exists R r,
     fst (_pearson_residuals Demo.X_wide 0x1.fffffffffffffp1023%float None false 0
            (World ∅ [])) = Ok R /\
     entry R 0 0 = Some r /\
     ~ clipped_to (clip_bound Demo.X_wide None) (poisson_residual x mu) r) /\
  F64.is_negative_zero (mu_entry Demo.X_signed 0 0) = true /\
  (exists R r,
     fst (_pearson_residuals Demo.X_signed infinity None false 0 (World ∅ [])) = Ok R /\
     entry R 0 0 = Some r /\
     PrimFloat.ltb 1 r = true /\
     PrimFloat.ltb
       (clipped Demo.X_signed None
          (poisson_residual 3%float (mu_entry Demo.X_signed 0 0))) (-1) = true /\
     ~ clipped_to (clip_bound Demo.X_signed None)
         (poisson_residual 3%float (mu_entry Demo.X_signed 0 0)) r) /\
  (exists R r,
     fst (_pearson_residuals Demo.X_signed 0x1p1000%float None false 0
            (World ∅ [])) = Ok R /\
     entry R 0 0 = Some r /\
     ~ clipped_to (clip_bound Demo.X_signed None)
         (poisson_residual 3%float (mu_entry Demo.X_signed 0 0)) r).
Proof.
  assert (Hne : forall c y r : float,
            PrimFloat.eqb c 0 = false ->
            (F64.is_nan r = true /\
             F64.is_nan (clip_scalar (- c)%float c y) = false) \/
            (exists b, PrimFloat.ltb r b
                       <> PrimFloat.ltb (clip_scalar (- c)%float c y) b) ->
            ~ clipped_to c y r).
  { intros c y r Hc Hd [->|(E & _)]; [|congruence].
    destruct Hd as [[? ?]|[b Hb]]; congruence. }
  cbv zeta. split_and!; try (vm_compute; reflexivity).
  - eexists _, _. split_and!; [vm_compute; reflexivity..|].
    apply Hne; [vm_compute; reflexivity|]. left. vm_compute. done.
  - eexists _, _. split_and!; [vm_compute; reflexivity..|].
    apply Hne; [vm_compute; reflexivity|]. right. exists (-1)%float.
    vm_compute. done.
  - eexists _, _. split_and!; [vm_compute; reflexivity..|].
    apply Hne; [vm_compute; reflexivity|]. right. exists 0%float.
    vm_compute. done.
  - eexists _, _. split_and!; [vm_compute; reflexivity..|].
    apply Hne; [vm_compute; reflexivity|]. right. exists 0%float.
    vm_compute. done.
Qed.

(** C7 at its failing input.  With [layer=""] and a layer of that name,
    the residuals are computed on, and written to, that layer, [adata.X]
    is not touched, and the record stored in [uns] says
    [computed_on = "adata.X"]. *)
Theorem C7_computed_on_with_empty_layer_name :
  exists w' a' R,
    normalize_pearson_residuals 1%positive 100%float None true (Some "") true
      false Demo.w_unnamed = (Ok RetNone, w') /\
    heap w' !! 1%positive = Some a' /\
    fst (_pearson_residuals Demo.X_counts 100%float None true 0 Demo.w_empty)
    = Ok R /\
    adata_layers a' !! "" = Some R /\
    adata_X a' = adata_X Demo.adata_unnamed /\
    adata_uns a' !! uns_key
    = Some [("theta", PyFloat 100%float); ("clip", PyNone);
            ("computed_on", PyStr "adata.X")].
Proof.
  assert (Ht : theta_rejected 100%float = false) by reflexivity.
  destruct (pearson_outcome_ok Demo.X_counts 100%float None Ht
              (f64_clip_default_accepted _)) as (R & HR & _).
  rewrite (normalize_run 1%positive Demo.adata_unnamed 100%float None true
             (Some "") true false Demo.w_unnamed (lookup_insert_eq _ _ _))
    by done.
  cbv zeta.
  assert (Hget : get_rep Demo.adata_unnamed (Some "") = Ok Demo.X_counts).
  { unfold get_rep, Demo.adata_unnamed. cbn [adata_layers].
    by rewrite lookup_insert_eq. }
  rewrite Hget, HR.
  do 2 eexists. exists R. split; [reflexivity|]. cbn [heap].
  unfold target. rewrite lookup_insert_eq. split; [reflexivity|].
  rewrite pearson_run. split; [exact HR|].
  split;
    [|split; [reflexivity
             |exact (uns_normalized Demo.adata_unnamed 100%float None
                       (Some "") R)]].
  unfold normalized, set_rep, set_uns, set_layer. cbn [adata_layers].
  apply lookup_insert_eq.
Qed.

(** C8: for every matrix [X], what [_pearson_residuals] returns or
    raises is the same with and without [check_values]: the check never
    aborts the call.  With valid parameters the call returns the matrix of
    the clipped residuals, whatever [check_values] and the entries of [X];
    the data-quality warning is emitted exactly when [check_values] is
    true and some entry of [X] is not a non-negative integer, and it is
    followed by the two sums and the clipping of the residual computation.
    (Only this warning is spoken of: the trace does not record what numpy
    emits from inside an operation.) *)
Theorem C8_check_values_warning
  (X : ndarray float) (theta : float) (clip : option float) (copy : Z)
  (w : world float) :
  (forall check_values,
     fst (_pearson_residuals X theta clip check_values copy w)
     = fst (_pearson_residuals X theta clip false copy w)) /\
  (PrimFloat.ltb 0 theta = true ->
   (forall c, clip = Some c -> PrimFloat.leb 0 c = true) ->
   exists R,
     (well_shaped X -> residual_matrix X theta clip R) /\
     forall check_values,
     exists evs,
       _pearson_residuals X theta clip check_values copy w
       = (Ok R, World (heap w) (trace w ++ evs)) /\
       (In (EvWarn "UserWarning" count_msg) evs <->
        check_values = true /\
        exists i j x, entry X i j = Some x /\ F64.is_count x = false) /\
       sublist computation_events evs /\
       (In (EvWarn "UserWarning" count_msg) evs ->
        sublist (EvWarn "UserWarning" count_msg :: computation_events) evs)).
Proof.
  change F64.is_count with (s_is_count (F:=float)).
  setoid_rewrite <- (check_nonnegative_integers_false X).
  split.
  - intros cv. by rewrite !pearson_run.
  - intros Ht Hc.
    destruct (pearson_outcome_residual_matrix X theta clip Ht Hc)
      as (R & HR & Hres).
    exists R. split; [done|].
    intros cv. exists (pearson_events X theta clip cv copy).
    rewrite pearson_run, HR. split; [reflexivity|].
    pose proof (f64_theta_accepted _ Ht) as Ht'.
    pose proof (f64_clip_accepted X _ Hc) as Hc'.
    split; [rewrite warn_in_pearson_events; tauto|].
    unfold pearson_events, computation_events. rewrite Ht', Hc'.
    destruct (Py.truthy copy), cv, (check_nonnegative_integers X);
      cbn [app]; (split; [repeat constructor|]); intros Hin;
      first [ solve [exfalso; cbn [In] in Hin;
                     repeat (destruct Hin as [Hin|Hin]; [discriminate|]);
                     done]
            | solve [repeat constructor] ].
Qed.

(** On [Demo.X_fraction], whose entry [0.5] is not an integer, the call
    with [check_values=True] warns and returns the residuals. *)
Lemma C8_witness :
  exists R evs,
    _pearson_residuals Demo.X_fraction 100%float None true 0 Demo.w_empty
    = (Ok R, World ∅ evs) /\
    residual_matrix Demo.X_fraction 100%float None R /\
    sublist (EvWarn "UserWarning" count_msg :: computation_events) evs.
Proof.
  destruct (C8_check_values_warning Demo.X_fraction 100%float None 0%Z
              Demo.w_empty) as [_ Hvalid].
  destruct (Hvalid eq_refl) as (R & HR & Hrun); [discriminate|].
  destruct (Hrun true) as (evs & Hrun' & Hwarn & _ & Hsub).
  exists R, evs. split; [exact Hrun'|]. split.
  - apply HR. repeat constructor.
  - apply Hsub, Hwarn. split; [reflexivity|].
    exists 0, 1, 0.5%float. split; reflexivity.
Defined.

(** C9: with [copy=True] and [inplace=False] the call raises the
    [ValueError] "`copy=True` cannot be used with `inplace=False`." and
    leaves the world, trace included, as it was; with [copy=True] and
    [inplace=True] the call works on a new object: the caller's object and
    every other one are unchanged, the only object that differs is the new
    one, and a call that returns returns that object, which holds the
    residuals and the settings; with valid parameters it does return. *)
Theorem C9_copy_semantics
  (l : loc) (theta : float) (clip : option float) (check_values : bool)
  (layer : option string) (w : world float) :
  normalize_pearson_residuals l theta clip check_values layer false true w
  = (Raise (ValueError copy_msg), w) /\
  forall a, heap w !! l = Some a ->
    exists o w' l',
      normalize_pearson_residuals l theta clip check_values layer true true w
      = (o, w') /\
      l' <> l /\
      heap w !! l' = None /\
      heap w' !! l = Some a /\
      (forall k, k <> l' -> heap w' !! k = heap w !! k) /\
      (forall r, o = Ok r ->
         r = RetAnnData l' /\
         exists X R,
           get_rep a layer = Ok X /\
           pearson_outcome X theta clip = Ok R /\
           heap w' !! l' = Some (normalized a theta clip layer R)) /\
      (forall X,
         get_rep a layer = Ok X ->
         PrimFloat.ltb 0 theta = true ->
         (forall c, clip = Some c -> PrimFloat.leb 0 c = true) ->
         o = Ok (RetAnnData l')).
Proof.
  split; [reflexivity|]. intros a Hl.
  rewrite (normalize_run l a theta clip check_values layer true true w Hl)
    by done.
  cbv zeta.
  destruct (target_fresh w l a Hl) as [Hne Hnone].
  set (l' := target w l true) in *.
  assert (Hkeep : forall b, <[l' := b]> (heap w) !! l = Some a).
  { intros b. by rewrite lookup_insert_ne. }
  assert (Hrest : forall b k, k <> l' -> <[l' := b]> (heap w) !! k = heap w !! k).
  { intros b k Hk. by rewrite lookup_insert_ne. }
  destruct (get_rep a layer) as [X|e] eqn:HX.
  - destruct (pearson_outcome X theta clip) as [R|e] eqn:HR.
    + do 2 eexists. exists l'. split; [reflexivity|]. cbn [heap].
      split_and!; auto.
      * intros r [= <-]. split; [done|].
        exists X, R. by rewrite lookup_insert_eq.
    + do 2 eexists. exists l'. split; [reflexivity|]. cbn [heap].
      split_and!; auto; try done.
      intros X' [= <-] Ht Hc.
      destruct (pearson_outcome_ok X theta clip (f64_theta_accepted _ Ht)
                  (f64_clip_accepted X _ Hc)) as (R & HR' & _).
      congruence.
  - do 2 eexists. exists l'. split; [reflexivity|]. cbn [heap].
    split_and!; auto; done.
Qed.

Lemma C9_witness :
  normalize_pearson_residuals 1%positive 100%float None true None false true
    Demo.w_adata = (Raise (ValueError copy_msg), Demo.w_adata) /\
  exists o w' l',
    normalize_pearson_residuals 1%positive 100%float None true None true true
      Demo.w_adata = (o, w') /\
    l' <> 1%positive /\
    heap w' !! 1%positive = Some Demo.adata /\
    o = Ok (RetAnnData l').
Proof.
  destruct (C9_copy_semantics 1%positive 100%float None true None
              Demo.w_adata) as [Hreject Hcopy].
  split; [exact Hreject|].
  destruct (Hcopy Demo.adata (lookup_insert_eq _ _ _))
    as (o & w' & l' & Hrun & Hne & _ & Hl & _ & _ & Hret).
  exists o, w', l'. split_and!; try done.
  by apply (Hret Demo.X_counts).
Defined.

(** What a returning call returns, by flags. *)
Lemma return_value_by_flags
  (l : loc) (theta : float) (clip : option float) (check_values : bool)
  (layer : option string) (inplace copy : bool) (w w' : world float)
  (r : retval float) :
  normalize_pearson_residuals l theta clip check_values layer inplace copy w
  = (Ok r, w') ->
  exists a X R,
    heap w !! l = Some a /\
    get_rep a layer = Ok X /\
    pearson_outcome X theta clip = Ok R /\
    ((exists l', r = RetAnnData l') <-> copy = true) /\
    ((exists d, r = RetDict d) <-> inplace = false) /\
    (r = RetNone <-> inplace = true /\ copy = false) /\
    (forall l', r = RetAnnData l' ->
       l' <> l /\ heap w !! l' = None /\
       In (EvAnnDataCopy l l') (trace w') /\
       heap w' !! l' = Some (normalized a theta clip layer R) /\
       heap w' !! l = Some a) /\
    (forall d, r = RetDict d ->
       d = ("X", PyArray R) :: settings_dict theta clip (computed_on_of layer) /\
       dict_keys d = ["X"; "theta"; "clip"; "computed_on"]).
Proof.
  intros Hrun.
  destruct (heap w !! l) as [a|] eqn:Hl.
  2: { destruct (normalize_dangling l theta clip check_values layer inplace
                   copy w Hl) as (e & w0 & E). congruence. }
  exists a.
  destruct copy, inplace.
  2: { rewrite normalize_run_reject in Hrun. discriminate. }
  all: rewrite (normalize_run l a theta clip check_values layer _ _ w Hl)
    in Hrun by done.
  all: cbv zeta in Hrun.
  all: destruct (get_rep a layer) as [X|e] eqn:HX; [|discriminate].
  all: destruct (pearson_outcome X theta clip) as [R|e] eqn:HR;
    [|discriminate].
  all: injection Hrun as <- <-.
  all: exists X, R.
  all: split; [reflexivity|]. all: split; [reflexivity|].
  all: split; [exact HR|].
  - destruct (target_fresh w l a Hl) as [Hne Hnone].
    split_and!.
    + split; eauto.
    + split; [by intros [d ?]|done].
    + split; [done|by intros [? ?]].
    + intros l' [= <-]. cbn [heap trace].
      rewrite lookup_insert_eq, lookup_insert_ne by done.
      split_and!; try done.
      apply in_app_iff. right. unfold prologue. cbn. auto.
    + by intros d.
  - split_and!.
    + split; [by intros [? ?]|done].
    + split; [by intros [? ?]|done].
    + done.
    + by intros l'.
    + by intros d.
  - split_and!.
    + split; [by intros [? ?]|done].
    + split; eauto.
    + split; [done|by intros [? ?]].
    + by intros l'.
    + by intros d [= <-].
Qed.

(** C10: the value returned is determined by the flags.  A call that
    returns has read the selected matrix [X] of the caller's object [a]
    and obtained the residuals [R] of [X]; it returns the copied object
    exactly when [copy=True]: a new reference, made by [adata.copy()]
    from the caller's, that holds the contents of [a] with [R] in the
    place of [X] and the settings in [uns], the caller's object being as
    it was; it returns a dictionary exactly when [inplace=False], which
    holds [R] and the settings under the keys [X], [theta], [clip] and
    [computed_on]; and it returns [None] exactly when [inplace=True] and
    [copy=False].  With an existing matrix and valid parameters the call
    does return, except for [copy=True] with [inplace=False], which
    raises. *)
Theorem C10_return_value
  (l : loc) (theta : float) (clip : option float) (check_values : bool)
  (layer : option string) (inplace copy : bool) (w : world float) :
  (forall r w',
     normalize_pearson_residuals l theta clip check_values layer inplace copy
       w = (Ok r, w') ->
     exists a X R,
       heap w !! l = Some a /\
       get_rep a layer = Ok X /\
       pearson_outcome X theta clip = Ok R /\
       ((exists l', r = RetAnnData l') <-> copy = true) /\
       ((exists d, r = RetDict d) <-> inplace = false) /\
       (r = RetNone <-> inplace = true /\ copy = false) /\
       (forall l', r = RetAnnData l' ->
          l' <> l /\ heap w !! l' = None /\
          In (EvAnnDataCopy l l') (trace w') /\
          heap w' !! l' = Some (normalized a theta clip layer R) /\
          heap w' !! l = Some a) /\
       (forall d, r = RetDict d ->
          d = ("X", PyArray R)
              :: settings_dict theta clip (computed_on_of layer) /\
          dict_keys d = ["X"; "theta"; "clip"; "computed_on"])) /\
  (forall a X,
     heap w !! l = Some a ->
     get_rep a layer = Ok X ->
     PrimFloat.ltb 0 theta = true ->
     (forall c, clip = Some c -> PrimFloat.leb 0 c = true) ->
     (copy = true -> inplace = true) ->
     exists r w' R,
       normalize_pearson_residuals l theta clip check_values layer inplace
         copy w = (Ok r, w') /\
       pearson_outcome X theta clip = Ok R /\
       (well_shaped X -> residual_matrix X theta clip R)) /\
  (copy = true -> inplace = false ->
   normalize_pearson_residuals l theta clip check_values layer inplace copy w
   = (Raise (ValueError copy_msg), w)).
Proof.
  split_and!.
  - intros r w'. apply return_value_by_flags.
  - intros a X Hl HX Ht Hc Hflags.
    destruct (pearson_outcome_residual_matrix X theta clip Ht Hc)
      as (R & HR & Hres).
    rewrite (normalize_run l a theta clip check_values layer inplace copy w
               Hl Hflags).
    cbv zeta. rewrite HX, HR. destruct inplace; eauto 10.
  - intros -> ->. apply normalize_run_reject.
Qed.

(** The example run with [copy=True]: it returns. *)
Lemma demo_returns_copy :
  exists r w',
    normalize_pearson_residuals 1%positive 100%float None true None true
      true Demo.w_adata = (Ok r, w').
Proof.
  assert (Ht : theta_rejected 100%float = false) by reflexivity.
  destruct (pearson_outcome_ok Demo.X_counts 100%float None Ht
              (f64_clip_default_accepted _)) as (R & HR & _).
  rewrite (normalize_run 1%positive Demo.adata 100%float None true None true
             true Demo.w_adata (lookup_insert_eq _ _ _)) by done.
  cbv zeta. change (get_rep Demo.adata None) with (Ok Demo.X_counts).
  cbv iota beta. rewrite HR. eauto.
Qed.

(** On the example, the run with [copy=True] returns a new object that
    holds the residuals of [Demo.X_counts] and the settings, and leaves
    the caller's object as it was. *)
Lemma C10_witness :
  exists l' w' R,
    normalize_pearson_residuals 1%positive 100%float None true None true
      true Demo.w_adata = (Ok (RetAnnData l'), w') /\
    l' <> 1%positive /\
    pearson_outcome Demo.X_counts 100%float None = Ok R /\
    heap w' !! l' = Some (normalized Demo.adata 100%float None None R) /\
    heap w' !! 1%positive = Some Demo.adata.
Proof.
  destruct demo_returns_copy as (r & w' & Hrun).
  destruct (C10_return_value 1%positive 100%float None true None true true
              Demo.w_adata) as [Hret _].
  destruct (Hret r w' Hrun)
    as (a & X & R & Ha & HX & HR & Hcopy & _ & _ & Hobj & _).
  destruct (proj2 Hcopy eq_refl) as [l' ->].
  destruct (Hobj l' eq_refl) as (Hne & _ & _ & Hl' & Hl).
  assert (a = Demo.adata) as ->.
  { unfold Demo.w_adata in Ha. cbn [heap] in Ha.
    rewrite lookup_insert_eq in Ha. congruence. }
  injection HX as <-.
  exists l', w', R. by split_and!.
Defined.


(** * Beyond the claims *)

(** ** Comparisons, zeros and NaN in binary64 *)

Module F64Order.
Import F64 F64Facts F64Edge.

Lemma compare_cont_refl m : Pos.compare_cont Eq m m = Eq.
Proof. apply Pos.compare_cont_refl. Qed.

Lemma SFcompare_refl x : x <> S754_nan -> SFcompare x x = Some Eq.
Proof.
  destruct x as [s|s| |s m e]; simpl; intros Hx; try done.
  - by destruct s.
  - rewrite Z.compare_refl.
    change (PosDef.Pos.compare_cont Eq m m) with (Pos.compare_cont Eq m m).
    rewrite compare_cont_refl. by destruct s.
Qed.

Lemma ltb_irrefl x : PrimFloat.ltb x x = false.
Proof.
  rewrite ltb_spec. unfold SFltb.
  destruct (Prim2SF x) as [s|s| |s m e] eqn:E; try done.
  - by destruct s.
  - rewrite SFcompare_refl; done.
Qed.

(** a bound that passes the check [clip < 0] is not below its opposite *)
Lemma ltb_opp x :
  PrimFloat.ltb x 0 = false -> PrimFloat.ltb x (- x) = false.
Proof.
  rewrite !ltb_spec, opp_spec. change (Prim2SF 0) with (S754_zero false).
  by destruct (Prim2SF x) as [[]|[]| |[] m e].
Qed.

Lemma clip_scalar_within (c z : float) :
  PrimFloat.ltb c 0 = false ->
  PrimFloat.ltb (clip_scalar (- c)%float c z) (- c) = false /\
  PrimFloat.ltb c (clip_scalar (- c)%float c z) = false.
Proof.
  intros Hc. unfold clip_scalar; simpl.
  destruct (PrimFloat.ltb z (- c)) eqn:E1.
  { split; [apply ltb_irrefl|by apply ltb_opp]. }
  destruct (PrimFloat.ltb c z) eqn:E2.
  { split; [by apply ltb_opp|apply ltb_irrefl]. }
  done.
Qed.

Lemma ltb_neg_infinity x : PrimFloat.ltb x (- infinity) = false.
Proof.
  rewrite ltb_spec, opp_spec.
  change (Prim2SF infinity) with (S754_infinity false).
  by destruct (Prim2SF x) as [[]|[]| |[] m e].
Qed.

Lemma ltb_infinity x : PrimFloat.ltb infinity x = false.
Proof.
  rewrite ltb_spec. change (Prim2SF infinity) with (S754_infinity false).
  by destruct (Prim2SF x) as [[]|[]| |[] m e].
Qed.

Lemma clip_scalar_infinity (z : float) :
  clip_scalar (- infinity)%float infinity z = z.
Proof.
  unfold clip_scalar; simpl. by rewrite ltb_neg_infinity, ltb_infinity.
Qed.

Lemma is_nan_spec x : is_nan x = true <-> Prim2SF x = S754_nan.
Proof.
  unfold is_nan. rewrite FloatAxioms.eqb_spec. unfold SFeqb.
  destruct (Prim2SF x) as [s|s| |s m e] eqn:E; try done.
  - by destruct s.
  - by rewrite SFcompare_refl.
Qed.

Lemma eqb_zero x :
  PrimFloat.eqb x 0 = true -> exists s, Prim2SF x = S754_zero s.
Proof.
  rewrite FloatAxioms.eqb_spec. change (Prim2SF 0) with (S754_zero false).
  unfold SFeqb.
  destruct (Prim2SF x) as [s|s| |s m e]; simpl; try done; eauto;
    by destruct s.
Qed.

Lemma clip_scalar_nan (lo hi z : float) :
  is_nan z = true -> clip_scalar lo hi z = z.
Proof.
  rewrite is_nan_spec. intros Hz. unfold clip_scalar; simpl.
  rewrite !ltb_spec, Hz; simpl.
  by destruct (Prim2SF lo), (Prim2SF hi).
Qed.

(** *** zeros *)

Lemma zero_or_nan_zero x s : Prim2SF x = S754_zero s -> zero_or_nan x.
Proof. unfold zero_or_nan. by intros ->. Qed.

Lemma mul_zero_or_nan x z : zero_or_nan z -> zero_or_nan (x * z)%float.
Proof.
  unfold zero_or_nan. rewrite mul_spec.
  by destruct (Prim2SF x) as [sx|sx| |sx mx ex],
    (Prim2SF z) as [sz|sz| |sz mz ez].
Qed.

Lemma div_zero_or_nan z t : zero_or_nan z -> zero_or_nan (z / t)%float.
Proof.
  unfold zero_or_nan. rewrite div_spec.
  by destruct (Prim2SF z) as [sz|sz| |sz mz ez],
    (Prim2SF t) as [st|st| |st mt et].
Qed.

Lemma add_zero_or_nan x y :
  zero_or_nan x -> zero_or_nan y -> zero_or_nan (x + y)%float.
Proof.
  unfold zero_or_nan. rewrite add_spec.
  by destruct (Prim2SF x) as [[]|sx| |sx mx ex],
    (Prim2SF y) as [[]|sy| |sy my ey].
Qed.

Lemma sub_zero_or_nan x y :
  zero_or_nan x -> zero_or_nan y -> zero_or_nan (x - y)%float.
Proof.
  unfold zero_or_nan. rewrite sub_spec.
  by destruct (Prim2SF x) as [[]|sx| |sx mx ex],
    (Prim2SF y) as [[]|sy| |sy my ey].
Qed.

Lemma sqrt_zero_or_nan x : zero_or_nan x -> zero_or_nan (PrimFloat.sqrt x).
Proof.
  unfold zero_or_nan. rewrite sqrt_spec.
  by destruct (Prim2SF x) as [sx|sx| |sx mx ex].
Qed.

Lemma div_zero_or_nan_nan x y :
  zero_or_nan x -> zero_or_nan y -> is_nan (x / y)%float = true.
Proof.
  unfold zero_or_nan. rewrite is_nan_spec, div_spec.
  by destruct (Prim2SF x) as [sx|sx| |sx mx ex],
    (Prim2SF y) as [sy|sy| |sy my ey].
Qed.

(** the residual where the expected value is a zero (or NaN) and so is
    the entry *)
Lemma residual_zero_or_nan (x mu theta : float) :
  zero_or_nan x -> zero_or_nan mu -> is_nan (residual x mu theta) = true.
Proof.
  intros Hx Hm. unfold residual; simpl.
  apply div_zero_or_nan_nan; [by apply sub_zero_or_nan|].
  apply sqrt_zero_or_nan, add_zero_or_nan; [done|].
  by apply div_zero_or_nan, mul_zero_or_nan.
Qed.

Lemma add_zeros (x y : float) :
  (exists s, Prim2SF x = S754_zero s) ->
  (exists s, Prim2SF y = S754_zero s) ->
  exists s, Prim2SF (x + y) = S754_zero s.
Proof.
  intros [sx Hx] [sy Hy]. rewrite add_spec, Hx, Hy.
  destruct sx, sy; simpl; eauto.
Qed.

(** the sum of a column of zeros is a zero *)
Lemma col_sum_zero (X : ndarray float) j :
  (forall i x, entry X i j = Some x -> PrimFloat.eqb x 0 = true) ->
  exists s, Prim2SF (col_sum X j) = S754_zero s.
Proof.
  intros Hcol. unfold col_sum, column.
  apply (col_reduce_closed (fun y => exists s, Prim2SF y = S754_zero s));
    [by exists false|apply add_zeros|].
  rewrite Forall_forall. intros x Hx.
  apply list_elem_of_In, in_map_iff in Hx as (r & <- & Hr).
  apply list_elem_of_In, list_elem_of_lookup_1 in Hr as [i Hi].
  destruct (r !! j) as [x|] eqn:Hj.
  - rewrite (nth_lookup_Some r j s_zero x Hj).
    apply eqb_zero, (Hcol i). unfold entry. by rewrite Hi.
  - rewrite nth_overflow; [by exists false|].
    by apply lookup_ge_None.
Qed.

(** *** NaN as [theta] *)

Lemma leb_nan x y : is_nan x = true -> PrimFloat.leb x y = false.
Proof.
  rewrite is_nan_spec, FloatAxioms.leb_spec. by intros ->.
Qed.

Lemma residual_theta_nan (x mu theta : float) :
  is_nan theta = true -> is_nan (residual x mu theta) = true.
Proof.
  rewrite !is_nan_spec. intros Ht. unfold residual; simpl.
  rewrite div_spec, sqrt_spec, add_spec, div_spec, Ht.
  destruct (Prim2SF (x - mu)%float) as [s|s| |s m e],
    (Prim2SF mu) as [sm|sm| |sm mm em],
    (Prim2SF (mu * mu)%float) as [sq|sq| |sq mq eq]; done.
Qed.

End F64Order.

(** ** Further properties of [_pearson_residuals] *)

(** With parameters that pass the checks, the outcome is the clipped
    array. *)
Lemma pearson_outcome_clipped (X : ndarray float) theta clip :
  PrimFloat.ltb 0 theta = true ->
  (forall c, clip = Some c -> PrimFloat.leb 0 c = true) ->
  exists A,
    pearson_outcome X theta clip
    = Ok (clip_array A (- clip_bound X clip)%float (clip_bound X clip)) /\
    kind A = match kind X with Dask => Dask | _ => Dense end.
Proof.
  intros Ht Hc. rewrite pearson_outcome_unfold.
  rewrite (f64_theta_accepted theta Ht), (f64_clip_accepted X clip Hc).
  cbv zeta. eexists; split; [reflexivity|].
  unfold isinstance_DaskArray. by destruct (kind X).
Qed.

(** X1: every entry that [_pearson_residuals] returns lies within the
    clipping bounds: it is neither below [-clip] nor above [clip] (it is
    in between, or NaN), where [clip] is [sqrt(n)] by default. *)
Theorem X1_entries_within_clip
  (X : ndarray float) (theta : float) (clip : option float)
  (check_values : bool) (copy : Z) (w : world float) :
  PrimFloat.ltb 0 theta = true ->
  (forall c, clip = Some c -> PrimFloat.leb 0 c = true) ->
  exists R w',
    _pearson_residuals X theta clip check_values copy w = (Ok R, w') /\
    forall i j y, entry R i j = Some y ->
      PrimFloat.ltb y (- clip_bound X clip) = false /\
      PrimFloat.ltb (clip_bound X clip) y = false.
Proof.
  intros Ht Hc. rewrite pearson_run.
  destruct (pearson_outcome_clipped X theta clip Ht Hc) as (A & -> & _).
  eexists _, _; split; [reflexivity|].
  intros i j y. unfold clip_array. rewrite entry_map_array.
  destruct (entry A i j) as [z|]; [|done]. intros [= <-].
  apply F64Order.clip_scalar_within, (f64_clip_accepted X clip Hc).
Qed.

Lemma X1_witness :
  exists R w',
    _pearson_residuals Demo.X_counts 100%float (Some 0.5%float) true 0
      Demo.w_empty = (Ok R, w') /\
    forall i j y, entry R i j = Some y ->
      PrimFloat.ltb y (- 0.5) = false /\ PrimFloat.ltb 0.5 y = false.
Proof.
  apply (X1_entries_within_clip Demo.X_counts 100%float (Some 0.5%float)
           true 0 Demo.w_empty); [reflexivity|].
  intros c [= <-]. reflexivity.
Defined.

(** X2: with [clip = +inf] nothing is clipped: every entry returned is
    the residual itself. *)
Theorem X2_infinite_clip_keeps_residuals
  (X : ndarray float) (theta : float) (check_values : bool) (copy : Z)
  (w : world float) :
  well_shaped X ->
  PrimFloat.ltb 0 theta = true ->
  exists R w',
    _pearson_residuals X theta (Some infinity) check_values copy w
    = (Ok R, w') /\
    forall i j,
      entry R i j
      = (fun x => residual x (mu_entry X i j) theta) <$> entry X i j.
Proof.
  intros Hw Ht. rewrite pearson_run.
  destruct (pearson_outcome_ok X theta (Some infinity))
    as (R & -> & _ & _ & HR);
    [by apply f64_theta_accepted|by apply f64_clip_accepted; intros c [= <-]|].
  eexists _, _; split; [reflexivity|].
  intros i j. rewrite (HR Hw i j).
  destruct (entry X i j) as [x|]; [|done]. cbn [fmap option_fmap option_map].
  unfold clipped_residual, clipped, clip_bound.
  by rewrite F64Order.clip_scalar_infinity.
Qed.

Lemma X2_witness :
  exists R w',
    _pearson_residuals Demo.X_counts 100%float (Some infinity) true 0
      Demo.w_empty = (Ok R, w') /\
    entry R 0 0 = Some (residual 1 (mu_entry Demo.X_counts 0 0) 100)%float.
Proof.
  destruct (X2_infinite_clip_keeps_residuals Demo.X_counts 100%float true 0
              Demo.w_empty) as (R & w' & Hrun & HR).
  - by apply well_shapedb_correct.
  - reflexivity.
  - exists R, w'. split; [exact Hrun|]. by rewrite (HR 0 0).
Defined.

(** X3: a column of zeros (a gene without counts) gives NaN, not an
    error: its column sum is a zero, so is the expected value (unless it
    is NaN), and every entry of the column is [0/0]. *)
Theorem X3_zero_gene_gives_nan
  (X : ndarray float) (theta : float) (clip : option float)
  (check_values : bool) (copy : Z) (w : world float) (j : nat) :
  well_shaped X ->
  PrimFloat.ltb 0 theta = true ->
  (forall c, clip = Some c -> PrimFloat.leb 0 c = true) ->
  (forall i x, entry X i j = Some x -> PrimFloat.eqb x 0 = true) ->
  exists R w',
    _pearson_residuals X theta clip check_values copy w = (Ok R, w') /\
    forall i x, entry X i j = Some x ->
      exists y, entry R i j = Some y /\ F64.is_nan y = true.
Proof.
  intros Hw Ht Hc Hcol. rewrite pearson_run.
  destruct (pearson_outcome_ok X theta clip)
    as (R & -> & _ & _ & HR);
    [by apply f64_theta_accepted|by apply f64_clip_accepted|].
  eexists _, _; split; [reflexivity|].
  intros i x Hx. rewrite (HR Hw i j), Hx. eexists; split; [reflexivity|].
  unfold clipped_residual, clipped.
  assert (Hnan : F64.is_nan (residual x (mu_entry X i j) theta) = true).
  { apply F64Order.residual_zero_or_nan.
    - destruct (F64Order.eqb_zero x (Hcol i x Hx)) as [s Hs].
      by apply (F64Order.zero_or_nan_zero x s).
    - unfold mu_entry; simpl.
      apply F64Order.div_zero_or_nan, F64Order.mul_zero_or_nan.
      destruct (F64Order.col_sum_zero X j Hcol) as [s Hs].
      by apply (F64Order.zero_or_nan_zero _ s). }
  by rewrite F64Order.clip_scalar_nan.
Qed.

Lemma X3_witness :
  exists R w',
    _pearson_residuals (NDArray Dense 2 [[1; 0]; [3; 0]]%float) 100%float
      None true 0 Demo.w_empty = (Ok R, w') /\
    exists y, entry R 1 1 = Some y /\ F64.is_nan y = true.
Proof.
  destruct (X3_zero_gene_gives_nan (NDArray Dense 2 [[1; 0]; [3; 0]]%float)
              100%float None true 0 Demo.w_empty 1)
    as (R & w' & Hrun & HR).
  - by apply well_shapedb_correct.
  - reflexivity.
  - done.
  - intros [|[|i]] x; cbn; intros [= <-] || intros [=]; reflexivity.
  - exists R, w'. split; [exact Hrun|]. by apply (HR 1 0%float).
Defined.

(** X4: a NaN [theta] is not rejected ([NaN <= 0] is false): the call
    returns, and every entry returned is NaN. *)
Theorem X4_nan_theta_not_rejected
  (X : ndarray float) (theta : float) (clip : option float)
  (check_values : bool) (copy : Z) (w : world float) :
  well_shaped X ->
  F64.is_nan theta = true ->
  (forall c, clip = Some c -> PrimFloat.leb 0 c = true) ->
  exists R w',
    _pearson_residuals X theta clip check_values copy w = (Ok R, w') /\
    length (rows R) = length (rows X) /\
    forall i j x, entry X i j = Some x ->
      exists y, entry R i j = Some y /\ F64.is_nan y = true.
Proof.
  intros Hw Ht Hc. rewrite pearson_run.
  destruct (pearson_outcome_ok X theta clip)
    as (R & -> & _ & Hlen & HR);
    [by apply F64Order.leb_nan|by apply f64_clip_accepted|].
  eexists _, _; split; [reflexivity|]. split; [done|].
  intros i j x Hx. rewrite (HR Hw i j), Hx. eexists; split; [reflexivity|].
  unfold clipped_residual, clipped.
  rewrite F64Order.clip_scalar_nan; by apply F64Order.residual_theta_nan.
Qed.

Lemma X4_witness :
  exists R w',
    _pearson_residuals Demo.X_counts nan None true 0 Demo.w_empty
    = (Ok R, w') /\
    exists y, entry R 0 0 = Some y /\ F64.is_nan y = true.
Proof.
  destruct (X4_nan_theta_not_rejected Demo.X_counts nan None true 0
              Demo.w_empty) as (R & w' & Hrun & _ & HR).
  - by apply well_shapedb_correct.
  - reflexivity.
  - done.
  - exists R, w'. split; [exact Hrun|]. by apply (HR 0 0 1%float).
Defined.

(** X5: the array returned is chunked when the input is, and dense
    otherwise: the residuals of a sparse matrix are a dense array. *)
Theorem X5_result_backend
  (X : ndarray float) (theta : float) (clip : option float)
  (check_values : bool) (copy : Z) (w : world float) :
  PrimFloat.ltb 0 theta = true ->
  (forall c, clip = Some c -> PrimFloat.leb 0 c = true) ->
  exists R w',
    _pearson_residuals X theta clip check_values copy w = (Ok R, w') /\
    kind R = match kind X with Dask => Dask | Dense | Sparse => Dense end.
Proof.
  intros Ht Hc. rewrite pearson_run.
  destruct (pearson_outcome_clipped X theta clip Ht Hc) as (A & -> & HA).
  eexists _, _; split; [reflexivity|]. exact HA.
Qed.

Lemma X5_witness :
  exists R w',
    _pearson_residuals (NDArray Sparse 2 [[1; 2]; [3; 0]]%float) 100%float
      None true 0 Demo.w_empty = (Ok R, w') /\
    kind R = Dense.
Proof.
  apply (X5_result_backend (NDArray Sparse 2 [[1; 2]; [3; 0]]%float)
           100%float None true 0 Demo.w_empty); [reflexivity|done].
Defined.

(** X6: a matrix without rows is returned as it is, dense unless
    chunked: no error (the default bound is [sqrt(0)]), and no warning
    when the values are checked. *)
Theorem X6_empty_matrix
  (k : backend) (n : nat) (theta : float) (clip : option float)
  (check_values : bool) (copy : Z) (w : world float) :
  PrimFloat.ltb 0 theta = true ->
  (forall c, clip = Some c -> PrimFloat.leb 0 c = true) ->
  _pearson_residuals (NDArray k n []) theta clip check_values copy w
  = (Ok (NDArray (match k with Dask => Dask | _ => Dense end) n []),
     World (heap w)
           (trace w ++
            (if Py.truthy copy then [EvArrayCopy] else []) ++
            (if check_values then [EvCheckNonnegativeIntegers] else []) ++
            [EvAxisSum 0; EvAxisSum 1; EvClipArray])).
Proof.
  intros Ht Hc. rewrite pearson_run, pearson_outcome_unfold.
  unfold pearson_events, log.
  rewrite (f64_theta_accepted theta Ht),
    (f64_clip_accepted (NDArray k n []) clip Hc).
  by destruct k, check_values.
Qed.

Lemma X6_witness :
  _pearson_residuals (NDArray Sparse 3 []) 100%float None true 0 Demo.w_empty
  = (Ok (NDArray Dense 3 []),
     World ∅ [EvCheckNonnegativeIntegers; EvAxisSum 0; EvAxisSum 1;
              EvClipArray]).
Proof.
  apply (X6_empty_matrix Sparse 3 100%float None true 0 Demo.w_empty);
    [reflexivity|done].
Defined.

(** ** Further properties of [normalize_pearson_residuals] *)

(** X7: [normalize_pearson_residuals] has the matrix copied in every run
    that reaches [_pearson_residuals], with [inplace=True] as with
    [inplace=False]: the argument [copy=~inplace] is [-1] or [-2], never
    zero.  The copy is the first thing after the log line, whatever the
    parameters. *)
Theorem X7_matrix_copied_whatever_inplace
  {F : Type} `{Scalar F}
  (l : loc) (a : AnnData F) (X : ndarray F) (theta : F) (clip : option F)
  (check_values : bool) (layer : option string) (inplace copy : bool)
  (w : world F) :
  heap w !! l = Some a ->
  (copy = true -> inplace = true) ->
  get_rep a layer = Ok X ->
  Py.truthy (Py.invert (Py.of_bool inplace)) = true /\
  exists o w' post,
    normalize_pearson_residuals l theta clip check_values layer inplace copy w
    = (o, w') /\
    trace w' = trace w ++ prologue l (target w l copy) layer copy ++
               [EvLogInfo (start_msg layer); EvArrayCopy] ++ post.
Proof.
  intros Hl Hflags HX. split; [apply truthy_invert_bool|].
  rewrite (normalize_run l a theta clip check_values layer inplace copy w Hl
             Hflags).
  cbv zeta. rewrite HX.
  unfold pearson_events. rewrite truthy_invert_bool.
  destruct (pearson_outcome X theta clip) as [R|e]; [destruct inplace|];
    eexists _, _, _; (split; [reflexivity|]); cbn [trace];
    rewrite <- ?app_assoc; cbn [app]; reflexivity.
Qed.

Lemma X7_witness :
  exists o w' post,
    normalize_pearson_residuals 1%positive 100%float None true None true false
      Demo.w_adata = (o, w') /\
    trace w' = [EvViewToActual 1%positive; EvGetObsRep 1%positive None;
                EvLogInfo "computing analytic Pearson residuals on adata.X";
                EvArrayCopy] ++ post.
Proof.
  apply (X7_matrix_copied_whatever_inplace 1%positive Demo.adata Demo.X_counts
           100%float None true None true false Demo.w_adata);
    [reflexivity|done|reflexivity].
Defined.

(** X8: a layer that does not exist.  The call raises [KeyError] with
    the name of the layer; by then it has made the object actual (and
    copied it, for [copy=True]) and nothing else: no log line, no pass
    over a matrix, and [X], the layers and [uns] of the caller's object
    are as they were. *)
Theorem X8_missing_layer
  {F : Type} `{Scalar F}
  (l : loc) (a : AnnData F) (theta : F) (clip : option F)
  (check_values : bool) (key : string) (inplace copy : bool) (w : world F) :
  heap w !! l = Some a ->
  (copy = true -> inplace = true) ->
  adata_layers a !! key = None ->
  exists w' a',
    normalize_pearson_residuals l theta clip check_values (Some key) inplace
      copy w = (Raise (KeyError key), w') /\
    trace w' = trace w ++
               (if copy then [EvAnnDataCopy l (fresh (dom (heap w)))] else []) ++
               [EvViewToActual (target w l copy);
                EvGetObsRep (target w l copy) (Some key)] /\
    heap w' !! l = Some a' /\
    same_contents a a' /\
    (forall l', heap w !! l' <> None -> l' <> l -> heap w' !! l' = heap w !! l').
Proof.
  intros Hl Hflags Hk.
  assert (Hrep : get_rep a (Some key) = Raise (KeyError key)).
  { unfold get_rep. by rewrite Hk. }
  rewrite (normalize_missing_layer l a theta clip check_values (Some key)
             inplace copy w _ Hl Hflags Hrep).
  destruct (lookup_after_prologue w l a copy Hl) as (a' & Ha' & Hsame).
  eexists _, a'; split_and!;
    [reflexivity|by destruct copy|exact Ha'|exact Hsame|].
  intros l' Hex Hne. cbn [heap]. apply lookup_insert_ne.
  destruct copy; unfold target; [|done].
  intros <-. apply Hex, not_elem_of_dom, is_fresh.
Qed.

Lemma X8_witness :
  exists w' a',
    normalize_pearson_residuals 1%positive 100%float None true (Some "raw")
      true false Demo.w_adata = (Raise (KeyError "raw"), w') /\
    trace w' = [EvViewToActual 1%positive;
                EvGetObsRep 1%positive (Some "raw")] /\
    heap w' !! 1%positive = Some a' /\
    same_contents Demo.adata a'.
Proof.
  destruct (X8_missing_layer 1%positive Demo.adata 100%float None true "raw"
              true false Demo.w_adata) as (w' & a' & Hrun & Htr & Ha & Hs & _);
    [reflexivity|done|reflexivity|].
  by exists w', a'.
Defined.

(** X9: what an in-place run leaves alone.  With a layer selected,
    [adata.X] and every other layer are as before; with none selected,
    every layer is; every key of [uns] other than
    ["pearson_residuals_normalization"] is as before, every other object
    is untouched, and the object is not a view afterwards. *)
Theorem X9_inplace_frame
  (l : loc) (a : AnnData float) (X : ndarray float) (theta : float)
  (clip : option float) (check_values : bool) (layer : option string)
  (w : world float) :
  heap w !! l = Some a ->
  get_rep a layer = Ok X ->
  PrimFloat.ltb 0 theta = true ->
  (forall c, clip = Some c -> PrimFloat.leb 0 c = true) ->
  exists w' a',
    normalize_pearson_residuals l theta clip check_values layer true false w
    = (Ok RetNone, w') /\
    heap w' !! l = Some a' /\
    (layer <> None -> adata_X a' = adata_X a) /\
    (forall key, layer <> Some key ->
       adata_layers a' !! key = adata_layers a !! key) /\
    (forall key, key <> uns_key ->
       adata_uns a' !! key = adata_uns a !! key) /\
    adata_is_view a' = false /\
    (forall l', l' <> l -> heap w' !! l' = heap w !! l').
Proof.
  intros Hl HX Ht Hc.
  rewrite (normalize_run l a theta clip check_values layer true false w Hl)
    by done.
  cbv zeta. rewrite HX.
  destruct (pearson_outcome_ok X theta clip) as (R & -> & _);
    [by apply f64_theta_accepted|by apply f64_clip_accepted|].
  unfold target. eexists _, _; split_and!; [reflexivity|..].
  - apply lookup_insert_eq.
  - intros Hlayer. by destruct layer.
  - intros key Hkey. destruct layer as [k|]; cbn; [|done].
    apply lookup_insert_ne. congruence.
  - intros key Hkey. unfold normalized, set_uns. cbn [adata_uns].
    rewrite lookup_insert_ne by done. by destruct layer.
  - by destruct layer.
  - intros l' Hne. cbn [heap]. by apply lookup_insert_ne.
Qed.

Lemma X9_witness :
  exists w' a',
    normalize_pearson_residuals 1%positive 100%float None true (Some "counts")
      true false Demo.w_adata = (Ok RetNone, w') /\
    heap w' !! 1%positive = Some a' /\
    adata_X a' = Demo.X_counts /\
    adata_is_view a' = false.
Proof.
  destruct (X9_inplace_frame 1%positive Demo.adata Demo.X_fraction 100%float
              None true (Some "counts") Demo.w_adata)
    as (w' & a' & Hrun & Ha & HX & _ & _ & Hv & _);
    [reflexivity|reflexivity|reflexivity|done|].
  exists w', a'. split_and!; [done|done|by apply HX|done].
Defined.

(** ** Running the pipeline *)

Section PipelineRun.
Context {F : Type} `{Scalar F}.
Context {kwargs : Type}.
Variable hmv :
  AnnData F -> annotations F -> mask_arg -> option bool ->
  result (option (list bool)).
Variable fit : ndarray F -> option nat -> Z -> kwargs -> result (pca_output F).

Lemma new_AnnData_run X (w : pworld F) :
  let lp := fresh (dom (heap (base w))) in
  new_AnnData X w
  = (Done lp,
     PWorld (World (<[lp := MkAnnData X ∅ ∅ false]> (heap (base w)))
                   (trace (base w)))
            (<[lp := no_annotations]> (anns w)) (calls w)).
Proof. reflexivity. Qed.

Lemma handle_mask_var_run l a mask_var use_hv (w : pworld F) :
  heap (base w) !! l = Some a ->
  _handle_mask_var hmv l mask_var use_hv w
  = (hmv a (annotations_of w l) mask_var use_hv,
     PWorld (base w) (anns w) (calls w ++ [CallHandleMaskVar l])).
Proof.
  intros Hl.
  unfold _handle_mask_var, mbind, P_bind, pbind, record_call, lift, load,
    get_annotations, of_result.
  cbn [base anns calls]. by rewrite Hl.
Qed.

Lemma annotations_of_insert_eq l n b (m : gmap loc (annotations F)) c :
  annotations_of (PWorld b (<[l := n]> m) c) l = n.
Proof. unfold annotations_of; cbn [anns]. by rewrite lookup_insert_eq. Qed.

Lemma annotations_of_insert_ne l l' n b (m : gmap loc (annotations F)) c :
  l' <> l ->
  annotations_of (PWorld b (<[l' := n]> m) c) l
  = annotations_of (PWorld b m c) l.
Proof.
  intros Hne. unfold annotations_of; cbn [anns].
  by rewrite lookup_insert_ne.
Qed.

Lemma pca_run l a n_comps random_state kw (w : pworld F) :
  heap (base w) !! l = Some a ->
  pca fit l n_comps random_state kw w
  = let cs := calls w ++ [CallPca l n_comps random_state] in
    match fit (adata_X a) n_comps random_state kw with
    | Failed e => (Failed e, PWorld (base w) (anns w) cs)
    | Done out =>
        (Done tt,
         PWorld (World (<[l := set_uns a "pca" (pca_info out)]> (heap (base w)))
                       (trace (base w)))
                (<[l := set_varm (set_obsm (annotations_of w l) "X_pca"
                                           (pca_scores out))
                                 "PCs" (pca_loadings out)]> (anns w))
                cs)
    end.
Proof.
  intros Hl. cbv zeta.
  unfold pca, mbind, P_bind, pbind, record_call, lift, load, of_result.
  cbn [base anns calls]. rewrite Hl.
  destruct (fit (adata_X a) n_comps random_state kw) as [out|e]; [|done].
  unfold obsm_setitem, varm_setitem, mbind, P_bind, pbind, get_annotations,
    set_annotations.
  cbn [base anns calls].
  rewrite annotations_of_insert_eq.
  rewrite (uns_setitem_run l a) by done.
  by rewrite insert_insert_eq.
Qed.

Lemma obsm_getitem_run l key (w : pworld F) :
  obsm_getitem l key w
  = (match ann_obsm (annotations_of w l) !! key with
     | Some A => Done A
     | None => Failed (Exn (KeyError key))
     end, w).
Proof.
  unfold obsm_getitem, mbind, P_bind, pbind, get_annotations.
  by destruct (ann_obsm (annotations_of w l) !! key).
Qed.

Lemma varm_getitem_run l key (w : pworld F) :
  varm_getitem l key w
  = (match ann_varm (annotations_of w l) !! key with
     | Some A => Done A
     | None => Failed (Exn (KeyError key))
     end, w).
Proof.
  unfold varm_getitem, mbind, P_bind, pbind, get_annotations.
  by destruct (ann_varm (annotations_of w l) !! key).
Qed.

Lemma obsm_setitem_run l key A (w : pworld F) :
  obsm_setitem l key A w
  = (Done tt,
     PWorld (base w) (<[l := set_obsm (annotations_of w l) key A]> (anns w))
            (calls w)).
Proof. reflexivity. Qed.

Lemma varm_setitem_run l key A (w : pworld F) :
  varm_setitem l key A w
  = (Done tt,
     PWorld (base w) (<[l := set_varm (annotations_of w l) key A]> (anns w))
            (calls w)).
Proof. reflexivity. Qed.

Lemma uns_getitem_run l a key (w : pworld F) :
  heap (base w) !! l = Some a ->
  uns_getitem l key w
  = (match adata_uns a !! key with
     | Some d => Done d
     | None => Failed (Exn (KeyError key))
     end, PWorld (base w) (anns w) (calls w)).
Proof.
  intros Hl. unfold uns_getitem, mbind, P_bind, pbind, lift, load.
  rewrite Hl. by destruct (adata_uns a !! key).
Qed.

Lemma to_df_run l a (w : pworld F) :
  heap (base w) !! l = Some a ->
  to_df l w = (Done (adata_X a), PWorld (base w) (anns w) (calls w)).
Proof.
  intros Hl. unfold to_df, mbind, P_bind, pbind, lift, load. by rewrite Hl.
Qed.

Lemma lift_uns_setitem_run l a key d (w : pworld F) :
  heap (base w) !! l = Some a ->
  lift (uns_setitem l key d) w
  = (Done tt,
     PWorld (World (<[l := set_uns a key d]> (heap (base w))) (trace (base w)))
            (anns w) (calls w)).
Proof. intros Hl. unfold lift. by rewrite (uns_setitem_run l a). Qed.

Lemma dict_kw_settings (theta : F) clip computed_on v :
  dict_kw (settings_dict theta clip computed_on) "pearson_residuals_df" v
  = Done (settings_dict theta clip computed_on ++
          [("pearson_residuals_df", v)]).
Proof.
  unfold dict_kw. rewrite bool_decide_eq_false_2; [done|].
  cbn [dict_keys settings_dict map fst]. intros Hin.
  repeat (apply elem_of_cons in Hin as [Hin|Hin]; [discriminate|]).
  by apply elem_of_nil in Hin.
Qed.

(** The world in which the new object is made: the objects that
    existed are there, with their annotations. *)
Lemma input_world_heap (w : pworld F) l a mask X l' :
  heap (base w) !! l' <> None ->
  heap (base (input_world w l a mask X)) !! l' = heap (base w) !! l'.
Proof.
  intros Hex. destruct mask as [m|]; [|done]. cbn [input_world base heap].
  apply lookup_insert_ne. intros E. apply Hex. rewrite <- E.
  apply not_elem_of_dom, is_fresh.
Qed.

Lemma input_world_annotations (w : pworld F) l a mask X l' b c :
  heap (base w) !! l' <> None ->
  annotations_of (PWorld b (anns (input_world w l a mask X)) c) l'
  = annotations_of w l'.
Proof.
  intros Hex. destruct mask as [m|]; [|done]. cbn [input_world anns].
  apply annotations_of_insert_ne. intros E. apply Hex. rewrite <- E.
  apply not_elem_of_dom, is_fresh.
Qed.

Lemma input_world_fresh (w : pworld F) l a mask X :
  heap (base w) !! fresh (dom (heap (base (input_world w l a mask X))))
  = None.
Proof.
  destruct (heap (base w) !! _) eqn:E; [|done]. exfalso.
  pose proof (input_world_heap w l a mask X _ ltac:(by rewrite E)) as E'.
  rewrite E in E'.
  pose proof (is_fresh (dom (heap (base (input_world w l a mask X))))) as Hf.
  apply not_elem_of_dom in Hf. congruence.
Qed.

Lemma input_world_not_fresh (w : pworld F) l a mask X l' :
  heap (base w) !! l' <> None ->
  l' <> fresh (dom (heap (base (input_world w l a mask X)))).
Proof. intros Hex ->. apply Hex, input_world_fresh. Qed.

Lemma input_world_trace (w : pworld F) l a mask X :
  trace (base (input_world w l a mask X))
  = trace (base w) ++
    match mask with
    | Some _ => [EvAnnDataCopy l (fresh (dom (heap (base w))))]
    | None => []
    end.
Proof. destruct mask; [done|by rewrite app_nil_r]. Qed.

Lemma pipeline_run l a theta clip n_comps rs kw mask_var use_hv cv inplace
  (w : pworld F) :
  heap (base w) !! l = Some a ->
  let n := annotations_of w l in
  let c1 := calls w ++ [CallHandleMaskVar l] in
  normalize_pearson_residuals_pca hmv fit l theta clip n_comps rs kw mask_var
    use_hv cv inplace w
  = match hmv a n mask_var use_hv with
    | Failed e => (Failed e, PWorld (base w) (anns w) c1)
    | Done mask =>
      match pca_input a mask with
      | Failed e => (Failed e, PWorld (base w) (anns w) c1)
      | Done X =>
        let w0 := input_world w l a mask X in
        let h0 := heap (base w0) in
        let lp := fresh (dom h0) in
        let c2 := c1 ++ [CallPca lp n_comps rs] in
        let tr1 := trace (base w0) ++ pipeline_events lp X theta clip cv in
        match pearson_outcome X theta clip with
        | Raise e =>
            (Failed (Exn e),
             PWorld (World (<[lp := MkAnnData X ∅ ∅ false]> h0) tr1)
                    (<[lp := no_annotations]> (anns w0)) c1)
        | Ok R =>
          let tr2 := tr1 ++ [EvSetObsRep lp None; EvLogInfo finish_msg] in
          match fit R n_comps rs kw with
          | Failed e =>
              (Failed e,
               PWorld (World (<[lp := residuals_object X R theta clip]> h0)
                             tr2)
                      (<[lp := no_annotations]> (anns w0)) c2)
          | Done out =>
            let h2 := <[lp := fitted_object X R theta clip out]> h0 in
            let n2 := <[lp := fitted_annotations out]> (anns w0) in
            if inplace then
              match caller_PCs a mask out with
              | Failed e =>
                  (Failed e,
                   PWorld (World h2 tr2)
                     (<[l := set_varm n "PCs"
                               (zeros (ncols (adata_X a))
                                      (ncols (pca_scores out)))]> n2) c2)
              | Done PCs =>
                  (Done None,
                   PWorld
                     (World (<[l := set_uns (set_uns a "pca" (pca_info out))
                                      uns_key (norm_dict R theta clip)]> h2)
                            tr2)
                     (<[l := set_obsm (set_varm n "PCs" PCs) "X_pca"
                                      (pca_scores out)]> n2) c2)
              end
            else (Done (Some lp), PWorld (World h2 tr2) n2 c2)
          end
        end
      end
    end.
Proof.
  intros Hl. cbv zeta.
  unfold normalize_pearson_residuals_pca.
  unfold mbind at 1, P_bind at 1, pbind at 1.
  rewrite (handle_mask_var_run l a _ _ w Hl).
  destruct (hmv a (annotations_of w l) mask_var use_hv) as [mask|e]; [|done].
  assert (Hnew :
    match mask with
    | Some mask0 =>
        getitem_columns_copy l mask0
        ≫= λ adata_sub : loc,
             lift (load adata_sub)
             ≫= λ adata_sub0 : AnnData F,
                  lift (array_copy (adata_X adata_sub0))
                  ≫= λ X : ndarray F, new_AnnData X
    | None =>
        lift (load l)
        ≫= λ a0 : AnnData F,
             lift (array_copy (adata_X a0))
             ≫= λ X : ndarray F, new_AnnData X
    end (PWorld (base w) (anns w) (calls w ++ [CallHandleMaskVar l]))
    = match pca_input a mask with
      | Failed e =>
          (Failed e, PWorld (base w) (anns w) (calls w ++ [CallHandleMaskVar l]))
      | Done X =>
          let w0 := input_world w l a mask X in
          let lp := fresh (dom (heap (base w0))) in
          (Done lp,
           PWorld (World (<[lp := MkAnnData X ∅ ∅ false]> (heap (base w0)))
                         (trace (base w0) ++ [EvArrayCopy]))
                  (<[lp := no_annotations]> (anns w0))
                  (calls w ++ [CallHandleMaskVar l]))
      end).
  { destruct mask as [m|]; cbn [pca_input].
    - unfold getitem_columns_copy, mbind, P_bind, pbind, lift, load,
        of_result, array_copy, emit, alloc, get_annotations, set_annotations,
        M_bind, bind, mret, M_ret, ret, P_ret, pret.
      cbn [base anns calls heap trace]. rewrite Hl.
      destruct (getitem_columns (adata_X a) m) as [X|e]; [|done].
      cbn [base anns calls heap trace fst snd]. rewrite lookup_insert_eq.
      reflexivity.
    - unfold mbind, P_bind, pbind, lift, load, of_result, array_copy, emit,
        M_bind, bind, mret, M_ret, ret; cbn [base anns calls heap trace].
      by rewrite Hl. }
  unfold mbind at 1, P_bind at 1, pbind at 1.
  rewrite Hnew. clear Hnew.
  destruct (pca_input a mask) as [X|e]; [|done]. cbv zeta.
  assert (Hl0 : heap (base (input_world w l a mask X)) !! l = Some a).
  { rewrite input_world_heap; [done|congruence]. }
  assert (Hlp : heap (base (input_world w l a mask X))
                !! fresh (dom (heap (base (input_world w l a mask X)))) = None).
  { apply not_elem_of_dom, is_fresh. }
  assert (Hne : fresh (dom (heap (base (input_world w l a mask X)))) <> l).
  { intros E. rewrite E in Hlp. congruence. }
  assert (Hn0 : forall b c,
            annotations_of (PWorld b (anns (input_world w l a mask X)) c) l
            = annotations_of w l).
  { intros b c. apply input_world_annotations. congruence. }
  set (h0 := heap (base (input_world w l a mask X))) in *.
  set (tr0 := trace (base (input_world w l a mask X))) in *.
  set (n0 := anns (input_world w l a mask X)) in *.
  set (lp := fresh (dom h0)) in *.
  assert (Hnorm : forall c (ns : gmap loc (annotations F)),
    lift (normalize_pearson_residuals lp theta clip cv None true false)
      (PWorld (World (<[lp := MkAnnData X ∅ ∅ false]> h0)
                     (tr0 ++ [EvArrayCopy])) ns c)
    = match pearson_outcome X theta clip with
      | Raise e =>
          (Failed (Exn e),
           PWorld (World (<[lp := MkAnnData X ∅ ∅ false]> h0)
                         (tr0 ++ pipeline_events lp X theta clip cv))
                  ns c)
      | Ok R =>
          (Done RetNone,
           PWorld (World (<[lp := residuals_object X R theta clip]> h0)
                         ((tr0 ++ pipeline_events lp X theta clip cv)
                          ++ [EvSetObsRep lp None; EvLogInfo finish_msg]))
                  ns c)
      end).
  { intros c ns. unfold lift. cbn [base anns calls].
    rewrite (normalize_run lp (MkAnnData X ∅ ∅ false) theta clip cv None true
               false) by (try apply lookup_insert_eq; done).
    cbv zeta. unfold target, prologue, pipeline_events, residuals_object.
    cbn [get_rep heap trace app].
    change (actual (MkAnnData X ∅ ∅ false)) with (MkAnnData (F:=F) X ∅ ∅ false).
    cbn [adata_X].
    destruct (pearson_outcome X theta clip) as [R|e];
      rewrite !insert_insert_eq, <- !app_assoc; reflexivity. }
  unfold mbind at 1, P_bind at 1, pbind at 1.
  rewrite Hnorm. clear Hnorm.
  destruct (pearson_outcome X theta clip) as [R|e]; [|done].
  unfold mbind at 1, P_bind at 1, pbind at 1.
  rewrite (pca_run lp (residuals_object X R theta clip))
    by apply lookup_insert_eq.
  cbv zeta. cbn [base anns calls heap trace].
  change (adata_X (residuals_object X R theta clip)) with R.
  destruct (fit R n_comps rs kw) as [out|e]; [|done].
  rewrite insert_insert_eq, annotations_of_insert_eq, insert_insert_eq.
  fold (fitted_object X R theta clip out).
  change (set_varm (set_obsm no_annotations "X_pca" (pca_scores out)) "PCs"
            (pca_loadings out)) with (fitted_annotations out).
  set (h2 := <[lp:=fitted_object X R theta clip out]> h0).
  set (tr2 := (tr0 ++ pipeline_events lp X theta clip cv) ++
              [EvSetObsRep lp None; EvLogInfo finish_msg]).
  set (c2 := (calls w ++ [CallHandleMaskVar l]) ++ [CallPca lp n_comps rs]).
  assert (Hp : h2 !! lp = Some (fitted_object X R theta clip out))
    by apply lookup_insert_eq.
  assert (Hc : h2 !! l = Some a) by (unfold h2; by rewrite lookup_insert_ne).
  unfold mbind at 1, P_bind at 1, pbind at 1.
  rewrite obsm_getitem_run, annotations_of_insert_eq.
  unfold fitted_annotations at 1. cbn [ann_obsm].
  rewrite lookup_insert_eq.
  destruct inplace; [|done].
  unfold mbind at 1, P_bind at 1, pbind at 1.
  rewrite (uns_getitem_run lp (fitted_object X R theta clip out)) by done.
  cbn [base anns calls].
  assert (Hs : adata_uns (fitted_object X R theta clip out) !! uns_key
               = Some (settings_dict theta clip "adata.X")).
  { unfold fitted_object, residuals_object, normalized, set_uns.
    cbn [adata_uns]. rewrite lookup_insert_ne by done.
    by rewrite lookup_insert_eq. }
  rewrite Hs.
  unfold mbind at 1, P_bind at 1, pbind at 1.
  rewrite (to_df_run lp (fitted_object X R theta clip out)) by done.
  cbn [base anns calls].
  change (adata_X (fitted_object X R theta clip out)) with R.
  unfold mbind at 1, P_bind at 1, pbind at 1.
  unfold of_result at 1. rewrite dict_kw_settings.
  fold (norm_dict R theta clip).
  set (n2 := <[lp:=fitted_annotations out]> n0).
  assert (Hn2 : forall b c, annotations_of (PWorld b n2 c) l
                            = annotations_of w l).
  { intros b c. unfold n2. rewrite annotations_of_insert_ne by done.
    apply Hn0. }
  assert (Hn2p : forall b c x,
            annotations_of (PWorld b (<[l := x]> n2) c) lp
            = fitted_annotations out).
  { intros b c x. rewrite annotations_of_insert_ne by done.
    apply annotations_of_insert_eq. }
  unfold mbind at 1, P_bind at 1, pbind at 1.
  assert (Hvarm :
    match mask with
    | Some mask0 =>
        lift (load l)
        ≫= λ a0 : AnnData F,
             varm_setitem l "PCs"
               (zeros (ncols (adata_X a0)) (ncols (pca_scores out)))
             ≫= λ _ : (),
                  varm_getitem lp "PCs"
                  ≫= λ PCs : ndarray F,
                       varm_getitem l "PCs"
                       ≫= λ Z : ndarray F,
                            of_result (setitem_rows Z mask0 PCs)
                            ≫= λ Z0 : ndarray F, varm_setitem l "PCs" Z0
    | None =>
        varm_getitem lp "PCs" ≫= λ PCs : ndarray F, varm_setitem l "PCs" PCs
    end (PWorld (World h2 tr2) n2 c2)
    = match caller_PCs a mask out with
      | Done PCs =>
          (Done tt,
           PWorld (World h2 tr2)
                  (<[l := set_varm (annotations_of w l) "PCs" PCs]> n2) c2)
      | Failed e =>
          (Failed e,
           PWorld (World h2 tr2)
                  (<[l := set_varm (annotations_of w l) "PCs"
                            (zeros (ncols (adata_X a))
                                   (ncols (pca_scores out)))]> n2) c2)
      end).
  { destruct mask as [m|]; cbn [caller_PCs].
    - unfold mbind at 1, P_bind at 1, pbind at 1.
      unfold lift at 1, load at 1. cbn [base heap anns calls]. rewrite Hc.
      unfold mbind at 1, P_bind at 1, pbind at 1.
      rewrite varm_setitem_run, Hn2. cbn [base anns calls].
      unfold mbind at 1, P_bind at 1, pbind at 1.
      rewrite varm_getitem_run, Hn2p.
      unfold fitted_annotations at 1. cbn [ann_varm].
      rewrite lookup_insert_eq.
      unfold mbind at 1, P_bind at 1, pbind at 1.
      rewrite varm_getitem_run, annotations_of_insert_eq.
      unfold set_varm at 1. cbn [ann_varm]. rewrite lookup_insert_eq.
      unfold mbind at 1, P_bind at 1, pbind at 1. unfold of_result at 1.
      destruct (setitem_rows _ m (pca_loadings out)) as [Z|e]; [|done].
      rewrite varm_setitem_run, annotations_of_insert_eq.
      cbn [base anns calls]. rewrite insert_insert_eq.
      unfold set_varm. cbn [ann_var ann_obsm ann_varm].
      by rewrite insert_insert_eq.
    - unfold mbind at 1, P_bind at 1, pbind at 1.
      rewrite varm_getitem_run. unfold n2 at 1.
      rewrite annotations_of_insert_eq.
      unfold fitted_annotations at 1. cbn [ann_varm].
      rewrite lookup_insert_eq.
      by rewrite varm_setitem_run, Hn2. }
  rewrite Hvarm. clear Hvarm.
  destruct (caller_PCs a mask out) as [PCs|e]; [|done].
  unfold mbind at 1, P_bind at 1, pbind at 1.
  rewrite (uns_getitem_run lp (fitted_object X R theta clip out)) by done.
  unfold fitted_object at 1, set_uns at 1. cbn [adata_uns base anns calls].
  rewrite lookup_insert_eq.
  unfold mbind at 1, P_bind at 1, pbind at 1.
  rewrite (lift_uns_setitem_run l a) by done.
  cbn [base anns calls heap trace].
  unfold mbind at 1, P_bind at 1, pbind at 1.
  rewrite (lift_uns_setitem_run l (set_uns a "pca" (pca_info out)))
    by apply lookup_insert_eq.
  cbn [base anns calls heap trace]. rewrite insert_insert_eq.
  unfold mbind at 1, P_bind at 1, pbind at 1.
  rewrite obsm_getitem_run, Hn2p.
  unfold fitted_annotations at 1. cbn [ann_obsm]. rewrite lookup_insert_eq.
  unfold mbind at 1, P_bind at 1, pbind at 1.
  rewrite obsm_setitem_run, annotations_of_insert_eq.
  cbn [base anns calls]. by rewrite insert_insert_eq.
Qed.

End PipelineRun.

(** ** Properties of the pipeline *)

Section PipelineFacts.
Context {F : Type} `{Scalar F} {kwargs : Type}.
Variable hmv :
  AnnData F -> annotations F -> mask_arg -> option bool ->
  result (option (list bool)).
Variable fit : ndarray F -> option nat -> Z -> kwargs -> result (pca_output F).

(** What existed is not touched by the making of the new object. *)
Lemma frame_heap (w : pworld F) l a mask X l' x :
  heap (base w) !! l' <> None ->
  <[fresh (dom (heap (base (input_world w l a mask X)))) := x]>
    (heap (base (input_world w l a mask X))) !! l'
  = heap (base w) !! l'.
Proof.
  intros Hex. rewrite lookup_insert_ne.
  - by apply input_world_heap.
  - intros E. by apply (input_world_not_fresh w l a mask X l').
Qed.

Lemma frame_annotations (w : pworld F) l a mask X l' b c n1 :
  heap (base w) !! l' <> None ->
  annotations_of
    (PWorld b (<[fresh (dom (heap (base (input_world w l a mask X)))) := n1]>
                 (anns (input_world w l a mask X))) c) l'
  = annotations_of w l'.
Proof.
  intros Hex. rewrite annotations_of_insert_ne.
  - by apply input_world_annotations.
  - intros E. by apply (input_world_not_fresh w l a mask X l').
Qed.

(** X10: what the pipeline never writes.  Whatever the arguments and
    whatever the outcome, the caller's [X] and layers are as they were,
    and so is every key of its [uns] other than ["pca"] and
    ["pearson_residuals_normalization"]; every other object that existed
    is untouched, with its annotations; with [inplace=False] the caller's
    object and its annotations are untouched altogether. *)
Theorem X10_pipeline_keeps_matrix l a theta clip n_comps rs kw mask_var use_hv
  cv inplace (w : pworld F) :
  heap (base w) !! l = Some a ->
  exists o w' a',
    normalize_pearson_residuals_pca hmv fit l theta clip n_comps rs kw
      mask_var use_hv cv inplace w = (o, w') /\
    heap (base w') !! l = Some a' /\
    adata_X a' = adata_X a /\
    adata_layers a' = adata_layers a /\
    (forall key, key <> "pca" -> key <> uns_key ->
       adata_uns a' !! key = adata_uns a !! key) /\
    (forall l', heap (base w) !! l' <> None -> l' <> l ->
       heap (base w') !! l' = heap (base w) !! l' /\
       annotations_of w' l' = annotations_of w l') /\
    (inplace = false ->
       a' = a /\ annotations_of w' l = annotations_of w l).
Proof.
  intros Hl.
  assert (Hex : heap (base w) !! l <> None) by congruence.
  rewrite (pipeline_run hmv fit l a theta clip n_comps rs kw mask_var use_hv
             cv inplace w Hl).
  cbv zeta.
  assert (Hsame : forall b c, annotations_of (PWorld b (anns w) c) l
                              = annotations_of w l) by done.
  destruct (hmv a (annotations_of w l) mask_var use_hv) as [mask|e].
  2: { exists (Failed e); eexists _, a; split_and!; try done. }
  destruct (pca_input a mask) as [X|e].
  2: { exists (Failed e); eexists _, a; split_and!; try done. }
  pose proof (frame_heap w l a mask X) as Hh.
  pose proof (frame_annotations w l a mask X) as Hn.
  pose proof (input_world_not_fresh w l a mask X l Hex) as Hne.
  set (w0 := input_world w l a mask X) in *.
  set (lp := fresh (dom (heap (base w0)))) in *.
  destruct (pearson_outcome X theta clip) as [R|e].
  2: { exists (Failed (Exn e)); eexists _, a; split_and!; try done; cbn [base heap].
       - by rewrite Hh.
       - intros l' Hex' Hl'. split; [by apply Hh|by apply Hn].
       - intros _. split; [done|by apply Hn]. }
  destruct (fit R n_comps rs kw) as [out|e].
  2: { exists (Failed e); eexists _, a; split_and!; try done; cbn [base heap].
       - by rewrite Hh.
       - intros l' Hex' Hl'. split; [by apply Hh|by apply Hn].
       - intros _. split; [done|by apply Hn]. }
  destruct inplace.
  2: { eexists _, _, a; split_and!; try done; cbn [base heap].
       - by rewrite Hh.
       - intros l' Hex' Hl'. split; [by apply Hh|by apply Hn].
       - intros _. split; [done|by apply Hn]. }
  destruct (caller_PCs a mask out) as [PCs|e].
  - eexists _, _,
      (set_uns (set_uns a "pca" (pca_info out)) uns_key
               (norm_dict R theta clip));
      split_and!; try done; cbn [base heap].
    + apply lookup_insert_eq.
    + intros key Hk1 Hk2. cbn [set_uns adata_uns].
      by rewrite !lookup_insert_ne.
    + intros l' Hex' Hl'. split.
      * rewrite lookup_insert_ne by done. by apply Hh.
      * rewrite annotations_of_insert_ne by done. by apply Hn.
  - exists (Failed e); eexists _, a; split_and!; try done; cbn [base heap].
    + by rewrite Hh.
    + intros l' Hex' Hl'. split; [by apply Hh|].
      rewrite annotations_of_insert_ne by done. by apply Hn.
Qed.

(** X11: a call of the pipeline that fails (in the mask handling, the
    selection of the columns, the normalization, the PCA routine or the
    write-back) leaves the contents of the caller's object as they were,
    and its annotations too, but for one case: the scattering of the
    loadings under a mask fails after [varm["PCs"]] has been set to
    zeros. *)
Theorem X11_pipeline_failure l a theta clip n_comps rs kw mask_var use_hv cv
  inplace (w w' : pworld F) e :
  heap (base w) !! l = Some a ->
  normalize_pearson_residuals_pca hmv fit l theta clip n_comps rs kw
    mask_var use_hv cv inplace w = (Failed e, w') ->
  exists a',
    heap (base w') !! l = Some a' /\
    same_contents a a' /\
    ann_var (annotations_of w' l) = ann_var (annotations_of w l) /\
    ann_obsm (annotations_of w' l) = ann_obsm (annotations_of w l) /\
    (ann_varm (annotations_of w' l) = ann_varm (annotations_of w l) \/
     inplace = true /\
     exists m out,
       setitem_rows (zeros (ncols (adata_X a)) (ncols (pca_scores out))) m
                    (pca_loadings out) = Failed e /\
       ann_varm (annotations_of w' l)
       = <["PCs" := zeros (ncols (adata_X a)) (ncols (pca_scores out))]>
           (ann_varm (annotations_of w l))).
Proof.
  intros Hl.
  assert (Hex : heap (base w) !! l <> None) by congruence.
  rewrite (pipeline_run hmv fit l a theta clip n_comps rs kw mask_var use_hv
             cv inplace w Hl).
  cbv zeta. intros Hrun. exists a.
  assert (Hsame : same_contents a a) by done.
  destruct (hmv a (annotations_of w l) mask_var use_hv) as [mask|e0].
  2: { injection Hrun as <- <-. split_and!; try done. by left. }
  destruct (pca_input a mask) as [X|e0].
  2: { injection Hrun as <- <-. split_and!; try done. by left. }
  pose proof (frame_heap w l a mask X l) as Hh.
  pose proof (frame_annotations w l a mask X l) as Hn.
  pose proof (input_world_not_fresh w l a mask X l Hex) as Hne.
  set (w0 := input_world w l a mask X) in *.
  set (lp := fresh (dom (heap (base w0)))) in *.
  destruct (pearson_outcome X theta clip) as [R|e0].
  2: { injection Hrun as <- <-. cbn [base heap].
       rewrite Hh, Hn, Hl by done. split_and!; try done. by left. }
  destruct (fit R n_comps rs kw) as [out|e0].
  2: { injection Hrun as <- <-. cbn [base heap].
       rewrite Hh, Hn, Hl by done. split_and!; try done. by left. }
  destruct inplace; [|done].
  destruct (caller_PCs a mask out) as [PCs|e0] eqn:EP; [done|].
  injection Hrun as <- <-. cbn [base heap].
  rewrite Hh, annotations_of_insert_eq, Hl by done.
  split_and!; try done. right. split; [done|].
  destruct mask as [m|]; [|done]. by exists m, out.
Qed.

(** *** Rows under a mask *)

Lemma put_rows_length {A} (m : list bool) (Z P : list A) :
  length (put_rows m Z P) = length Z.
Proof.
  revert Z P. induction m as [|[] m IH]; intros [|z Z] P; simpl; try done.
  - destruct P; simpl; by rewrite IH.
  - by rewrite IH.
Qed.

Lemma mask_select_put_rows {A} (m : list bool) (Z P : list A) :
  length Z = length m -> length P = count_true m ->
  mask_select m (put_rows m Z P) = P.
Proof.
  unfold count_true.
  revert Z P. induction m as [|[] m IH]; intros [|z Z] P; simpl;
    intros HZ HP; try done.
  - by destruct P.
  - destruct P as [|r P]; [done|]. simpl in *. f_equal. apply IH; lia.
  - apply IH; lia.
Qed.

Lemma put_rows_false {A} (m : list bool) (Z P : list A) g :
  m !! g = Some false -> put_rows m Z P !! g = Z !! g.
Proof.
  revert Z P g. induction m as [|b m IH]; intros Z P g Hg; [done|].
  destruct g as [|g]; simpl in Hg.
  - injection Hg as ->. by destruct Z.
  - destruct Z as [|z Z]; [by destruct b|].
    destruct b; [destruct P|]; simpl; by apply IH.
Qed.

Lemma broadcast_to_same (A : ndarray F) :
  broadcast_to A (shape0 A) (ncols A) = rows A.
Proof.
  unfold broadcast_to. rewrite !Nat.eqb_refl. apply map_id.
Qed.

Lemma shape0_zeros n q : shape0 (zeros (F:=F) n q) = n.
Proof. unfold zeros, shape0; cbn [rows]. apply length_replicate. Qed.

(** The loadings scattered over the variables: the selected rows are the
    loadings, in order, the others are zeros. *)
Lemma caller_PCs_masked (a : AnnData F) (m : list bool) (out : pca_output F) :
  length m = ncols (adata_X a) ->
  shape0 (pca_loadings out) = count_true m ->
  ncols (pca_loadings out) = ncols (pca_scores out) ->
  exists PCs,
    caller_PCs a (Some m) out = Done PCs /\
    shape0 PCs = ncols (adata_X a) /\
    ncols PCs = ncols (pca_scores out) /\
    mask_select m (rows PCs) = rows (pca_loadings out) /\
    (forall g, m !! g = Some false ->
       rows PCs !! g = Some (replicate (ncols (pca_scores out)) s_zero)).
Proof.
  intros Hm Hp Hq. unfold caller_PCs, setitem_rows, broadcastable.
  rewrite shape0_zeros. cbn [zeros shape0 rows ncols].
  rewrite <- Hm, Nat.eqb_refl. cbn [negb].
  rewrite <- Hp, <- Hq, !Nat.eqb_refl. cbn [orb andb negb].
  eexists; split; [reflexivity|]. unfold shape0. cbn [rows ncols kind].
  fold (shape0 (pca_loadings out)).
  rewrite broadcast_to_same. split_and!.
  - by rewrite put_rows_length, length_replicate.
  - done.
  - apply mask_select_put_rows; [by rewrite length_replicate|done].
  - intros g Hg. rewrite (put_rows_false m _ _ g Hg).
    apply lookup_replicate_2. apply lookup_lt_Some in Hg. lia.
Qed.

End PipelineFacts.

Lemma X10_witness :
  exists o w' a',
    normalize_pearson_residuals_pca DemoPca.hmv DemoPca.fit 1%positive
      100%float None (Some 50) 0 tt MaskEmpty None true true DemoPca.pw
    = (o, w') /\
    heap (base w') !! 1%positive = Some a' /\
    adata_X a' = Demo.X_counts /\
    adata_layers a' = adata_layers Demo.adata.
Proof.
  destruct (X10_pipeline_keeps_matrix DemoPca.hmv DemoPca.fit 1%positive
              Demo.adata 100%float None (Some 50) 0 tt MaskEmpty None true
              true DemoPca.pw) as (o & w' & a' & Hrun & Ha & HX & HL & _);
    [reflexivity|].
  exists o, w', a'. split_and!; [exact Hrun|exact Ha|exact HX|exact HL].
Defined.

(** The pipeline with a PCA routine that fails, in place. *)
Lemma X11_witness :
  exists e w' a',
    normalize_pearson_residuals_pca DemoPca.hmv DemoPca.fit_fails 1%positive
      100%float None (Some 50) 0 tt MaskEmpty None true true DemoPca.pw
    = (Failed e, w') /\
    heap (base w') !! 1%positive = Some a' /\
    same_contents Demo.adata a' /\
    ann_obsm (annotations_of w' 1%positive) = ∅.
Proof.
  pose proof (pipeline_run DemoPca.hmv DemoPca.fit_fails 1%positive Demo.adata
                100%float None (Some 50) 0 tt MaskEmpty None true true
                DemoPca.pw eq_refl) as E.
  cbv zeta in E. cbn [DemoPca.hmv pca_input] in E.
  destruct (pearson_outcome_ok Demo.X_counts 100%float None)
    as (R & HR & _); [reflexivity|reflexivity|].
  change (adata_X Demo.adata) with Demo.X_counts in E.
  rewrite HR in E. cbn [DemoPca.fit_fails] in E.
  destruct (X11_pipeline_failure DemoPca.hmv DemoPca.fit_fails 1%positive
              Demo.adata 100%float None (Some 50) 0 tt MaskEmpty None true
              true DemoPca.pw _ _ eq_refl E) as (a' & Ha & Hs & _ & Ho & _).
  eexists _, _, a'. split_and!; [exact E|exact Ha|exact Hs|exact Ho].
Defined.

(** X12: invalid parameters with the pipeline.  With [theta <= 0] or an
    explicit [clip < 0] the call raises the error of
    [_pearson_residuals]; the PCA routine is not called; the caller's
    object and its annotations are as they were.  By then the new object
    has been made and the matrix has been copied for it and copied again
    by [_pearson_residuals]; under a mask the object with the selected
    columns has been made before, by [adata[:, mask_var].copy()]. *)
Theorem X12_pipeline_rejects_parameters
  {kwargs : Type}
  (hmv : AnnData float -> annotations float -> mask_arg -> option bool ->
         result (option (list bool)))
  (fit : ndarray float -> option nat -> Z -> kwargs ->
         result (pca_output float))
  (l : loc) (a : AnnData float) (theta : float) (clip : option float)
  (n_comps : option nat) (random_state : Z) (kw : kwargs)
  (mask_var : mask_arg) (use_highly_variable : option bool)
  (check_values inplace : bool) (w : pworld float)
  (mask : option (list bool)) (X : ndarray float) :
  heap (base w) !! l = Some a ->
  hmv a (annotations_of w l) mask_var use_highly_variable = Done mask ->
  pca_input a mask = Done X ->
  invalid_parameters theta clip ->
  exists msg w',
    normalize_pearson_residuals_pca hmv fit l theta clip n_comps random_state
      kw mask_var use_highly_variable check_values inplace w
    = (Failed (Exn (ValueError msg)), w') /\
    (msg = theta_msg \/ msg = clip_msg) /\
    calls w' = calls w ++ [CallHandleMaskVar l] /\
    heap (base w') !! l = Some a /\
    annotations_of w' l = annotations_of w l /\
    let ls := fresh (dom (heap (base w))) in
    let lp := fresh (dom (heap (base (input_world w l a mask X)))) in
    heap (base w') !! lp = Some (MkAnnData X ∅ ∅ false) /\
    heap (base w) !! lp = None /\
    (forall m, mask = Some m ->
       lp <> ls /\
       heap (base w') !! ls = Some (subset_object a m X) /\
       annotations_of w' ls = subset_annotations (annotations_of w l) m) /\
    trace (base w')
    = trace (base w) ++
      match mask with
      | Some _ => [EvAnnDataCopy l ls]
      | None => []
      end ++
      [EvArrayCopy; EvViewToActual lp; EvGetObsRep lp None;
       EvLogInfo "computing analytic Pearson residuals on adata.X";
       EvArrayCopy].
Proof.
  intros Hl Hm HX Hinv.
  assert (Hex : heap (base w) !! l <> None) by congruence.
  rewrite (pipeline_run hmv fit l a theta clip n_comps random_state kw
             mask_var use_highly_variable check_values inplace w Hl).
  cbv zeta. rewrite Hm, HX.
  pose proof (invalid_parameters_rejected X theta clip Hinv) as Hrej.
  unfold pipeline_events.
  rewrite (pearson_events_rejected X theta clip _ _ Hrej).
  pose proof (frame_heap w l a mask X l) as Hh.
  pose proof (frame_annotations w l a mask X l) as Hn.
  pose proof (input_world_fresh w l a mask X) as Hf.
  rewrite (input_world_trace w l a mask X).
  assert (Hsub : forall m x n1 b c,
            mask = Some m ->
            let lp := fresh (dom (heap (base (input_world w l a mask X)))) in
            let ls := fresh (dom (heap (base w))) in
            lp <> ls /\
            <[lp := x]> (heap (base (input_world w l a mask X))) !! ls
            = Some (subset_object a m X) /\
            annotations_of
              (PWorld b (<[lp := n1]> (anns (input_world w l a mask X))) c) ls
            = subset_annotations (annotations_of w l) m).
  { intros m x n1 b c ->. cbv zeta. cbn [input_world base heap anns].
    set (ls := fresh (dom (heap (base w)))).
    set (h1 := <[ls := subset_object a m X]> (heap (base w))).
    assert (Hne : fresh (dom h1) <> ls).
    { intros E. pose proof (is_fresh (dom h1)) as Hfr.
      apply not_elem_of_dom in Hfr. rewrite E in Hfr. unfold h1 in Hfr.
      by rewrite lookup_insert_eq in Hfr. }
    split; [done|]. rewrite lookup_insert_ne by done.
    unfold h1. rewrite lookup_insert_eq. split; [done|].
    rewrite annotations_of_insert_ne by done.
    apply annotations_of_insert_eq. }
  destruct (pearson_outcome_rejected X theta clip Hrej) as [-> | ->];
    eexists _, _; (split; [reflexivity|]); cbn [base heap trace calls];
    rewrite (Hh _ Hex), (Hn _ _ _ Hex), lookup_insert_eq.
  all: split; [auto|]. all: split; [done|]. all: split; [done|].
  all: split; [done|]. all: split; [done|]. all: split; [done|].
  all: split; [intros m Em; by apply Hsub|].
  all: by rewrite <- !app_assoc.
Qed.

(** Under a mask that selects the first of the two variables. *)
Lemma X12_witness :
  exists msg w',
    normalize_pearson_residuals_pca DemoPca.hmv DemoPca.fit 1%positive
      0%float None (Some 50) 0 tt (MaskArray [true; false]) None true true
      DemoPca.pw
    = (Failed (Exn (ValueError msg)), w') /\
    calls w' = [CallHandleMaskVar 1%positive] /\
    heap (base w') !! 1%positive = Some Demo.adata /\
    heap (base w') !! 2%positive
    = Some (subset_object Demo.adata [true; false]
              (NDArray Dense 1 [[1]; [3]]%float)) /\
    heap (base w') !! 3%positive
    = Some (MkAnnData (NDArray Dense 1 [[1]; [3]]%float) ∅ ∅ false) /\
    trace (base w')
    = [EvAnnDataCopy 1%positive 2%positive; EvArrayCopy;
       EvViewToActual 3%positive; EvGetObsRep 3%positive None;
       EvLogInfo "computing analytic Pearson residuals on adata.X";
       EvArrayCopy].
Proof.
  destruct (X12_pipeline_rejects_parameters DemoPca.hmv DemoPca.fit
              1%positive Demo.adata 0%float None (Some 50) 0 tt
              (MaskArray [true; false]) None true true DemoPca.pw
              (Some [true; false]) (NDArray Dense 1 [[1]; [3]]%float))
    as (msg & w' & Hrun & _ & Hc & Ha & _ & Hp & _ & Hs & Ht);
    [reflexivity|reflexivity|reflexivity|by left|].
  destruct (Hs _ eq_refl) as (_ & Hs' & _).
  exists msg, w'. split_and!;
    [exact Hrun|exact Hc|exact Ha|exact Hs'|exact Hp|exact Ht].
Defined.

(** X13: the pipeline with [inplace=False].  With a matrix that
    [_pearson_residuals] accepts and a PCA routine that returns, the call
    returns a new object: its [X] holds the residuals, it has no layers,
    its [uns] holds the settings (computed on ["adata.X"]) and the record
    of the PCA, its [obsm] and [varm] hold the scores and the loadings.
    The caller's object and its annotations are as they were. *)
Theorem X13_pipeline_not_inplace
  {F : Type} `{Scalar F} {kwargs : Type}
  (hmv : AnnData F -> annotations F -> mask_arg -> option bool ->
         result (option (list bool)))
  (fit : ndarray F -> option nat -> Z -> kwargs -> result (pca_output F))
  (l : loc) (a : AnnData F) (theta : F) (clip : option F)
  (n_comps : option nat) (random_state : Z) (kw : kwargs)
  (mask_var : mask_arg) (use_highly_variable : option bool)
  (check_values : bool) (w : pworld F)
  (mask : option (list bool)) (X R : ndarray F) (out : pca_output F) :
  heap (base w) !! l = Some a ->
  hmv a (annotations_of w l) mask_var use_highly_variable = Done mask ->
  pca_input a mask = Done X ->
  pearson_outcome X theta clip = Ok R ->
  fit R n_comps random_state kw = Done out ->
  exists w' lp obj,
    normalize_pearson_residuals_pca hmv fit l theta clip n_comps random_state
      kw mask_var use_highly_variable check_values false w
    = (Done (Some lp), w') /\
    lp <> l /\
    heap (base w) !! lp = None /\
    heap (base w') !! lp = Some obj /\
    adata_X obj = R /\
    adata_layers obj = ∅ /\
    adata_uns obj !! uns_key = Some (settings_dict theta clip "adata.X") /\
    adata_uns obj !! "pca" = Some (pca_info out) /\
    ann_obsm (annotations_of w' lp) !! "X_pca" = Some (pca_scores out) /\
    ann_varm (annotations_of w' lp) !! "PCs" = Some (pca_loadings out) /\
    heap (base w') !! l = Some a /\
    annotations_of w' l = annotations_of w l /\
    calls w' = calls w ++ [CallHandleMaskVar l;
                           CallPca lp n_comps random_state].
Proof.
  intros Hl Hm HX HR Hfit.
  assert (Hex : heap (base w) !! l <> None) by congruence.
  rewrite (pipeline_run hmv fit l a theta clip n_comps random_state kw
             mask_var use_highly_variable check_values false w Hl).
  cbv zeta. rewrite Hm, HX, HR, Hfit.
  eexists _, _, _; split; [reflexivity|]. cbn [base heap calls].
  rewrite lookup_insert_eq, annotations_of_insert_eq,
    (frame_heap w l a mask X l), (frame_annotations w l a mask X l) by done.
  split_and!; try done.
  - intros E. by apply (input_world_not_fresh w l a mask X l).
  - apply input_world_fresh.
  - by rewrite <- app_assoc.
Qed.

Lemma X13_witness :
  exists w' lp obj,
    normalize_pearson_residuals_pca DemoPca.hmv DemoPca.fit 1%positive
      100%float None (Some 50) 0 tt MaskEmpty None true false DemoPca.pw
    = (Done (Some lp), w') /\
    lp <> 1%positive /\
    heap (base w') !! lp = Some obj /\
    pearson_outcome Demo.X_counts 100%float None = Ok (adata_X obj) /\
    heap (base w') !! 1%positive = Some Demo.adata.
Proof.
  destruct (pearson_outcome_ok Demo.X_counts 100%float None)
    as (R & HR & _); [reflexivity|reflexivity|].
  destruct (X13_pipeline_not_inplace DemoPca.hmv DemoPca.fit
              1%positive Demo.adata 100%float None (Some 50) 0 tt MaskEmpty
              None true DemoPca.pw None Demo.X_counts R (PcaOutput R
                (NDArray Dense (ncols R)
                   (replicate (ncols R) (replicate (ncols R) 1%float)))
                [("variance_ratio", PyNone)]))
    as (w' & lp & obj & Hrun & Hne & _ & Hobj & HXo & _ & _ & _ & _ & _ & Ha
        & _); [reflexivity|reflexivity|reflexivity|exact HR|reflexivity|].
  exists w', lp, obj. rewrite HXo.
  split_and!; [exact Hrun|exact Hne|exact Hobj|exact HR|exact Ha].
Defined.

(** X14: the pipeline with [inplace=True] and no mask.  The call returns
    [None]; the caller's [X] and layers are as they were (the residuals
    do not replace [X]); its [uns] holds the record of the PCA and, under
    ["pearson_residuals_normalization"], the settings followed by the
    residuals as [pearson_residuals_df]; [obsm["X_pca"]] and
    [varm["PCs"]] hold the scores and the loadings; the other keys of
    [obsm] and [varm] are as they were. *)
Theorem X14_pipeline_inplace
  {F : Type} `{Scalar F} {kwargs : Type}
  (hmv : AnnData F -> annotations F -> mask_arg -> option bool ->
         result (option (list bool)))
  (fit : ndarray F -> option nat -> Z -> kwargs -> result (pca_output F))
  (l : loc) (a : AnnData F) (theta : F) (clip : option F)
  (n_comps : option nat) (random_state : Z) (kw : kwargs)
  (mask_var : mask_arg) (use_highly_variable : option bool)
  (check_values : bool) (w : pworld F)
  (R : ndarray F) (out : pca_output F) :
  heap (base w) !! l = Some a ->
  hmv a (annotations_of w l) mask_var use_highly_variable = Done None ->
  pearson_outcome (adata_X a) theta clip = Ok R ->
  fit R n_comps random_state kw = Done out ->
  exists w' a',
    normalize_pearson_residuals_pca hmv fit l theta clip n_comps random_state
      kw mask_var use_highly_variable check_values true w
    = (Done None, w') /\
    heap (base w') !! l = Some a' /\
    adata_X a' = adata_X a /\
    adata_layers a' = adata_layers a /\
    adata_uns a' !! uns_key
    = Some [("theta", PyFloat theta);
            ("clip", match clip with Some c => PyFloat c | None => PyNone end);
            ("computed_on", PyStr "adata.X");
            ("pearson_residuals_df", PyArray R)] /\
    adata_uns a' !! "pca" = Some (pca_info out) /\
    ann_obsm (annotations_of w' l) !! "X_pca" = Some (pca_scores out) /\
    ann_varm (annotations_of w' l) !! "PCs" = Some (pca_loadings out) /\
    (forall key, key <> "X_pca" ->
       ann_obsm (annotations_of w' l) !! key
       = ann_obsm (annotations_of w l) !! key) /\
    (forall key, key <> "PCs" ->
       ann_varm (annotations_of w' l) !! key
       = ann_varm (annotations_of w l) !! key).
Proof.
  intros Hl Hm HR Hfit.
  rewrite (pipeline_run hmv fit l a theta clip n_comps random_state kw
             mask_var use_highly_variable check_values true w Hl).
  cbv zeta. rewrite Hm. cbn [pca_input caller_PCs]. rewrite HR, Hfit.
  eexists _, _; split; [reflexivity|]. cbn [base heap].
  rewrite lookup_insert_eq, annotations_of_insert_eq.
  split_and!; try done.
  - unfold set_uns; cbn [adata_uns]. by rewrite lookup_insert_eq.
  - unfold set_uns; cbn [adata_uns]. rewrite lookup_insert_ne by done.
    apply lookup_insert_eq.
  - cbn. apply lookup_insert_eq.
  - cbn. apply lookup_insert_eq.
  - intros key Hk. cbn. by apply lookup_insert_ne.
  - intros key Hk. cbn. by apply lookup_insert_ne.
Qed.

Lemma X14_witness :
  exists w' a' R,
    normalize_pearson_residuals_pca DemoPca.hmv DemoPca.fit 1%positive
      100%float None (Some 50) 0 tt MaskEmpty None true true DemoPca.pw
    = (Done None, w') /\
    heap (base w') !! 1%positive = Some a' /\
    adata_X a' = Demo.X_counts /\
    adata_uns a' !! uns_key
    = Some [("theta", PyFloat 100%float); ("clip", PyNone);
            ("computed_on", PyStr "adata.X");
            ("pearson_residuals_df", PyArray R)].
Proof.
  destruct (pearson_outcome_ok Demo.X_counts 100%float None)
    as (R & HR & _); [reflexivity|reflexivity|].
  destruct (X14_pipeline_inplace DemoPca.hmv DemoPca.fit
              1%positive Demo.adata 100%float None (Some 50) 0 tt MaskEmpty
              None true DemoPca.pw R (PcaOutput R
                (NDArray Dense (ncols R)
                   (replicate (ncols R) (replicate (ncols R) 1%float)))
                [("variance_ratio", PyNone)]))
    as (w' & a' & Hrun & Ha & HXa & _ & Hu & _);
    [reflexivity|reflexivity|exact HR|reflexivity|].
  exists w', a', R. split_and!; [exact Hrun|exact Ha|exact HXa|exact Hu].
Defined.

(** X15: the pipeline with [inplace=True] under a mask.  The residuals
    are those of the selected columns alone (their row sums are taken
    over the selected variables); [varm["PCs"]] of the caller has one row
    for each variable: the rows of the selected variables are the
    loadings, in order, and the rows of the others are zeros. *)
Theorem X15_pipeline_mask
  {F : Type} `{Scalar F} {kwargs : Type}
  (hmv : AnnData F -> annotations F -> mask_arg -> option bool ->
         result (option (list bool)))
  (fit : ndarray F -> option nat -> Z -> kwargs -> result (pca_output F))
  (l : loc) (a : AnnData F) (theta : F) (clip : option F)
  (n_comps : option nat) (random_state : Z) (kw : kwargs)
  (mask_var : mask_arg) (use_highly_variable : option bool)
  (check_values : bool) (w : pworld F)
  (m : list bool) (R : ndarray F) (out : pca_output F) :
  heap (base w) !! l = Some a ->
  hmv a (annotations_of w l) mask_var use_highly_variable = Done (Some m) ->
  length m = ncols (adata_X a) ->
  pearson_outcome
    (NDArray (kind (adata_X a)) (count_true m)
             (map (mask_select m) (rows (adata_X a)))) theta clip = Ok R ->
  fit R n_comps random_state kw = Done out ->
  shape0 (pca_loadings out) = count_true m ->
  ncols (pca_loadings out) = ncols (pca_scores out) ->
  exists w' a' PCs,
    normalize_pearson_residuals_pca hmv fit l theta clip n_comps random_state
      kw mask_var use_highly_variable check_values true w
    = (Done None, w') /\
    heap (base w') !! l = Some a' /\
    adata_X a' = adata_X a /\
    dict_get (default [] (adata_uns a' !! uns_key)) "pearson_residuals_df"
    = Some (PyArray R) /\
    ann_varm (annotations_of w' l) !! "PCs" = Some PCs /\
    shape0 PCs = ncols (adata_X a) /\
    ncols PCs = ncols (pca_scores out) /\
    mask_select m (rows PCs) = rows (pca_loadings out) /\
    (forall g, m !! g = Some false ->
       rows PCs !! g = Some (replicate (ncols (pca_scores out)) s_zero)).
Proof.
  intros Hl Hm Hlen HR Hfit Hp Hq.
  rewrite (pipeline_run hmv fit l a theta clip n_comps random_state kw
             mask_var use_highly_variable check_values true w Hl).
  cbv zeta. rewrite Hm. cbn [pca_input]. unfold getitem_columns.
  rewrite Hlen, Nat.eqb_refl, HR, Hfit.
  destruct (caller_PCs_masked a m out Hlen Hp Hq)
    as (PCs & -> & Hs & Hc & Hsel & Hzero).
  eexists _, _, PCs; split; [reflexivity|]. cbn [base heap].
  rewrite lookup_insert_eq, annotations_of_insert_eq.
  split_and!; try done.
  - unfold set_uns; cbn [adata_uns]. rewrite lookup_insert_eq.
    unfold norm_dict. cbn [default]. by destruct clip.
  - cbn. apply lookup_insert_eq.
Qed.

Lemma X15_witness :
  exists w' a' PCs R,
    normalize_pearson_residuals_pca DemoPca.hmv DemoPca.fit 1%positive
      100%float None (Some 50) 0 tt (MaskArray [false; true]) None true true
      DemoPca.pw
    = (Done None, w') /\
    heap (base w') !! 1%positive = Some a' /\
    adata_X a' = Demo.X_counts /\
    pearson_outcome (NDArray Dense 1 [[2]; [0]]%float) 100%float None = Ok R /\
    ann_varm (annotations_of w' 1%positive) !! "PCs" = Some PCs /\
    shape0 PCs = 2 /\
    rows PCs !! 0 = Some [0%float] /\
    mask_select [false; true] (rows PCs) = [[1%float]].
Proof.
  destruct (pearson_outcome_ok (NDArray Dense 1 [[2]; [0]]%float) 100%float
              None) as (R & HR & Hcols & _); [reflexivity|reflexivity|].
  cbn [ncols] in Hcols.
  destruct (X15_pipeline_mask DemoPca.hmv DemoPca.fit
              1%positive Demo.adata 100%float None (Some 50) 0 tt
              (MaskArray [false; true]) None true DemoPca.pw [false; true] R
              (PcaOutput R
                (NDArray Dense (ncols R)
                   (replicate (ncols R) (replicate (ncols R) 1%float)))
                [("variance_ratio", PyNone)]))
    as (w' & a' & PCs & Hrun & Ha & HXa & _ & HP & Hs & Hc & Hsel & Hz);
    [reflexivity|reflexivity|reflexivity|exact HR|reflexivity
    |by rewrite Hcols|reflexivity|].
  exists w', a', PCs, R.
  split_and!; [exact Hrun|exact Ha|exact HXa|exact HR|exact HP|exact Hs|..].
  - specialize (Hz 0 eq_refl). cbn [pca_scores] in Hz.
    rewrite Hcols in Hz. exact Hz.
  - cbn [pca_loadings rows] in Hsel. rewrite Hcols in Hsel. exact Hsel.
Defined.

(** X16: an error of the mask handling.  When [_handle_mask_var] fails
    (as it does, with a [ValueError], on a mask that has not one entry
    for each variable), the pipeline fails with that error: nothing has
    been allocated, copied, logged or written by then, and the PCA
    routine is not called. *)
Theorem X16_pipeline_mask_rejected
  {F : Type} `{Scalar F} {kwargs : Type}
  (hmv : AnnData F -> annotations F -> mask_arg -> option bool ->
         result (option (list bool)))
  (fit : ndarray F -> option nat -> Z -> kwargs -> result (pca_output F))
  (l : loc) (a : AnnData F) (theta : F) (clip : option F)
  (n_comps : option nat) (random_state : Z) (kw : kwargs)
  (mask_var : mask_arg) (use_highly_variable : option bool)
  (check_values inplace : bool) (w : pworld F) (e : failure) :
  heap (base w) !! l = Some a ->
  hmv a (annotations_of w l) mask_var use_highly_variable = Failed e ->
  normalize_pearson_residuals_pca hmv fit l theta clip n_comps random_state
    kw mask_var use_highly_variable check_values inplace w
  = (Failed e, PWorld (base w) (anns w) (calls w ++ [CallHandleMaskVar l])).
Proof.
  intros Hl Hm.
  rewrite (pipeline_run hmv fit l a theta clip n_comps random_state kw
             mask_var use_highly_variable check_values inplace w Hl).
  cbv zeta. by rewrite Hm.
Qed.

(** A mask with one entry for two variables. *)
Lemma X16_witness :
  normalize_pearson_residuals_pca DemoPca.hmv DemoPca.fit 1%positive
    100%float None (Some 50) 0 tt (MaskArray [true]) None true true DemoPca.pw
  = (Failed (Foreign "ValueError"),
     PWorld Demo.w_adata ∅ [CallHandleMaskVar 1%positive]).
Proof.
  apply (X16_pipeline_mask_rejected DemoPca.hmv DemoPca.fit 1%positive
           Demo.adata 100%float None (Some 50) 0 tt (MaskArray [true]) None
           true true DemoPca.pw); reflexivity.
Defined.


Lemma In_pipeline_events_warn (lp : loc) (X : ndarray float) theta clip cv
  (pre tail : list event) :
  PrimFloat.ltb 0 theta = true ->
  (forall c, clip = Some c -> PrimFloat.leb 0 c = true) ->
  (forall category msg, ~ In (EvWarn category msg) pre) ->
  (forall category msg, ~ In (EvWarn category msg) tail) ->
  In (EvWarn "UserWarning" count_msg)
     (pre ++ pipeline_events lp X theta clip cv ++ tail) <->
  cv = true /\ check_nonnegative_integers X = false.
Proof.
  intros Ht Hc Hpre Htail. unfold pipeline_events.
  rewrite !in_app_iff, warn_in_pearson_events.
  rewrite (f64_theta_accepted theta Ht), (f64_clip_accepted X clip Hc).
  split.
  - intros [Hin|[[Hin|Hin]|Hin]];
      [by apply Hpre in Hin| |tauto|by apply Htail in Hin].
    cbn in Hin. intuition discriminate.
  - intros [-> ->]. right. left. right. tauto.
Qed.

(** X17: in the pipeline the values are checked on the matrix it works
    on, that is on the selected columns only.  With parameters that pass
    the checks, the warning about non-integers is among the events of the
    call exactly when [check_values] is set and some entry of the
    selected columns is not a non-negative integer. *)
Theorem X17_pipeline_checks_selected_columns
  {kwargs : Type}
  (hmv : AnnData float -> annotations float -> mask_arg -> option bool ->
         result (option (list bool)))
  (fit : ndarray float -> option nat -> Z -> kwargs ->
         result (pca_output float))
  (l : loc) (a : AnnData float) (theta : float) (clip : option float)
  (n_comps : option nat) (random_state : Z) (kw : kwargs)
  (mask_var : mask_arg) (use_highly_variable : option bool)
  (check_values inplace : bool) (w : pworld float)
  (mask : option (list bool)) (X : ndarray float) :
  heap (base w) !! l = Some a ->
  hmv a (annotations_of w l) mask_var use_highly_variable = Done mask ->
  pca_input a mask = Done X ->
  PrimFloat.ltb 0 theta = true ->
  (forall c, clip = Some c -> PrimFloat.leb 0 c = true) ->
  exists o w' evs,
    normalize_pearson_residuals_pca hmv fit l theta clip n_comps random_state
      kw mask_var use_highly_variable check_values inplace w = (o, w') /\
    trace (base w') = trace (base w) ++ evs /\
    (In (EvWarn "UserWarning" count_msg) evs <->
     check_values = true /\ check_nonnegative_integers X = false).
Proof.
  intros Hl Hm HX Ht Hc.
  rewrite (pipeline_run hmv fit l a theta clip n_comps random_state kw
             mask_var use_highly_variable check_values inplace w Hl).
  cbv zeta. rewrite Hm, HX.
  destruct (pearson_outcome_ok X theta clip) as (R & -> & _);
    [by apply f64_theta_accepted|by apply f64_clip_accepted|].
  rewrite (input_world_trace w l a mask X).
  set (lp := fresh (dom (heap (base (input_world w l a mask X))))).
  set (pre := match mask with
              | Some _ => [EvAnnDataCopy l (fresh (dom (heap (base w))))]
              | None => []
              end).
  assert (Hpre : forall category msg, ~ In (EvWarn category msg) pre).
  { intros category msg. unfold pre.
    destruct mask; [intros [Hin|[]]; discriminate|intros []]. }
  assert (Htail : forall category msg,
            ~ In (EvWarn category msg)
                 [EvSetObsRep lp None; EvLogInfo finish_msg]).
  { intros category msg [Hin|[Hin|[]]]; discriminate. }
  pose proof (In_pipeline_events_warn lp X theta clip check_values _ _ Ht Hc
                Hpre Htail) as Hwarn.
  destruct (fit R n_comps random_state kw) as [out|e];
    [destruct inplace; [destruct (caller_PCs a mask out) as [PCs|e]|]|];
    eexists _, _, _; (split; [reflexivity|]); cbn [base trace];
    (split; [by rewrite <- !app_assoc|exact Hwarn]).
Qed.

Lemma X17_witness :
  exists o w' evs,
    normalize_pearson_residuals_pca DemoPca.hmv DemoPca.fit 1%positive
      100%float None (Some 50) 0 tt (MaskArray [true; false]) None true true
      DemoPca.pw_fraction = (o, w') /\
    trace (base w') = evs /\
    ~ In (EvWarn "UserWarning" count_msg) evs.
Proof.
  destruct (X17_pipeline_checks_selected_columns DemoPca.hmv DemoPca.fit
              1%positive (MkAnnData Demo.X_fraction ∅ ∅ false) 100%float None
              (Some 50) 0 tt (MaskArray [true; false]) None true true
              DemoPca.pw_fraction (Some [true; false])
              (NDArray Dense 1 [[1]; [3]]%float))
    as (o & w' & evs & Hrun & Htr & Hw);
    [reflexivity|reflexivity|reflexivity|reflexivity|done|].
  exists o, w', evs. split_and!; [exact Hrun|exact Htr|].
  intros Hin. apply Hw in Hin as [_ Hin]. discriminate Hin.
Defined.
